(** * sagemaker-nemo-asr-parakeet: the inference handler and the artifact packager

    A shallow embedding of [src/model/inference.py] ([input_fn], [output_fn])
    and of [src/utils/prepare_nemo_model.py] ([_tar_has_model_nemo],
    [_deterministic_filter], [prepare_nemo_artifact]), of the client of
    [src/test.py] ([b64_encode_file], [invoke_parakeet]) and of
    [src/utils/create_role.py] ([create_sagemaker_role]), together with the
    parts of the Python standard library these functions call
    ([json], [base64], [os.path], [tarfile], [gzip], the UTF-8 codec),
    modelled after CPython 3.11.

    Conventions.
    - A Python [str] is the list of its code points ([pystr]); a Python
      [bytes] is a [list byte].
    - A Python call either returns or raises: [outcome].
    - Library code that cannot be written down here is taken as given: the
      audio decoder of libsndfile is a parameter of [input_fn], and zlib's
      coder, the bzip2 and xz openers, the extension members of [tarfile]
      and the NeMo model hub are the fields of the class [Library]; the
      SageMaker endpoint and the IAM service are parameters of the
      functions that call them. *)

From Stdlib Require Import ZArith NArith QArith List Lia Bool.
From Stdlib.Strings Require Import String Ascii Byte.
From stdpp Require Import base option list gmap.

Set Warnings "-register-all".

Local Open Scope N_scope.

(** ** Python values *)

Definition pystr := list N.
Definition bytes := list byte.

(** The code points of an ASCII literal. *)
Definition py (s : string) : pystr :=
  map (fun a => N_of_ascii a) (list_ascii_of_string s).

Definition dquote : pystr := [34].

Definition str_eqb (a b : pystr) : bool := bool_decide (a = b).

Definition bytes_eqb (a b : bytes) : bool :=
  bool_decide (map Byte.to_N a = map Byte.to_N b).

(** [a in b] on two [str]: substring test. *)
Fixpoint starts_with (p s : pystr) : bool :=
  match p, s with
  | [], _ => true
  | _ :: _, [] => false
  | a :: p', b :: s' => (a =? b) && starts_with p' s'
  end.

Fixpoint str_contains (p s : pystr) : bool :=
  starts_with p s ||
  match s with
  | [] => false
  | _ :: s' => str_contains p s'
  end.

(** The low eight bits of a number, as a byte. *)
Definition byte_of_N (n : N) : byte :=
  match Byte.of_N (n mod 256) with
  | Some b => b
  | None => x00
  end.

(** [s.encode("latin-1")] and [b.decode("latin-1")]. *)
Definition latin1_encode (s : pystr) : option bytes :=
  if forallb (fun c => c <? 256) s then Some (map byte_of_N s) else None.
Definition latin1_decode (b : bytes) : pystr := map Byte.to_N b.

(** A call returns a value or raises. *)
Inductive outcome (E A : Type) : Type :=
  | Ret (a : A)
  | Raise (e : E).
Arguments Ret {E A} a.
Arguments Raise {E A} e.

#[global] Instance outcome_ret {E} : MRet (outcome E) := fun A (a : A) => Ret a.
#[global] Instance outcome_bind {E} : MBind (outcome E) :=
  fun A B (k : A -> outcome E B) (m : outcome E A) =>
    match m with
    | Ret a => k a
    | Raise e => Raise e
    end.

(** ** The [json] module *)

Module Json.

(** What [json.loads] builds.  Numbers keep their literal (the handler never
    computes with one); an object keeps its pairs in source order, and
    [dict_get] reads it the way the Python [dict] built from them does. *)
Inductive json : Type :=
  | JNull
  | JBool (b : bool)
  | JNum (lit : pystr)
  | JStr (s : pystr)
  | JArr (items : list json)
  | JObj (pairs : list (pystr * json)).

(** The last pair wins, as in [dict(pairs)]. *)
Fixpoint dict_get (k : pystr) (pairs : list (pystr * json)) : option json :=
  match pairs with
  | [] => None
  | (k', v) :: rest =>
      match dict_get k rest with
      | Some w => Some w
      | None => if str_eqb k k' then Some v else None
      end
  end.

Definition is_ws (c : N) : bool :=
  (c =? 32) || (c =? 9) || (c =? 10) || (c =? 13).

Fixpoint skip_ws (s : pystr) : pystr :=
  match s with
  | c :: r => if is_ws c then skip_ws r else s
  | [] => []
  end.

Definition is_digit (c : N) : bool := (48 <=? c) && (c <=? 57).

Definition hexval (c : N) : option N :=
  if is_digit c then Some (c - 48)
  else if (97 <=? c) && (c <=? 102) then Some (c - 87)
  else if (65 <=? c) && (c <=? 70) then Some (c - 55)
  else None.

Definition hex4 (a b c d : N) : option N :=
  match hexval a, hexval b, hexval c, hexval d with
  | Some x, Some y, Some z, Some w => Some (((x * 16 + y) * 16 + z) * 16 + w)
  | _, _, _, _ => None
  end.

Definition escape_char (e : N) : option N :=
  if e =? 34 then Some 34        (* quote *)
  else if e =? 92 then Some 92   (* backslash *)
  else if e =? 47 then Some 47   (* slash *)
  else if e =? 98 then Some 8    (* b: backspace *)
  else if e =? 102 then Some 12  (* f: form feed *)
  else if e =? 110 then Some 10  (* n: line feed *)
  else if e =? 114 then Some 13  (* r: carriage return *)
  else if e =? 116 then Some 9   (* t: tab *)
  else None.

Definition is_high_surrogate (u : N) : bool := (55296 <=? u) && (u <=? 56319).
Definition is_low_surrogate (u : N) : bool := (56320 <=? u) && (u <=? 57343).
Definition join_surrogates (hi lo : N) : N :=
  65536 + N.lor (N.shiftl (hi - 55296) 10) (lo - 56320).

Definition cons_char (c : N) (r : option (pystr * pystr)) : option (pystr * pystr) :=
  match r with
  | Some (str, rest) => Some (c :: str, rest)
  | None => None
  end.

(** [scanstring] (strict mode), entered after the opening quote: the decoded
    string and the input after the closing quote. *)
Fixpoint scanstring (s : pystr) : option (pystr * pystr) :=
  match s with
  | [] => None
  | c :: r =>
    if c =? 34 then Some ([], r)
    else if c =? 92 then
      match r with
      | [] => None
      | e :: r1 =>
        if e =? 117 then
          match r1 with
          | h1 :: h2 :: h3 :: h4 :: r2 =>
            match hex4 h1 h2 h3 h4 with
            | None => None
            | Some uni =>
              match r2 with
              | b :: u :: g1 :: g2 :: g3 :: g4 :: r3 =>
                if is_high_surrogate uni && (b =? 92) && (u =? 117) then
                  match hex4 g1 g2 g3 g4 with
                  | None => None
                  | Some uni2 =>
                    if is_low_surrogate uni2
                    then cons_char (join_surrogates uni uni2) (scanstring r3)
                    else cons_char uni (scanstring r2)
                  end
                else cons_char uni (scanstring r2)
              | _ => cons_char uni (scanstring r2)
              end
            end
          | _ => None
          end
        else
          match escape_char e with
          | Some d => cons_char d (scanstring r1)
          | None => None
          end
      end
    else if c <? 32 then None
    else cons_char c (scanstring r)
  end.

Fixpoint span_digits (s : pystr) : pystr * pystr :=
  match s with
  | c :: r => if is_digit c then let '(d, r') := span_digits r in (c :: d, r')
              else ([], s)
  | [] => ([], [])
  end.

(** The number grammar of the scanner: an optional minus sign; a zero, or a
    nonzero digit and more digits; optionally a point and one or more digits;
    optionally e or E, an optional sign and one or more digits.  Returns the
    longest literal at the head of [s] and what follows it. *)
Definition match_int (s : pystr) : option (pystr * pystr) :=
  match s with
  | c :: r =>
    if c =? 48 then Some ([c], r)
    else if is_digit c then let '(d, r') := span_digits r in Some (c :: d, r')
    else None
  | [] => None
  end.

Definition match_frac (s : pystr) : pystr * pystr :=
  match s with
  | c :: r =>
    if c =? 46 then
      match span_digits r with
      | ([], _) => ([], s)
      | (d, r') => (c :: d, r')
      end
    else ([], s)
  | [] => ([], [])
  end.

Definition match_exp (s : pystr) : pystr * pystr :=
  match s with
  | c :: r =>
    if (c =? 101) || (c =? 69) then
      match r with
      | sg :: r1 =>
        if (sg =? 43) || (sg =? 45) then
          match span_digits r1 with
          | ([], _) => ([], s)
          | (d, r') => (c :: sg :: d, r')
          end
        else
          match span_digits r with
          | ([], _) => ([], s)
          | (d, r') => (c :: d, r')
          end
      | [] => ([], s)
      end
    else ([], s)
  | [] => ([], [])
  end.

Definition match_number (s : pystr) : option (pystr * pystr) :=
  let '(sign, s1) :=
    match s with
    | c :: r => if c =? 45 then ([c], r) else ([], s)
    | [] => ([], s)
    end in
  match match_int s1 with
  | None => None
  | Some (i, s2) =>
    let '(f, s3) := match_frac s2 in
    let '(e, s4) := match_exp s3 in
    Some (sign ++ i ++ f ++ e, s4)
  end.

(** A keyword at the head of the input. *)
Definition keyword (k : string) (v : json) (s : pystr) : option (json * pystr) :=
  if starts_with (py k) s then Some (v, drop (length (py k)) s) else None.

Definition scan_number (s : pystr) : option (json * pystr) :=
  match match_number s with
  | Some (lit, r) => Some (JNum lit, r)
  | None => None
  end.

(** [scan_once], [JSONObject] and [JSONArray].  The fuel bounds the number of
    nested calls. *)
Fixpoint scan_once (fuel : nat) (s : pystr) : option (json * pystr) :=
  match fuel with
  | O => None
  | S fuel =>
    match s with
    | [] => None
    | c :: r =>
      if c =? 34 then
        match scanstring r with
        | Some (str, r') => Some (JStr str, r')
        | None => None
        end
      else if c =? 123 then
        match skip_ws r with
        | c1 :: r1 =>
          if c1 =? 125 then Some (JObj [], r1)
          else parse_members fuel [] (c1 :: r1)
        | [] => None
        end
      else if c =? 91 then
        match skip_ws r with
        | c1 :: r1 =>
          if c1 =? 93 then Some (JArr [], r1)
          else parse_items fuel [] (c1 :: r1)
        | [] => None
        end
      else if c =? 110 then keyword "null" JNull s
      else if c =? 116 then keyword "true" (JBool true) s
      else if c =? 102 then keyword "false" (JBool false) s
      else if c =? 78 then keyword "NaN" (JNum (py "NaN")) s
      else if c =? 73 then keyword "Infinity" (JNum (py "Infinity")) s
      else if (c =? 45) && starts_with (py "-Infinity") s
        then keyword "-Infinity" (JNum (py "-Infinity")) s
      else scan_number s
    end
  end
with parse_members (fuel : nat) (acc : list (pystr * json)) (s : pystr)
    : option (json * pystr) :=
  match fuel with
  | O => None
  | S fuel =>
    match s with
    | c :: r =>
      if c =? 34 then
        match scanstring r with
        | Some (key, r1) =>
          match skip_ws r1 with
          | c2 :: r2 =>
            if c2 =? 58 then
              match scan_once fuel (skip_ws r2) with
              | Some (v, r3) =>
                match skip_ws r3 with
                | c4 :: r4 =>
                  if c4 =? 125 then Some (JObj (acc ++ [(key, v)]), r4)
                  else if c4 =? 44
                    then parse_members fuel (acc ++ [(key, v)]) (skip_ws r4)
                  else None
                | [] => None
                end
              | None => None
              end
            else None
          | [] => None
          end
        | None => None
        end
      else None
    | [] => None
    end
  end
with parse_items (fuel : nat) (acc : list json) (s : pystr)
    : option (json * pystr) :=
  match fuel with
  | O => None
  | S fuel =>
    match scan_once fuel s with
    | Some (v, r1) =>
      match skip_ws r1 with
      | c2 :: r2 =>
        if c2 =? 93 then Some (JArr (acc ++ [v]), r2)
        else if c2 =? 44 then parse_items fuel (acc ++ [v]) (skip_ws r2)
        else None
      | [] => None
      end
    | None => None
    end
  end.

(** [json.loads] on a [str]: [None] is [JSONDecodeError].  The fuel is twice
    the length of the input and two more, beyond which more fuel changes
    nothing (the recursion limit of the interpreter is not modelled). *)
Definition loads_with (fuel : nat) (s : pystr) : option json :=
  if starts_with [65279] s then None
  else
    match scan_once fuel (skip_ws s) with
    | Some (v, r) =>
      match skip_ws r with
      | [] => Some v
      | _ :: _ => None
      end
    | None => None
    end.

Definition loads (s : pystr) : option json :=
  loads_with (2 * length s + 2) s.

(** [encode_basestring] and [encode_basestring_ascii]: a [str] as a JSON
    string literal.  Both escape the quote, the backslash and the control
    characters; the second, used when [ensure_ascii] is set, also escapes
    every character that is not printable ASCII, those above U+FFFF as a
    surrogate pair. *)
Definition hexdigit (n : N) : N := if n <? 10 then 48 + n else 87 + n.

Definition hex4_digits (n : N) : pystr :=
  [hexdigit (n / 4096 mod 16); hexdigit (n / 256 mod 16);
   hexdigit (n / 16 mod 16); hexdigit (n mod 16)].

Definition printable (c : N) : bool := (32 <=? c) && (c <=? 126).

Definition escape (c : N) : pystr :=
  if c =? 34 then [92; 34]
  else if c =? 92 then [92; 92]
  else if c =? 10 then [92; 110]
  else if c =? 13 then [92; 114]
  else if c =? 9 then [92; 116]
  else if c =? 8 then [92; 98]
  else if c =? 12 then [92; 102]
  else if c <? 32 then [92; 117; 48; 48; hexdigit (c / 16); hexdigit (c mod 16)]
  else [c].

Definition escape_ascii (c : N) : pystr :=
  if c =? 34 then [92; 34]
  else if c =? 92 then [92; 92]
  else if c =? 10 then [92; 110]
  else if c =? 13 then [92; 114]
  else if c =? 9 then [92; 116]
  else if c =? 8 then [92; 98]
  else if c =? 12 then [92; 102]
  else if printable c then [c]
  else if c <? 65536 then [92; 117] ++ hex4_digits c
  else
    [92; 117]
    ++ hex4_digits (N.lor 55296 (N.land (N.shiftr (c - 65536) 10) 1023))
    ++ [92; 117]
    ++ hex4_digits (N.lor 56320 (N.land (c - 65536) 1023)).

Definition encode_basestring (s : pystr) : pystr :=
  dquote ++ concat (map escape s) ++ dquote.

Definition encode_basestring_ascii (s : pystr) : pystr :=
  dquote ++ concat (map escape_ascii s) ++ dquote.

(** [json.dumps({key: value}, ensure_ascii=...)] for a [str] value, with the
    default separators. *)
Definition dumps_singleton (ensure_ascii : bool) (key value : pystr) : pystr :=
  let encoder :=
    if ensure_ascii then encode_basestring_ascii else encode_basestring in
  py "{" ++ encoder key ++ py ": " ++ encoder value ++ py "}".

End Json.

(** ** The [base64] module *)

Module Base64.

Definition alphabet : pystr :=
  py "ABCDEFGHIJKLMNOPQRSTUVWXYZabcdefghijklmnopqrstuvwxyz0123456789+/".

(** [table_b2a_base64] and [table_a2b_base64] of [binascii]. *)
Definition b2a (i : N) : N := nth (N.to_nat i) alphabet 0.

Definition a2b (c : N) : option N :=
  if (65 <=? c) && (c <=? 90) then Some (c - 65)
  else if (97 <=? c) && (c <=? 122) then Some (c - 71)
  else if (48 <=? c) && (c <=? 57) then Some (c + 4)
  else if c =? 43 then Some 62
  else if c =? 47 then Some 63
  else None.

Definition pad : N := 61.

(** The four sextets of a group of three bytes, and the last sextet of a
    group cut after one or two bytes. *)
Definition sx0 (x : N) : N := N.shiftr x 2.
Definition sx1 (x y : N) : N := N.lor (N.shiftl (N.land x 3) 4) (N.shiftr y 4).
Definition sx2 (y z : N) : N := N.lor (N.shiftl (N.land y 15) 2) (N.shiftr z 6).
Definition sx3 (z : N) : N := N.land z 63.
Definition tl1 (x : N) : N := N.shiftl (N.land x 3) 4.
Definition tl2 (y : N) : N := N.shiftl (N.land y 15) 2.

(** [base64.b64encode(data).decode("utf-8")]: three bytes give four
    characters, a shorter tail is padded. *)
Fixpoint b64encode (data : bytes) : pystr :=
  match data with
  | [] => []
  | a :: [] =>
    [b2a (sx0 (Byte.to_N a)); b2a (tl1 (Byte.to_N a)); pad; pad]
  | a :: b :: [] =>
    [b2a (sx0 (Byte.to_N a)); b2a (sx1 (Byte.to_N a) (Byte.to_N b));
     b2a (tl2 (Byte.to_N b)); pad]
  | a :: b :: c :: rest =>
    b2a (sx0 (Byte.to_N a))
    :: b2a (sx1 (Byte.to_N a) (Byte.to_N b))
    :: b2a (sx2 (Byte.to_N b) (Byte.to_N c))
    :: b2a (sx3 (Byte.to_N c))
    :: b64encode rest
  end.

Definition emit (n : N) (r : option bytes) : option bytes :=
  match r with
  | Some out => Some (byte_of_N n :: out)
  | None => None
  end.

(** The loop of [binascii.a2b_base64] in strict mode.  [quad_pos] counts the
    characters of the current group, [leftchar] holds the bits not yet
    written, [pads] the padding characters seen since the last data
    character.  [None] is [binascii.Error]. *)
Fixpoint a2b_loop (s : pystr) (quad_pos leftchar pads : N) (padding_started : bool)
    : option bytes :=
  match s with
  | [] => if quad_pos =? 0 then Some [] else None
  | ch :: rest =>
    if ch =? pad then
      if (2 <=? quad_pos) && (4 <=? quad_pos + (pads + 1)) then
        match rest with
        | [] => Some []
        | _ :: _ => None
        end
      else a2b_loop rest quad_pos leftchar
             (if 2 <=? quad_pos then pads + 1 else pads) true
    else
      match a2b ch with
      | None => None
      | Some v =>
        if padding_started then None
        else if quad_pos =? 0 then a2b_loop rest 1 v 0 false
        else if quad_pos =? 1 then
          emit (N.lor (N.shiftl leftchar 2) (N.shiftr v 4))
               (a2b_loop rest 2 (N.land v 15) 0 false)
        else if quad_pos =? 2 then
          emit (N.lor (N.shiftl leftchar 4) (N.shiftr v 2))
               (a2b_loop rest 3 (N.land v 3) 0 false)
        else
          emit (N.lor (N.shiftl leftchar 6) v)
               (a2b_loop rest 0 0 0 false)
      end
  end.

Definition a2b_base64_strict (s : pystr) : option bytes :=
  match s with
  | ch :: _ => if ch =? pad then None else a2b_loop s 0 0 0 false
  | [] => a2b_loop s 0 0 0 false
  end.

(** [base64.b64decode(s, validate=True)] on a [str]: the string is encoded
    to ASCII first (a code point above 127 raises [ValueError]), then decoded
    strictly.  [None] stands for either exception. *)
Definition b64decode (s : pystr) : option bytes :=
  if forallb (fun c => c <? 128) s then a2b_base64_strict s else None.

(** What the decoder's shifts and masks must give back, for one byte and
    for two bytes in a row; checked below for every byte. *)
Definition byte_check (x : N) : bool :=
  (sx0 x <? 64) && (sx3 x <? 64) && (tl1 x <? 64) && (tl2 x <? 64)
  && (N.lor (N.shiftl (sx0 x) 2) (N.shiftr (tl1 x) 4) mod 256 =? x)
  && (N.lor (N.shiftl (N.shiftr x 4) 4) (N.shiftr (tl2 x) 2) mod 256 =? x)
  && (N.lor (N.shiftl (N.shiftr x 6) 6) (sx3 x) mod 256 =? x).

Definition pair_check (x y : N) : bool :=
  (sx1 x y <? 64) && (sx2 x y <? 64)
  && (N.lor (N.shiftl (sx0 x) 2) (N.shiftr (sx1 x y) 4) mod 256 =? x)
  && (N.land (sx1 x y) 15 =? N.shiftr y 4)
  && (N.lor (N.shiftl (N.shiftr x 4) 4) (N.shiftr (sx2 x y) 2) mod 256 =? x)
  && (N.land (sx2 x y) 3 =? N.shiftr y 6).

End Base64.

(** ** The audio decoder

    [soundfile.read(io.BytesIO(b), dtype="float32", always_2d=True)] returns
    an array of shape (frames, channels) and the sample rate, or raises.
    A float32 sample is written as the rational it denotes. *)

Definition float32 := Q.

Record sf_audio : Type := {
  channels : nat;                    (* audio.shape[1] *)
  frames : list (list float32)       (* one row of [channels] samples per frame *)
}.

(** libsndfile itself is not modelled: the handler takes the decoder as a
    parameter, [None] standing for any exception of [sf.read]. *)
Definition decoder := bytes -> option (sf_audio * Z).

Module Wav.

(** A decoder for the canonical PCM16 WAV layout (a 44-byte RIFF header and
    the little-endian samples), one of the containers libsndfile reads.  It is
    the decoder the handler is evaluated with. *)

(** A little-endian field. *)
Definition le (field : bytes) : Z :=
  foldr (fun x acc => (Z.of_N (Byte.to_N x) + 256 * acc)%Z) 0%Z field.

Definition slice (off len : nat) (b : bytes) : bytes := take len (drop off b).

Definition signed16 (u : Z) : Z := if (u <? 32768)%Z then u else (u - 65536)%Z.

Fixpoint samples16 (data : bytes) : list float32 :=
  match data with
  | a :: b :: rest => Qmake (signed16 (le [a; b])) 32768 :: samples16 rest
  | _ => []
  end.

Fixpoint chunks {A} (fuel k : nat) (l : list A) : list (list A) :=
  match fuel with
  | O => []
  | S fuel =>
    if (length l <? k)%nat then [] else take k l :: chunks fuel k (drop k l)
  end.

Definition riff : bytes := [x52; x49; x46; x46].
Definition wave_fmt : bytes := [x57; x41; x56; x45; x66; x6d; x74; x20].
Definition data_tag : bytes := [x64; x61; x74; x61].

(** Offsets: 0 RIFF, 8 WAVEfmt_, 16 size of the fmt chunk (16), 20 format
    tag (1 = PCM), 22 channels, 24 sample rate, 34 bits per sample (16),
    36 data, 40 size of the data, 44 the samples. *)
Definition read_pcm16 (b : bytes) : option (sf_audio * Z) :=
  let nch := Z.to_nat (le (slice 22 2 b)) in
  let size := Z.to_nat (le (slice 40 4 b)) in
  let payload := drop 44 b in
  if bytes_eqb (slice 0 4 b) riff
     && bytes_eqb (slice 8 8 b) wave_fmt
     && bytes_eqb (slice 36 4 b) data_tag
     && (le (slice 16 4 b) =? 16)%Z
     && (le (slice 20 2 b) =? 1)%Z
     && (le (slice 34 2 b) =? 16)%Z
     && (0 <? nch)%nat
     && (size <=? length payload)%nat
  then
    let samples := samples16 (take size payload) in
    Some ({| channels := nch;
             frames := chunks (length samples) nch samples |},
          le (slice 24 4 b))
  else None.

End Wav.

(** ** [src/model/inference.py] *)

Module Inference.

Import Json Base64.

Definition SR_REQUIRED : Z := 16000.
Definition application_json : pystr := py "application/json".
Definition audio_b64 : pystr := py "audio_b64".

(** The [raise ValueError(...)] statements of [input_fn], one constructor per
    statement, in the order of the source. *)
Inductive value_error : Type :=
  | UnsupportedContentType       (* Unsupported content type. Only 'application/json' is accepted. *)
  | InvalidJSON                  (* Invalid JSON: ... *)
  | MissingField                 (* Missing required field 'audio_b64' in JSON payload. *)
  | InvalidField                 (* 'audio_b64' must be a non-empty base64 string. *)
  | InvalidBase64                (* Invalid base64 in 'audio_b64': ... *)
  | UndecodableWav               (* Failed to decode WAV: ... *)
  | SampleRateMismatch (sr : Z)  (* Expected sample rate 16000 Hz, but received sr Hz. *)
  | NotMono                      (* Expected mono WAV (1 channel). *)
  | EmptyAudio.                  (* Decoded audio is empty. *)

(** What the interpreter raises on its own on an operand of the wrong type. *)
Inductive type_error : Type :=
  | NotIterable        (* argument of type ... is not iterable *)
  | BadIndex           (* ... indices must be integers *)
  | NotSubscriptable.  (* ... object is not subscriptable *)

Inductive exn : Type :=
  | ValueError (e : value_error)
  | TypeError (e : type_error)
  | KeyError.

(** The library calls of [input_fn], recorded in the order they are made. *)
Inductive call : Type :=
  | Call_json_loads
  | Call_b64decode
  | Call_sf_read.

(** A computation: the calls made so far and how it ended. *)
Definition M (A : Type) : Type := list call * outcome exn A.

Definition raise {A} (e : exn) : M A := ([], Raise e).

#[global] Instance M_ret : MRet M := fun A (a : A) => ([], Ret a).
#[global] Instance M_bind : MBind M := fun A B (k : A -> M B) (m : M A) =>
  match m with
  | (t, Ret a) => let '(t', r) := k a in (t ++ t', r)
  | (t, Raise e) => (t, Raise e)
  end.

(** [try: x = f(...) except ...: raise ValueError(...)]: the call is
    recorded, and a failure of the library becomes the handler's error. *)
Definition try_call {A} (c : call) (r : option A) (e : value_error) : M A :=
  match r with
  | Some a => ([c], Ret a)
  | None => ([c], Raise (ValueError e))
  end.

Definition lift {A} (r : outcome exn A) : M A := ([], r).

(** [k in v] and [v[k]] for a [str] key [k], on the values [json.loads]
    returns. *)
Definition py_in (k : pystr) (v : json) : outcome exn bool :=
  match v with
  | JObj pairs => Ret (bool_decide (is_Some (dict_get k pairs)))
  | JArr items =>
    Ret (existsb (fun x => match x with JStr s => str_eqb s k | _ => false end) items)
  | JStr s => Ret (str_contains k s)
  | JNull | JBool _ | JNum _ => Raise (TypeError NotIterable)
  end.

Definition py_getitem (v : json) (k : pystr) : outcome exn json :=
  match v with
  | JObj pairs =>
    match dict_get k pairs with
    | Some x => Ret x
    | None => Raise KeyError
    end
  | JArr _ | JStr _ => Raise (TypeError BadIndex)
  | JNull | JBool _ | JNum _ => Raise (TypeError NotSubscriptable)
  end.

(** [audio[:, 0]] *)
Definition column0 (a : sf_audio) : list float32 := omap head (frames a).

Section Handler.

Variable sf_read : decoder.

Definition input_fn (request_body content_type : pystr) : M (list float32) :=
  if negb (str_eqb content_type application_json)
  then raise (ValueError UnsupportedContentType)
  else
    payload ← try_call Call_json_loads (loads request_body) InvalidJSON;
    present ← lift (py_in audio_b64 payload);
    if negb present then raise (ValueError MissingField)
    else
      b64 ← lift (py_getitem payload audio_b64);
      match b64 with
      | JStr ((_ :: _) as s) =>
        wav_bytes ← try_call Call_b64decode (b64decode s) InvalidBase64;
        '(audio, sr) ← try_call Call_sf_read (sf_read wav_bytes) UndecodableWav;
        if negb (sr =? SR_REQUIRED)%Z
        then raise (ValueError (SampleRateMismatch sr))
        else if negb (channels audio =? 1)%nat
        then raise (ValueError NotMono)
        else
          let audio := column0 audio in
          if (length audio =? 0)%nat
          then raise (ValueError EmptyAudio)
          else mret audio
      | _ => raise (ValueError InvalidField)
      end.

(** The Request Decoder as the specification words it (section 4.4): the
    body must parse as a structured object, the object must hold a string
    under [audio_b64] (empty counts as the wrong type), the string must be
    strict base64, the bytes an audio container, at 16000 Hz, with one
    channel, and with samples.  The kinds of error are named as the raise
    statements of [input_fn] are: UnsupportedContentType, MalformedPayload
    ([InvalidJSON]), MissingField, InvalidFieldType ([InvalidField]),
    InvalidEncoding ([InvalidBase64]), UndecodableAudio ([UndecodableWav]),
    SampleRateMismatch, ChannelCountMismatch ([NotMono]), EmptyAudio. *)
Definition decode_spec (request_body content_type : pystr)
    : outcome value_error (list float32) :=
  if negb (str_eqb content_type application_json)
  then Raise UnsupportedContentType
  else
    match loads request_body with
    | Some (JObj pairs) =>
      match dict_get audio_b64 pairs with
      | None => Raise MissingField
      | Some (JStr ((_ :: _) as s)) =>
        match b64decode s with
        | None => Raise InvalidBase64
        | Some wav_bytes =>
          match sf_read wav_bytes with
          | None => Raise UndecodableWav
          | Some (audio, sr) =>
            if negb (sr =? SR_REQUIRED)%Z then Raise (SampleRateMismatch sr)
            else if negb (channels audio =? 1)%nat then Raise NotMono
            else
              match column0 audio with
              | [] => Raise EmptyAudio
              | samples => Ret samples
              end
          end
        end
      | Some _ => Raise InvalidField
      end
    | _ => Raise InvalidJSON
    end.

End Handler.

(** [logger.warning(...)] *)
Inductive log_record : Type :=
  | Warning (msg : pystr).

Definition accept_warning : log_record :=
  Warning (py "Non-standard 'accept' requested; returning application/json anyway.").

(** [output_fn]: the records logged, and the returned pair. *)
Definition output_fn (pred accept : pystr) : list log_record * (pystr * pystr) :=
  let log :=
    if negb (str_eqb accept application_json) then [accept_warning] else [] in
  let body := dumps_singleton false (py "text") pred in
  (log, (body, application_json)).

End Inference.

(** ** [src/test.py]: the client *)

Module Client.

Import Json Base64.

(** [b64_encode_file], on the bytes of the file. *)
Definition b64_encode_file (content : bytes) : pystr := b64encode content.

(** The request body of [invoke_parakeet]:
    [json.dumps({"audio_b64": b64_encode_file(wav_path)})], with the default
    [ensure_ascii=True]. *)
Definition request_body (wav : bytes) : pystr :=
  dumps_singleton true (py "audio_b64") (b64_encode_file wav).

End Client.

(** ** The file system and [os] *)

Module Fs.

(** What [os.lstat] reports besides the type and the size; the names are
    those [pwd] and [grp] give for the ids. *)
Record stat : Type := {
  st_perm : Z;
  st_uid : Z;
  st_gid : Z;
  st_uname : pystr;
  st_gname : pystr;
  st_mtime : Z
}.

(** Regular files and directories.  [readable] tells whether the process may
    open the file for reading. *)
Inductive node : Type :=
  | File (st : stat) (readable : bool) (data : bytes)
  | Dir (st : stat) (st_size : Z).

(** The process: its user, group and umask. *)
Record host : Type := {
  h_uid : Z;
  h_gid : Z;
  h_uname : pystr;
  h_gname : pystr;
  h_umask : Z
}.

(** What [prepare_nemo_artifact] does besides touching files. *)
Inductive event : Type :=
  | Log_exists            (* Model artifact exists: ..., skipping packaging *)
  | Log_downloading       (* Downloading NeMo model ... *)
  | Log_saved             (* Saved NeMo model checkpoint: ... *)
  | Log_packaging         (* Packaging ... *)
  | Log_ready             (* Packaged model artifact ready: ... *)
  | Ev_makedirs (p : pystr)
  | Ev_fetch (model_name path : pystr)
  | Ev_pack (src out : pystr)
  | Ev_validate (p : pystr).

(** The machine: the files by (normalised) path, the clock in seconds since
    the epoch, the process, and the journal of events. *)
Record world : Type := {
  files : gmap pystr node;
  now : Z;
  who : host;
  journal : list event
}.

Definition with_files (w : world) (f : gmap pystr node) : world :=
  {| files := f; now := now w; who := who w; journal := journal w |}.

Definition record (e : event) (w : world) : world :=
  {| files := files w; now := now w; who := who w; journal := journal w ++ [e] |}.

Inductive os_error : Type :=
  | ENOENT    (* FileNotFoundError *)
  | EISDIR    (* IsADirectoryError *)
  | ENOTDIR   (* NotADirectoryError *)
  | EEXIST    (* FileExistsError *)
  | EACCES.   (* PermissionError *)

Definition slash : N := 47.

Definition all_slashes (p : pystr) : bool := forallb (fun c => c =? slash) p.

Fixpoint rstrip_slash_rev (r : pystr) : pystr :=
  match r with
  | c :: r' => if c =? slash then rstrip_slash_rev r' else r
  | [] => []
  end.

Definition rstrip_slash (p : pystr) : pystr := rev (rstrip_slash_rev (rev p)).

Fixpoint split_rev (r : pystr) : pystr * pystr :=
  match r with
  | c :: r' =>
    if c =? slash then (r, [])
    else let '(h, t) := split_rev r' in (h, c :: t)
  | [] => ([], [])
  end.

(** [os.path.split]: the part up to the last slash, and the part after it. *)
Definition path_split (p : pystr) : pystr * pystr :=
  let '(h, t) := split_rev (rev p) in
  let head := rev h in
  let tail := rev t in
  (if negb (all_slashes head) then rstrip_slash head else head, tail).

Definition dirname (p : pystr) : pystr := fst (path_split p).
Definition basename (p : pystr) : pystr := snd (path_split p).

Definition root_stat : stat :=
  {| st_perm := 493; st_uid := 0; st_gid := 0; st_uname := py "root";
     st_gname := py "root"; st_mtime := 0 |}.

(** The node a path names: the empty path names nothing, a path of slashes
    names the root. *)
Definition node_at (w : world) (p : pystr) : option node :=
  match p with
  | [] => None
  | _ :: _ => if all_slashes p then Some (Dir root_stat 4096) else files w !! p
  end.

Definition os_path_exists (w : world) (p : pystr) : bool :=
  bool_decide (is_Some (node_at w p)).

Definition os_path_isdir (w : world) (p : pystr) : bool :=
  match node_at w p with
  | Some (Dir _ _) => true
  | _ => false
  end.

Definition os_path_getsize (w : world) (p : pystr) : outcome os_error Z :=
  match node_at w p with
  | Some (File _ _ data) => Ret (Z.of_nat (length data))
  | Some (Dir _ size) => Ret size
  | None => Raise ENOENT
  end.

Definition new_stat (w : world) (perm : Z) : stat :=
  {| st_perm := Z.land perm (Z.lnot (h_umask (who w)));
     st_uid := h_uid (who w); st_gid := h_gid (who w);
     st_uname := h_uname (who w); st_gname := h_gname (who w);
     st_mtime := now w |}.

(** Whether an entry may be created at [p]: the directory it goes in is the
    working directory, the root, or a directory of [w]. *)
Definition parent_check (w : world) (p : pystr) : outcome os_error unit :=
  let d := dirname p in
  match d with
  | [] => Ret ()
  | _ :: _ =>
    match node_at w d with
    | Some (Dir _ _) => Ret ()
    | Some (File _ _ _) => Raise ENOTDIR
    | None => Raise ENOENT
    end
  end.

Definition os_mkdir (w : world) (p : pystr) : world * outcome os_error unit :=
  match p with
  | [] => (w, Raise ENOENT)
  | _ :: _ =>
    match node_at w p with
    | Some _ => (w, Raise EEXIST)
    | None =>
      match parent_check w p with
      | Raise e => (w, Raise e)
      | Ret _ =>
        (with_files w (<[p := Dir (new_stat w 511) 4096]> (files w)), Ret ())
      end
    end
  end.

(** [os.makedirs(name, exist_ok=True)]: the missing ancestors first (a
    [FileExistsError] from there is passed over), then the directory itself,
    where an error is passed over when the directory is there. *)
Definition mkdir_exist_ok (w : world) (name : pystr)
    : world * outcome os_error unit :=
  match os_mkdir w name with
  | (w', Ret _) => (w', Ret ())
  | (w', Raise e) =>
    if os_path_isdir w' name then (w', Ret ()) else (w', Raise e)
  end.

Fixpoint os_makedirs (fuel : nat) (w : world) (name : pystr)
    : world * outcome os_error unit :=
  let '(head, tail) := path_split name in
  match fuel, head, tail with
  | S fuel, _ :: _, _ :: _ =>
    if negb (os_path_exists w head) then
      match os_makedirs fuel w head with
      | (w1, Raise EEXIST) | (w1, Ret _) =>
        if str_eqb tail (py ".") then (w1, Ret ()) else mkdir_exist_ok w1 name
      | (w1, Raise e) => (w1, Raise e)
      end
    else mkdir_exist_ok w name
  | _, _, _ => mkdir_exist_ok w name
  end.

(** [open(p, "rb").read()] *)
Definition read_file (w : world) (p : pystr) : outcome os_error bytes :=
  match node_at w p with
  | None => Raise ENOENT
  | Some (Dir _ _) => Raise EISDIR
  | Some (File _ false _) => Raise EACCES
  | Some (File _ true data) => Ret data
  end.

(** [open(p, "wb")]: the file is created, or emptied. *)
Definition open_wb (w : world) (p : pystr) : world * outcome os_error unit :=
  match p with
  | [] => (w, Raise ENOENT)
  | _ :: _ =>
    match node_at w p with
    | Some (Dir _ _) => (w, Raise EISDIR)
    | Some (File st r _) =>
      (with_files w (<[p := File st r []]> (files w)), Ret ())
    | None =>
      match parent_check w p with
      | Raise e => (w, Raise e)
      | Ret _ =>
        (with_files w (<[p := File (new_stat w 438) true []]> (files w)), Ret ())
      end
    end
  end.

(** The data written to an open file by the time it is closed. *)
Definition write_data (w : world) (p : pystr) (data : bytes) : world :=
  match files w !! p with
  | Some (File st r _) => with_files w (<[p := File st r data]> (files w))
  | _ => w
  end.

End Fs.

(** ** Exceptions of the packaging side *)

Inductive runtime_error : Type :=
  | FailedDownload       (* Failed to download/save model ... *)
  | FailedTar            (* Failed to create tar ... *)
  | VerificationFailed.  (* Verification failed: ... is not a valid model archive *)

Inductive exn : Type :=
  | OSError (e : Fs.os_error)
  | BadGzipFile               (* gzip.BadGzipFile, an OSError *)
  | EOFError
  | ZlibError                 (* zlib.error *)
  | ReadError                 (* tarfile.ReadError, a TarError *)
  | KeyError
  | ImportError
  | RuntimeError (why : runtime_error)
  | MissingCheckpoint.        (* FileNotFoundError: Missing or empty .nemo file at ... *)

Definition is_OSError (e : exn) : bool :=
  match e with
  | OSError _ | BadGzipFile => true
  | _ => false
  end.

(** How the decoding of a raw deflate stream ends: at its last block (with
    the input that follows it), for want of input, or on bad data. *)
Inductive inflate_end : Type :=
  | Finished (rest : bytes)
  | NeedsInput
  | BadData.

(** A stream read through a decompressor: the bytes that can be read, and
    what a read past them meets. *)
Inductive stream_end : Type :=
  | CleanEOF
  | Fails (e : exn).

Record stream : Type := {
  s_data : bytes;
  s_end : stream_end
}.

Module Tarinfo.

(** [tarfile.TarInfo], the attributes a ustar header carries. *)
Record TarInfo : Type := {
  name : pystr;
  mode : Z;
  uid : Z;
  gid : Z;
  size : Z;
  mtime : Z;
  type : byte;
  linkname : pystr;
  uname : pystr;
  gname : pystr
}.

Definition REGTYPE : byte := x30.
Definition AREGTYPE : byte := x00.
Definition LNKTYPE : byte := x31.
Definition SYMTYPE : byte := x32.
Definition CHRTYPE : byte := x33.
Definition BLKTYPE : byte := x34.
Definition DIRTYPE : byte := x35.
Definition FIFOTYPE : byte := x36.
Definition CONTTYPE : byte := x37.
Definition GNUTYPE_LONGNAME : byte := x4c.
Definition GNUTYPE_LONGLINK : byte := x4b.
Definition GNUTYPE_SPARSE : byte := x53.
Definition XHDTYPE : byte := x78.
Definition XGLTYPE : byte := x67.
Definition SOLARIS_XHDTYPE : byte := x58.

Definition type_in (t : byte) (l : list byte) : bool := existsb (Byte.eqb t) l.

Definition REGULAR_TYPES : list byte := [REGTYPE; AREGTYPE; CONTTYPE; GNUTYPE_SPARSE].
Definition SUPPORTED_TYPES : list byte :=
  [REGTYPE; AREGTYPE; LNKTYPE; SYMTYPE; DIRTYPE; FIFOTYPE; CONTTYPE; CHRTYPE;
   BLKTYPE; GNUTYPE_LONGNAME; GNUTYPE_LONGLINK; GNUTYPE_SPARSE].
(** The members [_proc_member] does not read as they stand. *)
Definition EXTENSION_TYPES : list byte :=
  [GNUTYPE_LONGNAME; GNUTYPE_LONGLINK; GNUTYPE_SPARSE; XHDTYPE; XGLTYPE;
   SOLARIS_XHDTYPE].

Definition isreg (t : TarInfo) : bool := type_in (type t) REGULAR_TYPES.
Definition isfile (t : TarInfo) : bool := isreg t.
Definition isdir (t : TarInfo) : bool := Byte.eqb (type t) DIRTYPE.

End Tarinfo.

Import Tarinfo.

(** ** The library code taken as given

    - [deflate] and [inflate]: zlib's coder at level 9 and its decoder, on raw
      deflate streams; [inflate] gives the bytes decoded before the end it
      meets.
    - [bz2_tar] and [xz_tar]: whether [TarFile.bz2open] and [TarFile.xzopen]
      accept the content of a file.
    - [proc_extension]: [TarInfo._proc_member] on a pax, GNU long-name or
      sparse member read at an offset: the member it stands for and the offset
      of the next header, or an exception.
    - [add_children]: what [TarFile.add] writes for the entries below a
      directory, given the filter, the directory and its name in the archive.
    - [nemo_importable]: whether [import nemo.collections.asr] succeeds.
    - [fetch]: [from_pretrained(model_name)] and [save_to(path)] on a machine;
      [false] when either raises. *)
Class Library : Type := {
  deflate : bytes -> bytes;
  inflate : bytes -> bytes * inflate_end;
  bz2_tar : bytes -> bool;
  xz_tar : bytes -> bool;
  proc_extension : stream -> nat -> TarInfo -> outcome exn (TarInfo * nat);
  add_children :
    (TarInfo -> TarInfo) -> Fs.world -> pystr -> pystr -> outcome exn bytes;
  nemo_importable : bool;
  fetch : pystr -> pystr -> Fs.world -> Fs.world * bool
}.

(** ** The [gzip] module *)

Module Gzip.

Fixpoint crc_bits (n : nat) (c : N) : N :=
  match n with
  | O => c
  | S n =>
    crc_bits n (if N.odd c then N.lxor (N.shiftr c 1) 3988292384 else N.shiftr c 1)
  end.

Definition crc_update (crc : N) (b : byte) : N :=
  crc_bits 8 (N.lxor crc (Byte.to_N b)).

(** [zlib.crc32] *)
Definition crc32 (data : bytes) : N :=
  N.lxor (fold_left crc_update data 4294967295) 4294967295.

(** [struct.pack("<L", n)] *)
Definition le32 (n : N) : bytes :=
  [byte_of_N n; byte_of_N (N.shiftr n 8); byte_of_N (N.shiftr n 16);
   byte_of_N (N.shiftr n 24)].

Definition of_le (field : bytes) : N :=
  foldr (fun x acc => Byte.to_N x + 256 * acc) 0 field.

Definition strip_gz (f : bytes) : bytes :=
  if bytes_eqb (drop (length f - 3) f) [x2e; x67; x7a]
  then take (length f - 3) f else f.

(** The FNAME field: the base name of the file, in Latin-1, without a
    [.gz] suffix; empty when the name is not Latin-1. *)
Definition gzip_fname (filename : pystr) : bytes :=
  match latin1_encode (Fs.basename filename) with
  | Some f => strip_gz f
  | None => []
  end.

(** [GzipFile._write_gzip_header] at compression level 9, with no [mtime]
    given: the magic number, the method, the flags, the current time, the
    extra flags, the OS byte, the file name. *)
Definition gzip_header (time : Z) (filename : pystr) : bytes :=
  let fname := gzip_fname filename in
  [x1f; x8b; x08]
  ++ [match fname with [] => x00 | _ :: _ => x08 end]
  ++ le32 (Z.to_N time)
  ++ [x02; xff]
  ++ match fname with [] => [] | _ :: _ => fname ++ [x00] end.

Section WithLibrary.

Context `{Library}.

(** The file a [GzipFile] opened for writing at [time] holds once closed,
    [payload] having been written to it. *)
Definition gzip_file (time : Z) (filename : pystr) (payload : bytes) : bytes :=
  gzip_header time filename
  ++ deflate payload
  ++ le32 (crc32 payload)
  ++ le32 (N.of_nat (length payload)).

(** Reading. *)

Fixpoint skip_cstring (b : bytes) : bytes :=
  match b with
  | [] => []
  | c :: r => if Byte.eqb c x00 then r else skip_cstring r
  end.

Fixpoint skip_zeros (b : bytes) : bytes :=
  match b with
  | [] => []
  | c :: r => if Byte.eqb c x00 then skip_zeros r else b
  end.

Inductive header_result : Type :=
  | NoHeader                 (* the input is at its end *)
  | HeaderError (e : exn)
  | Header (rest : bytes).

(** [_read_exact(fp, n)] *)
Definition read_exact (n : nat) (b : bytes) : option bytes :=
  if (n <=? length b)%nat then Some (drop n b) else None.

(** [_read_gzip_header] *)
Definition read_gzip_header (b : bytes) : header_result :=
  match b with
  | [] => NoHeader
  | [_] => HeaderError BadGzipFile
  | m1 :: m2 :: r =>
    if negb (bytes_eqb [m1; m2] [x1f; x8b]) then HeaderError BadGzipFile
    else
      match r with
      | method :: flag :: _ :: _ :: _ :: _ :: _ :: _ :: r1 =>
        if negb (Byte.eqb method x08) then HeaderError BadGzipFile
        else
          let f := Byte.to_N flag in
          let after_extra :=
            if N.testbit f 2 then
              match r1 with
              | l0 :: l1 :: r2 => read_exact (N.to_nat (of_le [l0; l1])) r2
              | _ => None
              end
            else Some r1 in
          match after_extra with
          | None => HeaderError EOFError
          | Some r2 =>
            let r3 := if N.testbit f 3 then skip_cstring r2 else r2 in
            let r4 := if N.testbit f 4 then skip_cstring r3 else r3 in
            if N.testbit f 1 then
              match read_exact 2 r4 with
              | Some r5 => Header r5
              | None => HeaderError EOFError
              end
            else Header r4
          end
      | _ => HeaderError EOFError
      end
  end.

(** What can be read from a [GzipFile]: member after member, each checked
    against its trailer once its data has been read. *)
Fixpoint gunzip_members (fuel : nat) (b : bytes) : stream :=
  match fuel with
  | O => {| s_data := []; s_end := CleanEOF |}
  | S fuel =>
    match read_gzip_header b with
    | NoHeader => {| s_data := []; s_end := CleanEOF |}
    | HeaderError e => {| s_data := []; s_end := Fails e |}
    | Header r =>
      let '(data, e) := inflate r in
      match e with
      | NeedsInput => {| s_data := data; s_end := Fails EOFError |}
      | BadData => {| s_data := data; s_end := Fails ZlibError |}
      | Finished rest =>
        match rest with
        | c0 :: c1 :: c2 :: c3 :: i0 :: i1 :: i2 :: i3 :: rest' =>
          if negb (of_le [c0; c1; c2; c3] =? crc32 data)
          then {| s_data := data; s_end := Fails BadGzipFile |}
          else if negb (of_le [i0; i1; i2; i3]
                        =? N.of_nat (length data) mod 4294967296)
          then {| s_data := data; s_end := Fails BadGzipFile |}
          else
            let s := gunzip_members fuel (skip_zeros rest') in
            {| s_data := data ++ s_data s; s_end := s_end s |}
        | _ => {| s_data := data; s_end := Fails EOFError |}
        end
      end
    end
  end.

Definition gunzip (b : bytes) : stream := gunzip_members (S (length b)) b.

End WithLibrary.

(** The stored-block subset of deflate, as zlib writes it at level 0 and as
    every inflater reads it. *)

Definition le16 (n : N) : bytes := [byte_of_N n; byte_of_N (N.shiftr n 8)].

Fixpoint deflate_stored_blocks (fuel : nat) (data : bytes) : bytes :=
  match fuel with
  | O => []
  | S fuel =>
    let len := N.of_nat (length data) in
    if len <=? 65535
    then [x01] ++ le16 len ++ le16 (65535 - len) ++ data
    else [x00; xff; xff; x00; x00]
         ++ take (N.to_nat 65535) data
         ++ deflate_stored_blocks fuel (drop (N.to_nat 65535) data)
  end.

Definition deflate_stored (data : bytes) : bytes :=
  deflate_stored_blocks (S (length data)) data.

(** A block whose type is not 0 is Huffman-coded: this decoder gives up on
    it, where zlib would go on. *)
Fixpoint inflate_stored_blocks (fuel : nat) (b : bytes) : bytes * inflate_end :=
  match fuel with
  | O => ([], BadData)
  | S fuel =>
    match b with
    | [] => ([], NeedsInput)
    | h :: r =>
      let hd := Byte.to_N h in
      if negb (N.land (N.shiftr hd 1) 3 =? 0) then ([], BadData)
      else
        match r with
        | l0 :: l1 :: n0 :: n1 :: r' =>
          let len := of_le [l0; l1] in
          if negb (len + of_le [n0; n1] =? 65535) then ([], BadData)
          else if N.of_nat (length r') <? len then (r', NeedsInput)
          else if N.odd hd
          then (take (N.to_nat len) r', Finished (drop (N.to_nat len) r'))
          else
            let '(d, e) := inflate_stored_blocks fuel (drop (N.to_nat len) r') in
            (take (N.to_nat len) r' ++ d, e)
        | _ => ([], NeedsInput)
        end
    end
  end.

Definition inflate_stored (b : bytes) : bytes * inflate_end :=
  inflate_stored_blocks (S (length b)) b.

End Gzip.

(** ** The [tarfile] module *)

Module Tarfile.

Import Fs Gzip.

Definition BLOCKSIZE : nat := 512.
Definition RECORDSIZE : nat := 20 * BLOCKSIZE.
Definition NUL : byte := x00.

(** *** Writing *)

(** [stn]: a name as a NUL-padded field.  The names this program writes are
    ASCII, the one case encoded here. *)
Definition stn (s : pystr) (len : nat) : bytes :=
  let b := map byte_of_N s in
  take len b ++ replicate (len - length b) NUL.

Fixpoint octal (width : nat) (n : N) : bytes :=
  match width with
  | O => []
  | S w => octal w (n / 8) ++ [byte_of_N (48 + n mod 8)]
  end.

(** [itn] for a number that fits the field (a regular file of 8 GiB or more
    would get a pax header instead, which is not modelled). *)
Definition itn (n : Z) (digits : nat) : bytes :=
  octal (digits - 1) (Z.to_N n) ++ [NUL].

Definition POSIX_MAGIC : bytes := [x75; x73; x74; x61; x72; x00; x30; x30].

Definition sum_bytes (b : bytes) : N :=
  fold_left (fun acc x => acc + Byte.to_N x) b 0.

(** [TarInfo.get_info] and [_create_header] for a member that is not a
    device. *)
Definition header_name (t : TarInfo) : pystr :=
  if isdir t && negb (bool_decide (last (name t) = Some slash))
  then name t ++ [slash] else name t.

Definition header_fields (t : TarInfo) (chksum : bytes) : bytes :=
  stn (header_name t) 100
  ++ itn (Z.land (mode t) 4095) 8
  ++ itn (uid t) 8
  ++ itn (gid t) 8
  ++ itn (size t) 12
  ++ itn (mtime t) 12
  ++ chksum
  ++ [type t]
  ++ stn (linkname t) 100
  ++ POSIX_MAGIC
  ++ stn (uname t) 32
  ++ stn (gname t) 32
  ++ replicate 8 NUL
  ++ replicate 8 NUL
  ++ replicate 155 NUL
  ++ replicate 12 NUL.

Definition tobuf (t : TarInfo) : bytes :=
  let blank := header_fields t (replicate 8 x20) in
  header_fields t (octal 6 (sum_bytes blank) ++ [NUL; x20]).

Definition padding (len : nat) (unit : nat) : bytes :=
  replicate ((unit - len mod unit) mod unit) NUL.

(** [TarFile.gettarinfo] on a regular file or a directory. *)
Definition gettarinfo (w : world) (src arcname : pystr) : option TarInfo :=
  match node_at w src with
  | Some (File st _ data) =>
    Some {| name := arcname; mode := 32768 + st_perm st; uid := st_uid st;
            gid := st_gid st; size := Z.of_nat (length data);
            mtime := st_mtime st; type := REGTYPE; linkname := [];
            uname := st_uname st; gname := st_gname st |}
  | Some (Dir st _) =>
    Some {| name := arcname; mode := 16384 + st_perm st; uid := st_uid st;
            gid := st_gid st; size := 0; mtime := st_mtime st;
            type := DIRTYPE; linkname := []; uname := st_uname st;
            gname := st_gname st |}
  | None => None
  end.

Section WithLibrary.

Context `{Library}.

(** [TarFile.add(src, arcname=..., filter=...)] into the archive named
    [out]: the bytes written to the archive, and how the call ended. *)
Definition add (w : world) (out src arcname : pystr)
    (filter : TarInfo -> TarInfo) : bytes * outcome exn unit :=
  if str_eqb src out then ([], Ret ())
  else
    match gettarinfo w src arcname with
    | None => ([], Raise (OSError ENOENT))
    | Some info =>
      let tarinfo := filter info in
      if isreg tarinfo then
        match read_file w src with
        | Raise e => ([], Raise (OSError e))
        | Ret data =>
          (tobuf tarinfo ++ data ++ padding (length data) BLOCKSIZE, Ret ())
        end
      else if isdir tarinfo then
        match add_children filter w src arcname with
        | Ret written => (tobuf tarinfo ++ written, Ret ())
        | Raise e => (tobuf tarinfo, Raise e)
        end
      else (tobuf tarinfo, Ret ())
    end.

(** [TarFile.close]: two empty blocks, and NULs up to a full record. *)
Definition end_of_archive (offset : nat) : bytes :=
  replicate (2 * BLOCKSIZE) NUL ++ padding (offset + 2 * BLOCKSIZE) RECORDSIZE.

(** [with tarfile.open(out, "w:gz") as tar: tar.add(src, arcname=arcname,
    filter=filter)].  The file is opened, and so created or emptied, before
    anything is added.  When [add] raises, the archive is closed as it is,
    without the end-of-archive blocks. *)
Definition write_tar_gz (w : world) (out src arcname : pystr)
    (filter : TarInfo -> TarInfo) : world * outcome exn unit :=
  match open_wb w out with
  | (w1, Raise e) => (w1, Raise (OSError e))
  | (w1, Ret _) =>
    match add w1 out src arcname filter with
    | (written, Ret _) =>
      (write_data w1 out
         (gzip_file (now w) out (written ++ end_of_archive (length written))),
       Ret ())
    | (written, Raise e) =>
      (write_data w1 out (gzip_file (now w) out written), Raise e)
    end
  end.

(** *** Reading *)

Fixpoint nts_bytes (b : bytes) : bytes :=
  match b with
  | [] => []
  | c :: r => if Byte.eqb c NUL then [] else c :: nts_bytes r
  end.

(** [nts]: the field up to its first NUL.  The bytes are decoded one by one
    (the library decodes UTF-8 with surrogate escapes); the two agree on
    whether the result is a given ASCII name. *)
Definition nts (b : bytes) : pystr := latin1_decode (nts_bytes b).

Definition is_space (c : N) : bool :=
  ((9 <=? c) && (c <=? 13)) || ((28 <=? c) && (c <=? 32)).

Fixpoint lstrip (s : pystr) : pystr :=
  match s with
  | c :: r => if is_space c then lstrip r else s
  | [] => []
  end.

Definition strip (s : pystr) : pystr := rev (lstrip (rev (lstrip s))).

(** The digits of [int(s, 8)]: octal digits, single underscores between. *)
Fixpoint int8_digits (s : pystr) (acc : N) (after_digit : bool) : option N :=
  match s with
  | [] => if after_digit then Some acc else None
  | c :: r =>
    if c =? 95 then
      match r with
      | [] => None
      | _ :: _ => if after_digit then int8_digits r acc false else None
      end
    else if (48 <=? c) && (c <=? 55) then int8_digits r (acc * 8 + (c - 48)) true
    else None
  end.

Definition int8_unsigned (s : pystr) : option N :=
  match s with
  | z :: o :: r =>
    if (z =? 48) && ((o =? 111) || (o =? 79)) then
      match r with
      | u :: r' => if u =? 95 then int8_digits r' 0 false else int8_digits r 0 false
      | [] => None
      end
    else int8_digits s 0 false
  | _ => int8_digits s 0 false
  end.

(** [int(s, 8)] on a stripped ASCII string. *)
Definition int8 (s : pystr) : option Z :=
  match s with
  | c :: r =>
    if c =? 45 then Z.opp <$> (Z.of_N <$> int8_unsigned r)
    else if c =? 43 then Z.of_N <$> int8_unsigned r
    else Z.of_N <$> int8_unsigned s
  | [] => None
  end.

(** [nti]: a number field, in base 256 or in octal; [None] is
    [InvalidHeaderError]. *)
Definition nti (s : bytes) : option Z :=
  match s with
  | [] => None
  | b0 :: r =>
    let n := fold_left (fun acc x => acc * 256 + Z.of_N (Byte.to_N x))%Z r 0%Z in
    if Byte.eqb b0 x80 then Some n
    else if Byte.eqb b0 xff then Some (n - 256 ^ Z.of_nat (length r))%Z
    else
      let t := nts_bytes s in
      if forallb (fun x => Byte.to_N x <? 128) t then
        match strip (latin1_decode t) with
        | [] => Some 0%Z
        | d => int8 d
        end
      else None
  end.

Definition field (off len : nat) (buf : bytes) : bytes := take len (drop off buf).

Definition signed_byte (x : byte) : Z :=
  let n := Z.of_N (Byte.to_N x) in if (n <? 128)%Z then n else (n - 256)%Z.

(** [calc_chksums] *)
Definition calc_chksums (buf : bytes) : Z * Z :=
  let rest := field 0 148 buf ++ field 156 356 buf in
  ((256 + Z.of_N (sum_bytes rest))%Z,
   (256 + fold_left (fun acc x => acc + signed_byte x) rest 0)%Z).

Inductive header_error : Type :=
  | EmptyHeaderError
  | TruncatedHeaderError
  | EOFHeaderError
  | InvalidHeaderError.

Definition ends_with_slash (s : pystr) : bool := bool_decide (last s = Some slash).

(** [TarInfo.frombuf] *)
Definition frombuf (buf : bytes) : header_error + TarInfo :=
  match buf with
  | [] => inl EmptyHeaderError
  | _ :: _ =>
    if negb (length buf =? BLOCKSIZE)%nat then inl TruncatedHeaderError
    else if forallb (Byte.eqb NUL) buf then inl EOFHeaderError
    else
      match nti (field 148 8 buf) with
      | None => inl InvalidHeaderError
      | Some chksum =>
        let '(u, sg) := calc_chksums buf in
        if negb ((chksum =? u)%Z || (chksum =? sg)%Z) then inl InvalidHeaderError
        else
          match nti (field 100 8 buf), nti (field 108 8 buf),
                nti (field 116 8 buf), nti (field 124 12 buf),
                nti (field 136 12 buf), nti (field 329 8 buf),
                nti (field 337 8 buf) with
          | Some md, Some u_id, Some g_id, Some sz, Some mt, Some _, Some _ =>
            let nm := nts (field 0 100 buf) in
            let ty0 := match field 156 1 buf with [t] => t | _ => NUL end in
            let ty := if Byte.eqb ty0 AREGTYPE && ends_with_slash nm
                      then DIRTYPE else ty0 in
            let nm1 := if Byte.eqb ty DIRTYPE then rstrip_slash nm else nm in
            let prefix := nts (field 345 155 buf) in
            let nm2 :=
              match prefix with
              | [] => nm1
              | _ :: _ =>
                if type_in ty [GNUTYPE_LONGNAME; GNUTYPE_LONGLINK; GNUTYPE_SPARSE]
                then nm1 else prefix ++ [slash] ++ nm1
              end in
            inr {| name := nm2; mode := md; uid := u_id; gid := g_id;
                   size := sz; mtime := mt; type := ty;
                   linkname := nts (field 157 100 buf);
                   uname := nts (field 265 32 buf);
                   gname := nts (field 297 32 buf) |}
          | _, _, _, _, _, _, _ => inl InvalidHeaderError
          end
      end
  end.

(** [fileobj.read(BLOCKSIZE)] at an offset: a read that the stream cannot
    satisfy meets its end. *)
Definition read_block (s : stream) (offset : nat) : outcome exn bytes :=
  let avail := drop offset (s_data s) in
  if (BLOCKSIZE <=? length avail)%nat then Ret (take BLOCKSIZE avail)
  else
    match s_end s with
    | CleanEOF => Ret avail
    | Fails e => Raise e
    end.

(** [_block] *)
Definition block (count : Z) : Z := ((count + 511) / 512 * 512)%Z.

(** The start of [TarFile.next]: when the file is not at [offset], the byte
    before [offset] must be there.  [false]: there is no next member. *)
Definition advance (s : stream) (offset tell : nat) : outcome exn bool :=
  if (offset =? tell)%nat then Ret true
  else if (offset =? 0)%nat then Ret false
  else if (offset - 1 <? length (s_data s))%nat then Ret true
  else
    match s_end s with
    | CleanEOF => Raise ReadError
    | Fails e => Raise e
    end.

(** [TarFile.next]: the member at [offset], the offset of the header after
    it and the position of the file; [None] at the end of the archive.  A
    member whose size is negative is not followed. *)
Definition next (s : stream) (offset tell : nat)
    : outcome exn (option (TarInfo * nat * nat)) :=
  match advance s offset tell with
  | Raise e => Raise e
  | Ret false => Ret None
  | Ret true =>
    match read_block s offset with
    | Raise ZlibError => Raise ReadError
    | Raise e => Raise e
    | Ret buf =>
      match frombuf buf with
      | inl EOFHeaderError => Ret None
      | inl _ => if (offset =? 0)%nat then Raise ReadError else Ret None
      | inr t =>
        if type_in (type t) EXTENSION_TYPES then
          match proc_extension s offset t with
          | Raise e => Raise e
          | Ret (t', nxt) =>
            if (offset <? nxt)%nat then Ret (Some (t', nxt, nxt)) else Raise ReadError
          end
        else
          let data :=
            if isreg t || negb (type_in (type t) SUPPORTED_TYPES)
            then block (size t) else 0%Z in
          if (data <? 0)%Z then Raise ReadError
          else Ret (Some (t, (offset + BLOCKSIZE + Z.to_nat data)%nat,
                          (offset + BLOCKSIZE)%nat))
      end
    end
  end.

(** An archive open for reading: its stream and its first member. *)
Record TarFile : Type := {
  fileobj : stream;
  firstmember : option (TarInfo * nat * nat)
}.

(** [TarFile.taropen] on an open file. *)
Definition taropen (s : stream) : outcome exn TarFile :=
  match next s 0 0 with
  | Raise e => Raise e
  | Ret first => Ret {| fileobj := s; firstmember := first |}
  end.

(** [TarFile.gzopen] for reading: an [OSError] while the first header is
    read becomes a [ReadError]. *)
Definition gzopen (content : bytes) : outcome exn TarFile :=
  match taropen (gunzip content) with
  | Raise e => if is_OSError e then Raise ReadError else Raise e
  | Ret t => Ret t
  end.

(** [tarfile.open(path, "r:gz")] *)
Definition open_gz (w : world) (path : pystr) : outcome exn TarFile :=
  match read_file w path with
  | Raise e => Raise (OSError e)
  | Ret content => gzopen content
  end.

(** [tarfile.open(path)]: gzip, bzip2 and xz are tried, then the plain
    format; a [ReadError] passes to the next one. *)
Definition open_any (w : world) (path : pystr) : outcome exn unit :=
  match read_file w path with
  | Raise e => Raise (OSError e)
  | Ret content =>
    match gzopen content with
    | Ret _ => Ret ()
    | Raise ReadError =>
      if bz2_tar content || xz_tar content then Ret ()
      else
        match taropen {| s_data := content; s_end := CleanEOF |} with
        | Ret _ => Ret ()
        | Raise e => Raise e
        end
    | Raise e => Raise e
    end
  end.

(** [tarfile.is_tarfile]: only a [TarError] is caught. *)
Definition is_tarfile (w : world) (path : pystr) : outcome exn bool :=
  match open_any w path with
  | Ret _ => Ret true
  | Raise ReadError => Ret false
  | Raise e => Raise e
  end.

(** [TarFile._load]: the members after the first. *)
Fixpoint load (fuel : nat) (s : stream) (offset tell : nat)
    : outcome exn (list TarInfo) :=
  match fuel with
  | O => Raise ReadError
  | S fuel =>
    match next s offset tell with
    | Raise e => Raise e
    | Ret None => Ret []
    | Ret (Some (t, nxt, pos)) =>
      match load fuel s nxt pos with
      | Raise e => Raise e
      | Ret l => Ret (t :: l)
      end
    end
  end.

Definition getmembers (t : TarFile) : outcome exn (list TarInfo) :=
  match firstmember t with
  | None => Ret []
  | Some (m, nxt, pos) =>
    match load (S (length (s_data (fileobj t)))) (fileobj t) nxt pos with
    | Raise e => Raise e
    | Ret l => Ret (m :: l)
    end
  end.

Definition getnames (t : TarFile) : outcome exn (list pystr) :=
  match getmembers t with
  | Raise e => Raise e
  | Ret l => Ret (map name l)
  end.

(** [TarFile.getmember]: the last member of that name. *)
Definition getmember (t : TarFile) (n : pystr) : outcome exn TarInfo :=
  match getmembers t with
  | Raise e => Raise e
  | Ret l =>
    match find (fun m => str_eqb (name m) (rstrip_slash n)) (rev l) with
    | Some m => Ret m
    | None => Raise KeyError
    end
  end.

End WithLibrary.

End Tarfile.

(** ** [src/utils/prepare_nemo_model.py] *)

Module PrepareNemoModel.

Import Fs Tarfile.

Definition model_nemo : pystr := py "model.nemo".

(** [_deterministic_filter] *)
Definition _deterministic_filter (tarinfo : TarInfo) : TarInfo :=
  {| name := name tarinfo;
     mode := if isfile tarinfo then 420 (* 0o644 *) else 493 (* 0o755 *);
     uid := 0;
     gid := 0;
     size := size tarinfo;
     mtime := 0;
     type := type tarinfo;
     linkname := linkname tarinfo;
     uname := [];
     gname := [] |}.

(** The header of the one member of the archive, for a checkpoint of a given
    size, once filtered. *)
Definition canonical_member (n : Z) : TarInfo :=
  {| name := model_nemo; mode := 420; uid := 0; gid := 0; size := n;
     mtime := 0; type := REGTYPE; linkname := []; uname := []; gname := [] |}.

(** A statement: it changes the machine, and returns or raises. *)
Definition St (A : Type) : Type := world -> world * outcome exn A.

#[global] Instance St_ret : MRet St := fun A (a : A) w => (w, Ret a).
#[global] Instance St_bind : MBind St := fun A B (k : A -> St B) (m : St A) w =>
  match m w with
  | (w', Ret a) => k a w'
  | (w', Raise e) => (w', Raise e)
  end.

Definition throw {A} (e : exn) : St A := fun w => (w, Raise e).
Definition gets {A} (f : world -> A) : St A := fun w => (w, Ret (f w)).
Definition note (e : event) : St unit := fun w => (record e w, Ret ()).

(** [try: body except Exception as e: raise RuntimeError(...) from e] *)
Definition reraise_as {A} (why : runtime_error) (body : St A) : St A := fun w =>
  match body w with
  | (w', Ret a) => (w', Ret a)
  | (w', Raise _) => (w', Raise (RuntimeError why))
  end.

Section WithLibrary.

Context `{Library}.

(** [_tar_has_model_nemo] *)
Definition inspect (w : world) (path : pystr) : outcome exn bool :=
  t ← open_gz w path;
  names ← getnames t;
  if negb (bool_decide (model_nemo ∈ names)) then Ret false
  else
    info ← getmember t model_nemo;
    if negb (isreg info) || (size info <=? 0)%Z then Ret false
    else Ret true.

Definition _tar_has_model_nemo (w : world) (path : pystr) : outcome exn bool :=
  if negb (os_path_exists w path) then Ret false
  else
    is_tar ← is_tarfile w path;
    if negb is_tar then Ret false
    else
      match inspect w path with          (* try: ... except Exception: *)
      | Ret b => Ret b
      | Raise _ => Ret false
      end.

(** The four checks of the validator, as what the library reports of the
    file: the path exists; [tarfile] recognises the file, opens it as a
    gzip-compressed archive and reads the headers of its members; one of the
    names is [model.nemo]; the last member of that name is a regular file of
    positive size. *)
Definition passes_checks (w : world) (path : pystr) : Prop :=
  os_path_exists w path = true
  /\ is_tarfile w path = Ret true
  /\ exists t names info,
       open_gz w path = Ret t
       /\ getnames t = Ret names
       /\ model_nemo ∈ names
       /\ getmember t model_nemo = Ret info
       /\ isreg info = true
       /\ (0 < size info)%Z.

Definition makedirs (name : pystr) : St unit := fun w =>
  match os_makedirs (length name) (record (Ev_makedirs name) w) name with
  | (w', Ret _) => (w', Ret ())
  | (w', Raise e) => (w', Raise (OSError e))
  end.

Definition import_nemo : St unit := fun w =>
  (w, if nemo_importable then Ret () else Raise ImportError).

(** [from_pretrained(model_name)] and [save_to(local_nemo_path)] *)
Definition download (model_name local_nemo_path : pystr) : St unit := fun w =>
  match fetch model_name local_nemo_path (record (Ev_fetch model_name local_nemo_path) w) with
  | (w', true) => (w', Ret ())
  | (w', false) => (w', Raise (RuntimeError FailedDownload))
  end.

Definition pack (local_nemo_path out_tar : pystr) : St unit := fun w =>
  write_tar_gz (record (Ev_pack local_nemo_path out_tar) w)
    out_tar local_nemo_path model_nemo _deterministic_filter.

Definition validate (path : pystr) : St bool := fun w =>
  let w' := record (Ev_validate path) w in (w', _tar_has_model_nemo w' path).

Definition missing_or_empty (w : world) (p : pystr) : bool :=
  negb (os_path_exists w p) ||
  match os_path_getsize w p with
  | Ret n => (n <=? 0)%Z
  | Raise _ => true
  end.

(** [prepare_nemo_artifact] *)
Definition prepare_nemo_artifact (local_nemo_path model_name out_tar : pystr)
    : St pystr :=
  present ← gets (fun w => os_path_exists w out_tar);
  if present : bool then
    note Log_exists;;
    mret out_tar
  else
    makedirs (dirname local_nemo_path);;
    makedirs (dirname out_tar);;
    have ← gets (fun w => os_path_exists w local_nemo_path);
    (if negb have then
       note Log_downloading;;
       import_nemo;;
       reraise_as FailedDownload (download model_name local_nemo_path);;
       note Log_saved
     else mret ());;
    bad ← gets (fun w => missing_or_empty w local_nemo_path);
    if bad : bool then throw MissingCheckpoint
    else
      note Log_packaging;;
      reraise_as FailedTar (pack local_nemo_path out_tar);;
      valid ← validate out_tar;
      if negb valid then throw (RuntimeError VerificationFailed)
      else
        note Log_ready;;
        mret out_tar.

End WithLibrary.

(** The library the functions are evaluated with: the stored-block coder,
    files that are neither bzip2 nor xz archives, archives without extension
    members, directories without entries, and no model hub. *)
Definition stored_library : Library :=
  {| deflate := Gzip.deflate_stored;
     inflate := Gzip.inflate_stored;
     bz2_tar := fun _ => false;
     xz_tar := fun _ => false;
     proc_extension := fun _ _ _ => Raise ReadError;
     add_children := fun _ _ _ _ => Ret [];
     nemo_importable := false;
     fetch := fun _ _ w => (w, false) |}.

End PrepareNemoModel.

(** ** Machines and requests to evaluate the code on *)

Module Demo.

Import Fs Tarfile PrepareNemoModel.

Definition dev : host :=
  {| h_uid := 1000; h_gid := 1000; h_uname := py "dev"; h_gname := py "dev";
     h_umask := 18 |}.

Definition dev_stat : stat :=
  {| st_perm := 420; st_uid := 1000; st_gid := 1000; st_uname := py "dev";
     st_gname := py "dev"; st_mtime := 1699999999 |}.

Definition local_nemo_path : pystr := py "artifacts/model.nemo".
Definition model_name : pystr := py "nvidia/parakeet-rnnt-0.6b".
Definition out_tar : pystr := py "artifacts/model.tar.gz".

(** Four bytes stand for the checkpoint. *)
Definition checkpoint : bytes := [x4e; x65; x4d; x6f].

Definition machine (t : Z) (fs : gmap pystr node) : world :=
  {| files := fs; now := t; who := dev; journal := [] |}.

(** The checkpoint is in place and readable; nothing is packed yet. *)
Definition fresh (t : Z) : world :=
  machine t {[ py "artifacts" := Dir dev_stat 4096;
               local_nemo_path := File dev_stat true checkpoint ]}.

(** The same, the checkpoint being unreadable for the process. *)
Definition unreadable : world :=
  machine 1700000000 {[ py "artifacts" := Dir dev_stat 4096;
                        local_nemo_path := File dev_stat false checkpoint ]}.

(** An empty file sits at the output path. *)
Definition stale : world :=
  machine 1700000000 {[ py "artifacts" := Dir dev_stat 4096;
                        local_nemo_path := File dev_stat true checkpoint;
                        out_tar := File dev_stat true [] ]}.

(** The content of the file at a path. *)
Definition content (w : world) (p : pystr) : option bytes :=
  match node_at w p with
  | Some (File _ _ data) => Some data
  | _ => None
  end.

Definition put (w : world) (p : pystr) (data : bytes) : world :=
  with_files w (<[p := File dev_stat true data]> (files w)).

(** The archive [prepare_nemo_artifact] builds on [fresh 1700000000] with the
    stored-block coder. *)
Definition built : world :=
  Eval vm_compute in
    fst (@prepare_nemo_artifact stored_library local_nemo_path model_name
           out_tar (fresh 1700000000)).

Definition archive : bytes :=
  Eval vm_compute in
    match content built out_tar with Some d => d | None => [] end.

(** An archive whose one member has another name, and one whose
    [model.nemo] is empty. *)
Definition other_archive : bytes :=
  Eval vm_compute in
    match content
            (fst (@write_tar_gz stored_library (fresh 1700000000) out_tar
                    local_nemo_path (py "weights.bin") _deterministic_filter))
            out_tar with
    | Some d => d
    | None => []
    end.

(** The archive without its last byte, and the first three bytes of a gzip
    header. *)
Definition truncated_archive : bytes := take (length archive - 1) archive.
Definition cut_header : bytes := [x1f; x8b; x08].

Definition empty_member_archive : bytes :=
  Eval vm_compute in
    match content
            (fst (@write_tar_gz stored_library
                    (put (fresh 1700000000) local_nemo_path [])
                    out_tar local_nemo_path model_nemo _deterministic_filter))
            out_tar with
    | Some d => d
    | None => []
    end.

(** Requests. *)

(** Two samples, 1 and -1, at 16000 Hz, one channel, PCM16. *)
Definition wav2 : bytes :=
  Wav.riff ++ [x28; x00; x00; x00] ++ Wav.wave_fmt
  ++ [x10; x00; x00; x00; x01; x00; x01; x00; x80; x3e; x00; x00;
      x00; x7d; x00; x00; x02; x00; x10; x00]
  ++ Wav.data_tag ++ [x04; x00; x00; x00; x01; x00; xff; xff].

Definition audio2 : sf_audio :=
  {| channels := 1; frames := [[Qmake 1 32768]; [Qmake (-1) 32768]] |}.

(** The bodies [5] and [["audio_b64"]]. *)
Definition body_number : pystr := py "5".
Definition body_array : pystr :=
  py "[" ++ dquote ++ Inference.audio_b64 ++ dquote ++ py "]".

End Demo.

(** ** [str.encode("utf-8")] and [bytes.decode("utf-8")] *)

Module Utf8.

(** One code point as UTF-8.  A surrogate cannot be encoded, and a [str]
    holds no code point above U+10FFFF: [None] is [UnicodeEncodeError]. *)
Definition encode_char (c : N) : option bytes :=
  if c <? 128 then Some [byte_of_N c]
  else if c <? 2048 then
    Some [byte_of_N (192 + c / 64); byte_of_N (128 + c mod 64)]
  else if c <? 65536 then
    if (55296 <=? c) && (c <=? 57343) then None
    else
      Some [byte_of_N (224 + c / 4096); byte_of_N (128 + c / 64 mod 64);
            byte_of_N (128 + c mod 64)]
  else if c <? 1114112 then
    Some [byte_of_N (240 + c / 262144); byte_of_N (128 + c / 4096 mod 64);
          byte_of_N (128 + c / 64 mod 64); byte_of_N (128 + c mod 64)]
  else None.

Fixpoint encode (s : pystr) : option bytes :=
  match s with
  | [] => Some []
  | c :: r =>
    match encode_char c, encode r with
    | Some b, Some br => Some (b ++ br)
    | _, _ => None
    end
  end.

Definition is_cont (b : N) : bool := (128 <=? b) && (b <? 192).

(** The strict decoder: a start byte below 0xC2 or above 0xF4, a missing or
    wrong continuation byte, an overlong form, a surrogate and a code point
    above U+10FFFF are all refused.  [None] is [UnicodeDecodeError]. *)
Fixpoint decode_points (b : list N) : option pystr :=
  match b with
  | [] => Some []
  | b0 :: r =>
    if b0 <? 128 then cons b0 <$> decode_points r
    else if b0 <? 194 then None
    else if b0 <? 224 then
      match r with
      | b1 :: r1 =>
        if is_cont b1
        then cons (b0 * 64 + b1 - 12416) <$> decode_points r1
        else None
      | _ => None
      end
    else if b0 <? 240 then
      match r with
      | b1 :: b2 :: r2 =>
        if is_cont b1 && is_cont b2
           && negb ((b0 =? 224) && (b1 <? 160))
           && negb ((b0 =? 237) && (160 <=? b1))
        then cons (b0 * 4096 + b1 * 64 + b2 - 925824) <$> decode_points r2
        else None
      | _ => None
      end
    else if b0 <? 245 then
      match r with
      | b1 :: b2 :: b3 :: r3 =>
        if is_cont b1 && is_cont b2 && is_cont b3
           && negb ((b0 =? 240) && (b1 <? 144))
           && negb ((b0 =? 244) && (144 <=? b1))
        then cons (b0 * 262144 + b1 * 4096 + b2 * 64 + b3 - 63447168)
               <$> decode_points r3
        else None
      | _ => None
      end
    else None
  end.

Definition decode (b : bytes) : option pystr := decode_points (map Byte.to_N b).

End Utf8.

(** ** [json.dumps] on any value *)

Module JsonEncoder.

Import Json.

(** [json.dumps(v)] with the defaults: [ensure_ascii=True], the separators
    [", "] and [": "], the keys of an object in their order. *)
Fixpoint dumps (v : json) : pystr :=
  match v with
  | JNull => py "null"
  | JBool b => if b then py "true" else py "false"
  | JNum lit => lit
  | JStr s => encode_basestring_ascii s
  | JArr items =>
    py "["
    ++ (fix items_text (l : list json) : pystr :=
          match l with
          | [] => []
          | x :: r =>
            dumps x ++ match r with [] => [] | _ :: _ => py ", " ++ items_text r end
          end) items
    ++ py "]"
  | JObj pairs =>
    py "{"
    ++ (fix pairs_text (l : list (pystr * json)) : pystr :=
          match l with
          | [] => []
          | (k, x) :: r =>
            encode_basestring_ascii k ++ py ": " ++ dumps x
            ++ match r with [] => [] | _ :: _ => py ", " ++ pairs_text r end
          end) pairs
    ++ py "}"
  end.

End JsonEncoder.

(** ** [src/test.py]: [invoke_parakeet] *)

Module Invoke.

Import Json Base64 Fs.

(** The keyword arguments of [invoke_endpoint]. *)
Record request : Type := {
  EndpointName : pystr;
  ContentType : pystr;
  Accept : pystr;
  Body : bytes
}.

(** What leaves [invoke_parakeet]: an exception of boto3 (of a type [B]),
    the error of [open], a codec error, [json.JSONDecodeError], what the
    interpreter raises on the membership test or on the subscript, and the
    [RuntimeError] of the function. *)
Inductive exn (B : Type) : Type :=
  | Boto (e : B)
  | OSError (e : os_error)
  | UnicodeEncodeError
  | UnicodeDecodeError
  | JSONDecodeError
  | Py (e : Inference.exn)
  | RuntimeError (output : json).   (* Unexpected response format: ... *)
Arguments Boto {B} e.
Arguments OSError {B} e.
Arguments UnicodeEncodeError {B}.
Arguments UnicodeDecodeError {B}.
Arguments JSONDecodeError {B}.
Arguments Py {B} e.
Arguments RuntimeError {B} output.

(** The [log.info] lines. *)
Inductive log_record : Type :=
  | Info_encoding (wav_path : pystr)      (* Encoding audio file: ... *)
  | Info_invoking (endpoint_name : pystr) (* Invoking SageMaker endpoint: ... *)
  | Info_received (transcript : json).    (* Transcription received: ... *)

Section Runtime.

Variable B : Type.

(** [boto3.client("sagemaker-runtime")]: the client's [invoke_endpoint]
    followed by the read of the body of the response, or an exception. *)
Variable boto3_client : outcome B (request -> outcome B bytes).

(** [invoke_parakeet]: the lines logged, and the returned value. *)
Definition invoke_parakeet (w : world) (endpoint_name wav_path : pystr)
    : list log_record * outcome (exn B) json :=
  match boto3_client with
  | Raise e => ([], Raise (Boto e))
  | Ret invoke_endpoint =>
    match read_file w wav_path with
    | Raise e => ([Info_encoding wav_path], Raise (OSError e))
    | Ret content =>
      let log := [Info_encoding wav_path; Info_invoking endpoint_name] in
      match Utf8.encode (Client.request_body content) with
      | None => (log, Raise UnicodeEncodeError)
      | Some body =>
        match invoke_endpoint
                {| EndpointName := endpoint_name;
                   ContentType := Inference.application_json;
                   Accept := Inference.application_json;
                   Body := body |} with
        | Raise e => (log, Raise (Boto e))
        | Ret raw =>
          match Utf8.decode raw with
          | None => (log, Raise UnicodeDecodeError)
          | Some body =>
            match loads body with
            | None => (log, Raise JSONDecodeError)
            | Some output =>
              match Inference.py_in (py "text") output with
              | Raise e => (log, Raise (Py e))
              | Ret false => (log, Raise (RuntimeError output))
              | Ret true =>
                match Inference.py_getitem output (py "text") with
                | Raise e => (log, Raise (Py e))
                | Ret transcript => (log ++ [Info_received transcript], Ret output)
                end
              end
            end
          end
        end
      end
    end
  end.

End Runtime.

End Invoke.

(** ** [src/utils/create_role.py] *)

Module CreateRole.

Import Json.

(** The exceptions of the IAM client: the one the function names, and the
    others. *)
Inductive iam_error : Type :=
  | EntityAlreadyExistsException
  | OtherError (code : pystr).

Inductive exn : Type :=
  | Iam (e : iam_error)
  | Py (e : Inference.exn)            (* KeyError or TypeError of a subscript *)
  | RuntimeError (role_name : pystr). (* Failed to create or retrieve SageMaker role ... *)

(** The calls made to the client. *)
Inductive call : Type :=
  | Call_create_role (RoleName AssumeRolePolicyDocument Description : pystr)
  | Call_attach_role_policy (RoleName PolicyArn : pystr)
  | Call_get_role (RoleName : pystr).

(** The three operations the function uses, on a service in some state. *)
Record iam_client (S : Type) : Type := {
  create_role : pystr -> pystr -> pystr -> S -> S * outcome iam_error json;
  attach_role_policy : pystr -> pystr -> S -> S * outcome iam_error unit;
  get_role : pystr -> S -> S * outcome iam_error json
}.
Arguments create_role {S} _ _ _ _ _.
Arguments attach_role_policy {S} _ _ _ _.
Arguments get_role {S} _ _ _.

Definition trust_policy : json :=
  JObj [(py "Version", JStr (py "2012-10-17"));
        (py "Statement",
         JArr [JObj [(py "Effect", JStr (py "Allow"));
                     (py "Principal",
                      JObj [(py "Service", JStr (py "sagemaker.amazonaws.com"))]);
                     (py "Action", JStr (py "sts:AssumeRole"))]])].

Definition description : pystr := py "SageMaker execution role for Parakeet model".

Definition policy_arn : pystr :=
  py "arn:aws:iam::aws:policy/AmazonSageMakerFullAccess".

(** [response["Role"]["Arn"]] *)
Definition role_arn (response : json) : outcome Inference.exn json :=
  role ← Inference.py_getitem response (py "Role");
  Inference.py_getitem role (py "Arn").

Section Client.

Variable S : Type.

(** [boto3.client("iam")] *)
Variable boto3_client : outcome iam_error (iam_client S).

(** The body of the [try]. *)
Definition create_and_attach (iam : iam_client S) (role_name : pystr) (s : S)
    : S * (list call * outcome exn json) :=
  let document := JsonEncoder.dumps trust_policy in
  let c1 := Call_create_role role_name document description in
  let c2 := Call_attach_role_policy role_name policy_arn in
  match create_role iam role_name document description s with
  | (s1, Raise e) => (s1, ([c1], Raise (Iam e)))
  | (s1, Ret response) =>
    match attach_role_policy iam role_name policy_arn s1 with
    | (s2, Raise e) => (s2, ([c1; c2], Raise (Iam e)))
    | (s2, Ret _) =>
      match role_arn response with
      | Raise e => (s2, ([c1; c2], Raise (Py e)))
      | Ret arn => (s2, ([c1; c2], Ret arn))
      end
    end
  end.

(** [create_sagemaker_role]: the state of the service after it, the calls
    made, and the returned value.  An exception raised in the handler of
    [EntityAlreadyExistsException] is not seen by the handler that follows
    it. *)
Definition create_sagemaker_role (role_name : pystr) (s : S)
    : S * (list call * outcome exn json) :=
  match boto3_client with
  | Raise e => (s, ([], Raise (Iam e)))
  | Ret iam =>
    match create_and_attach iam role_name s with
    | (s', (t, Ret arn)) => (s', (t, Ret arn))
    | (s', (t, Raise (Iam EntityAlreadyExistsException))) =>
      match get_role iam role_name s' with
      | (s'', Raise e) => (s'', (t ++ [Call_get_role role_name], Raise (Iam e)))
      | (s'', Ret response) =>
        match role_arn response with
        | Raise e => (s'', (t ++ [Call_get_role role_name], Raise (Py e)))
        | Ret arn => (s'', (t ++ [Call_get_role role_name], Ret arn))
        end
      end
    | (s', (t, Raise _)) => (s', (t, Raise (RuntimeError role_name)))
    end
  end.

End Client.

End CreateRole.

(** ** What the packaging writes, and what it needs *)

Module Packed.

Import Fs Gzip Tarfile PrepareNemoModel.

(** The tar stream of an archive whose one member is a checkpoint of the
    given bytes: the header, the bytes, the padding to a full block, and the
    end of the archive. *)
Definition member (data : bytes) : bytes :=
  tobuf (canonical_member (Z.of_nat (length data)))
  ++ data ++ padding (length data) BLOCKSIZE.

Definition packed_tar (data : bytes) : bytes :=
  member data ++ end_of_archive (length (member data)).

(** The stream read from that archive, the member read first, and the
    offset of the block after the member. *)
Definition tar_stream (data : bytes) : stream :=
  {| s_data := packed_tar data; s_end := CleanEOF |}.

Definition member_info (data : bytes) : TarInfo :=
  canonical_member (Z.of_nat (length data)).

Definition after_member (data : bytes) : nat :=
  (BLOCKSIZE + Z.to_nat (block (Z.of_nat (length data))))%nat.

(** The decoder undoes the coder on a payload, and stops where the coded
    stream ends. *)
Definition inflates `{Library} (payload : bytes) : Prop :=
  forall rest, inflate (deflate payload ++ rest) = (payload, Finished rest).

(** A directory that is there, together with the directory it is in. *)
Definition directory_in_place (w : world) (d : pystr) : Prop :=
  os_path_isdir w d = true
  /\ (dirname d = [] \/ os_path_exists w (dirname d) = true).

(** The largest size the size field of a ustar header holds. *)
Definition MAX_USTAR_SIZE : Z := 8 ^ 11 - 1.

(** The two halves of [prepare_nemo_artifact] after the directories are
    made: getting the checkpoint when it is not there (lines 89 to 97), and
    checking, packing and verifying it (lines 99 to 115). *)
Section WithLibrary.

Context `{Library}.

Definition obtain (model_name local_nemo_path : pystr) : St unit :=
  have ← gets (fun w => os_path_exists w local_nemo_path);
  if negb have then
    note Log_downloading;;
    import_nemo;;
    reraise_as FailedDownload (download model_name local_nemo_path);;
    note Log_saved
  else mret ().

Definition package (local_nemo_path out_tar : pystr) : St pystr :=
  bad ← gets (fun w => missing_or_empty w local_nemo_path);
  if bad : bool then throw MissingCheckpoint
  else
    note Log_packaging;;
    reraise_as FailedTar (pack local_nemo_path out_tar);;
    valid ← validate out_tar;
    if negb valid then throw (RuntimeError VerificationFailed)
    else
      note Log_ready;;
      mret out_tar.

End WithLibrary.

(** The digits of a number field, and the value of a string of them read
    from the left. *)
Definition is_octal_digit (b : byte) : Prop := 48 <= Byte.to_N b <= 55.
Definition octal_step (acc c : N) : N := acc * 8 + (c - 48).

(** The header of the member, around its size and its checksum: the name,
    the mode and the owner; the date; the type, the magic number and the
    empty names. *)
Definition header_left : bytes :=
  Eval vm_compute in
    stn model_nemo 100 ++ itn 420 8 ++ itn 0 8 ++ itn 0 8.

Definition header_mtime : bytes := Eval vm_compute in itn 0 12.

Definition header_right : bytes :=
  Eval vm_compute in
    [REGTYPE] ++ stn [] 100 ++ POSIX_MAGIC ++ stn [] 32 ++ stn [] 32
    ++ replicate 8 NUL ++ replicate 8 NUL ++ replicate 155 NUL
    ++ replicate 12 NUL.

End Packed.

(** ** Machines, requests and services for the theorems that have a
    precondition *)

Module Cases.

Import Json Fs Tarfile PrepareNemoModel Demo.

(** A request whose base64 text holds a character of the URL-safe
    alphabet. *)
Definition body_url_safe : pystr :=
  dumps_singleton true Inference.audio_b64 (py "QUJD-A==").

(** A transcript with two characters outside ASCII: h, e with an acute
    accent, and the euro sign. *)
Definition transcript : pystr := [104; 233; 8364].

(** An endpoint that answers every request with the body [output_fn] makes
    for that transcript. *)
Definition endpoint (req : Invoke.request) : outcome unit bytes :=
  match Utf8.encode
          (fst (snd (Inference.output_fn transcript (Invoke.Accept req)))) with
  | Some raw => Ret raw
  | None => Raise ()
  end.

Definition wav_path : pystr := py "clips/sample.wav".

Definition studio : world :=
  machine 1700000000 {[ py "clips" := Dir dev_stat 4096;
                        wav_path := File dev_stat true wav2 ]}.

(** The directory of the artifacts without a checkpoint, with a directory
    in the place of the checkpoint, and with an empty checkpoint. *)
Definition bare : world :=
  machine 1700000000 {[ py "artifacts" := Dir dev_stat 4096 ]}.

Definition folder : world :=
  machine 1700000000 {[ py "artifacts" := Dir dev_stat 4096;
                        local_nemo_path := Dir dev_stat 4096 ]}.

Definition hollow : world := put (fresh 1700000000) local_nemo_path [].

(** What [prepare_nemo_artifact] leaves of [folder]. *)
Definition rejected : world :=
  Eval vm_compute in
    fst (@prepare_nemo_artifact stored_library local_nemo_path model_name
           out_tar folder).

(** The same checkpoint, a second later, owned by root and readable by
    all. *)
Definition root_stat : stat :=
  {| st_perm := 292; st_uid := 0; st_gid := 0; st_uname := py "root";
     st_gname := py "root"; st_mtime := 1500000000 |}.

Definition later : world :=
  machine 1700000001 {[ py "artifacts" := Dir dev_stat 4096;
                        local_nemo_path := File root_stat true checkpoint ]}.

(** The tar archive of the checkpoint, not compressed. *)
Definition plain_tar : bytes := Eval vm_compute in Packed.packed_tar checkpoint.

(** An IAM service whose state is the list of the names of its roles. *)
Definition role_response (role_name : pystr) : json :=
  JObj [(py "Role",
         JObj [(py "RoleName", JStr role_name);
               (py "Arn",
                JStr (py "arn:aws:iam::123456789012:role/" ++ role_name))])].

Definition iam : CreateRole.iam_client (list pystr) :=
  {| CreateRole.create_role := fun role_name _ _ roles =>
       if bool_decide (role_name ∈ roles)
       then (roles, Raise CreateRole.EntityAlreadyExistsException)
       else (role_name :: roles, Ret (role_response role_name));
     CreateRole.attach_role_policy := fun _ _ roles => (roles, Ret ());
     CreateRole.get_role := fun role_name roles =>
       if bool_decide (role_name ∈ roles)
       then (roles, Ret (role_response role_name))
       else (roles, Raise (CreateRole.OtherError (py "NoSuchEntity"))) |}.

Definition role_name : pystr := py "SageMakerExecutionRole-Parakeet".

End Cases.

(** * Properties *)

Import Json Base64.

(** ** Exhaustive checks below a bound *)

Lemma N_forall_below (P : N -> bool) (n : nat) :
  forallb P (map N.of_nat (seq 0 n)) = true ->
  forall c, c < N.of_nat n -> P c = true.
Proof.
  intros F c Hc. rewrite forallb_forall in F. apply F.
  apply in_map_iff. exists (N.to_nat c). split; [lia|].
  apply in_seq. lia.
Qed.

Lemma N_forall_below2 (P : N -> N -> bool) (n m : nat) :
  forallb (fun x => forallb (P x) (map N.of_nat (seq 0 m)))
          (map N.of_nat (seq 0 n)) = true ->
  forall x y, x < N.of_nat n -> y < N.of_nat m -> P x y = true.
Proof.
  intros F x y Hx Hy.
  apply (N_forall_below (fun x => forallb (P x) (map N.of_nat (seq 0 m))) n F x) in Hx.
  exact (N_forall_below (P x) m Hx y Hy).
Qed.

(** ** [json]: a string survives [dumps] and [loads] *)

Lemma scanstring_unicode_escape (h1 h2 h3 h4 uni : N) (r : pystr) :
  hex4 h1 h2 h3 h4 = Some uni ->
  is_high_surrogate uni = false ->
  scanstring (92 :: 117 :: h1 :: h2 :: h3 :: h4 :: r)
  = cons_char uni (scanstring r).
Proof.
  intros Hx Hs. cbn [scanstring]. 
  change (92 =? 34) with false. change (92 =? 92) with true.
  change (117 =? 117) with true. cbv iota. rewrite Hx.
  destruct r as [|b [|u [|g1 [|g2 [|g3 [|g4 r3]]]]]]; try reflexivity.
  rewrite Hs. reflexivity.
Qed.

Lemma control_escape (c : N) :
  c < 32 ->
  hex4 48 48 (hexdigit (c / 16)) (hexdigit (c mod 16)) = Some c
  /\ is_high_surrogate c = false.
Proof.
  intros Hc.
  pose proof (N_forall_below
    (fun c => bool_decide (hex4 48 48 (hexdigit (c / 16)) (hexdigit (c mod 16)) = Some c)
              && negb (is_high_surrogate c)) 32 eq_refl c Hc) as F.
  apply andb_true_iff in F as [F1 F2].
  apply bool_decide_eq_true in F1. apply negb_true_iff in F2. auto.
Qed.

Lemma scanstring_escape_char (c : N) (r : pystr) :
  scanstring (escape c ++ r) = cons_char c (scanstring r).
Proof.
  unfold escape.
  destruct (c =? 34) eqn:E1; [apply N.eqb_eq in E1 as ->; reflexivity|].
  destruct (c =? 92) eqn:E2; [apply N.eqb_eq in E2 as ->; reflexivity|].
  destruct (c =? 10) eqn:E3; [apply N.eqb_eq in E3 as ->; reflexivity|].
  destruct (c =? 13) eqn:E4; [apply N.eqb_eq in E4 as ->; reflexivity|].
  destruct (c =? 9) eqn:E5; [apply N.eqb_eq in E5 as ->; reflexivity|].
  destruct (c =? 8) eqn:E6; [apply N.eqb_eq in E6 as ->; reflexivity|].
  destruct (c =? 12) eqn:E7; [apply N.eqb_eq in E7 as ->; reflexivity|].
  destruct (c <? 32) eqn:E8.
  - apply N.ltb_lt in E8. destruct (control_escape c E8) as [Hx Hs].
    cbn [app]. apply scanstring_unicode_escape; assumption.
  - cbn [app scanstring]. rewrite E1, E2, E8. reflexivity.
Qed.

Lemma scanstring_escape (s rest : pystr) :
  scanstring (concat (map escape s) ++ 34 :: rest) = Some (s, rest).
Proof.
  induction s as [|c s IH]; [reflexivity|].
  cbn [map concat]. rewrite <- app_assoc, scanstring_escape_char, IH.
  reflexivity.
Qed.

Lemma scan_once_singleton (fuel : nat) (k v : pystr) :
  scan_once (S (S (S fuel))) (dumps_singleton false k v)
  = Some (JObj [(k, JStr v)], []).
Proof.
  unfold dumps_singleton, encode_basestring, dquote.
  change (py "{") with [123]. change (py ": ") with [58; 32].
  change (py "}") with [125].
  repeat rewrite <- app_assoc. cbn [app].
  assert (W1 : forall r, skip_ws (34 :: r) = 34 :: r) by reflexivity.
  assert (W2 : forall r, skip_ws (58 :: r) = 58 :: r) by reflexivity.
  assert (W3 : forall r, skip_ws (32 :: r) = skip_ws r) by reflexivity.
  assert (W4 : skip_ws [125] = [125]) by reflexivity.
  cbn [scan_once]. change (123 =? 34) with false. change (123 =? 123) with true.
  cbv iota. rewrite W1. change (34 =? 125) with false. cbv iota.
  cbn [parse_members]. change (34 =? 34) with true. cbv iota.
  rewrite scanstring_escape, W2.
  change (58 =? 58) with true. cbv iota.
  rewrite W3, W1. cbn [scan_once]. change (34 =? 34) with true. cbv iota.
  rewrite scanstring_escape, W4.
  reflexivity.
Qed.

Theorem loads_dumps_singleton (k v : pystr) :
  loads (dumps_singleton false k v) = Some (JObj [(k, JStr v)]).
Proof.
  unfold loads, loads_with.
  assert (L : exists n, length (dumps_singleton false k v) = S n).
  { unfold dumps_singleton, encode_basestring, dquote.
    change (py "{") with [123]. cbn [app length]. eauto. }
  destruct L as [n L]. rewrite L.
  replace (2 * S n + 2)%nat with (S (S (S (S (2 * n))))) by lia.
  assert (E : skip_ws (dumps_singleton false k v) = dumps_singleton false k v)
    by reflexivity.
  rewrite E, scan_once_singleton.
  reflexivity.
Qed.

(** On printable ASCII the two encoders agree. *)
Lemma escape_ascii_printable (c : N) :
  printable c = true -> escape_ascii c = escape c.
Proof.
  intros P. unfold escape_ascii, escape. rewrite P.
  assert (L : (c <? 32) = false).
  { unfold printable in P. apply andb_true_iff in P as [P _].
    apply N.leb_le in P. apply N.ltb_ge. exact P. }
  rewrite L. reflexivity.
Qed.

Lemma dumps_singleton_printable (k v : pystr) :
  forallb printable k = true -> forallb printable v = true ->
  dumps_singleton true k v = dumps_singleton false k v.
Proof.
  intros Pk Pv. unfold dumps_singleton, encode_basestring_ascii, encode_basestring.
  assert (E : forall s, forallb printable s = true ->
                        map escape_ascii s = map escape s).
  { induction s as [|c s IH]; [reflexivity|]. cbn [forallb map].
    intros [Pc Ps]%andb_true_iff.
    by rewrite (escape_ascii_printable c Pc), (IH Ps). }
  by rewrite (E k Pk), (E v Pv).
Qed.

(** ** [json]: the fuel of [loads] is enough *)

Lemma skip_ws_length (s : pystr) : (length (skip_ws s) <= length s)%nat.
Proof.
  induction s as [|c s IH]; [reflexivity|]. cbn [skip_ws].
  destruct (is_ws c); cbn [length]; lia.
Qed.

Lemma cons_char_Some (c : N) (r : option (pystr * pystr)) k rest :
  cons_char c r = Some (k, rest) -> exists k', r = Some (k', rest).
Proof. destruct r as [[k' rest']|]; [intros [= _ <-]; eauto|discriminate]. Qed.

Lemma scanstring_shorter (s : pystr) k r :
  scanstring s = Some (k, r) -> (length r < length s)%nat.
Proof.
  revert k r. induction s as [s IH] using (induction_ltof1 _ (@length N)).
  unfold ltof in IH. intros k r.
  assert (Step : forall c x, (length x < length s)%nat ->
            cons_char c (scanstring x) = Some (k, r) ->
            (length r < length s)%nat).
  { intros c x Hx [k' E]%cons_char_Some. apply IH in E; [lia|exact Hx]. }
  destruct s as [|c s1]; [discriminate|]. cbn [scanstring].
  destruct (c =? 34); [intros [= _ <-]; cbn [length]; lia|].
  destruct (c =? 92).
  - destruct s1 as [|e s2]; [discriminate|].
    destruct (e =? 117).
    + destruct s2 as [|h1 [|h2 [|h3 [|h4 s3]]]]; try discriminate.
      destruct (hex4 h1 h2 h3 h4) as [uni|]; [|discriminate].
      destruct s3 as [|b [|u [|g1 [|g2 [|g3 [|g4 s4]]]]]];
        try (apply Step; cbn [length]; lia).
      destruct (is_high_surrogate uni && (b =? 92) && (u =? 117));
        [|apply Step; cbn [length]; lia].
      destruct (hex4 g1 g2 g3 g4) as [uni2|]; [|discriminate].
      destruct (is_low_surrogate uni2); apply Step; cbn [length]; lia.
    + destruct (escape_char e); [|discriminate].
      apply Step; cbn [length]; lia.
  - destruct (c <? 32); [discriminate|]. apply Step; cbn [length]; lia.
Qed.

Lemma span_digits_length (s : pystr) :
  (length (snd (span_digits s)) <= length s)%nat.
Proof.
  induction s as [|c s IH]; [reflexivity|]. cbn [span_digits].
  destruct (is_digit c); [|reflexivity].
  destruct (span_digits s) as [d r]. cbn [snd length] in *. lia.
Qed.

Lemma match_frac_length (s : pystr) :
  (length (snd (match_frac s)) <= length s)%nat.
Proof.
  destruct s as [|c r]; [reflexivity|]. unfold match_frac.
  destruct (c =? 46); [|reflexivity].
  pose proof (span_digits_length r) as L.
  destruct (span_digits r) as [[|d0 d] r']; cbn [snd length] in *; lia.
Qed.

Lemma match_exp_length (s : pystr) :
  (length (snd (match_exp s)) <= length s)%nat.
Proof.
  destruct s as [|c r]; [reflexivity|]. unfold match_exp.
  destruct ((c =? 101) || (c =? 69)); [|reflexivity].
  destruct r as [|sg r1]; [reflexivity|].
  destruct ((sg =? 43) || (sg =? 45)).
  - pose proof (span_digits_length r1) as L.
    destruct (span_digits r1) as [[|d0 d] r']; cbn [snd length] in *; lia.
  - pose proof (span_digits_length (sg :: r1)) as L.
    destruct (span_digits (sg :: r1)) as [[|d0 d] r']; cbn [snd length] in *; lia.
Qed.

Lemma scan_number_shorter (s : pystr) v r :
  scan_number s = Some (v, r) -> (length r < length s)%nat.
Proof.
  unfold scan_number, match_number.
  set (p := match s with
            | c :: r0 => if c =? 45 then ([c], r0) else ([], s)
            | [] => ([], s)
            end).
  assert (P : (length (snd p) <= length s)%nat).
  { subst p. destruct s as [|c r0]; [reflexivity|].
    destruct (c =? 45); cbn [snd length]; lia. }
  destruct p as [sign s1]. cbn [snd] in P.
  assert (I : forall i s2, match_int s1 = Some (i, s2) ->
                (length s2 < length s1)%nat).
  { unfold match_int. destruct s1 as [|c r0]; [discriminate|].
    intros i s2. destruct (c =? 48); [intros [= _ <-]; cbn [length]; lia|].
    destruct (is_digit c); [|discriminate].
    pose proof (span_digits_length r0) as L.
    destruct (span_digits r0) as [d r']. intros [= _ <-].
    cbn [snd length] in *. lia. }
  destruct (match_int s1) as [[i s2]|]; [|discriminate].
  specialize (I i s2 eq_refl).
  pose proof (match_frac_length s2) as F.
  destruct (match_frac s2) as [f s3].
  pose proof (match_exp_length s3) as E.
  destruct (match_exp s3) as [e s4]. cbn [snd] in *.
  intros [= _ <-]. lia.
Qed.

Lemma keyword_shorter (k : string) (v : json) (s : pystr) v' r :
  (0 < length (py k))%nat ->
  keyword k v s = Some (v', r) -> (length r < length s)%nat.
Proof.
  intros K. unfold keyword.
  destruct (starts_with (py k) s) eqn:E; [|discriminate].
  intros [= _ <-]. rewrite length_drop.
  destruct s as [|c s']; [|cbn [length]; lia].
  destruct (py k); [cbn in K; lia|discriminate].
Qed.

Ltac len := cbn [length] in *; lia.

Lemma scan_consumes (n : nat) :
  (forall s v r, scan_once n s = Some (v, r) -> (length r < length s)%nat)
  /\ (forall acc s v r,
        parse_members n acc s = Some (v, r) -> (length r < length s)%nat)
  /\ (forall acc s v r,
        parse_items n acc s = Some (v, r) -> (length r < length s)%nat).
Proof.
  induction n as [|n (IHs & IHm & IHi)]; [repeat split; intros; discriminate|].
  split; [|split].
  - intros s v r. cbn [scan_once]. destruct s as [|c s1]; [discriminate|].
    destruct (c =? 34).
    { destruct (scanstring s1) as [[str r']|] eqn:E; [|discriminate].
      intros [= _ <-]. apply scanstring_shorter in E. len. }
    destruct (c =? 123).
    { pose proof (skip_ws_length s1) as L. revert L.
      destruct (skip_ws s1) as [|c1 r1]; [discriminate|]. intros L.
      destruct (c1 =? 125); [intros [= _ <-]; len|].
      intros E%IHm. len. }
    destruct (c =? 91).
    { pose proof (skip_ws_length s1) as L. revert L.
      destruct (skip_ws s1) as [|c1 r1]; [discriminate|]. intros L.
      destruct (c1 =? 93); [intros [= _ <-]; len|].
      intros E%IHi. len. }
    destruct (c =? 110); [apply keyword_shorter; cbn; lia|].
    destruct (c =? 116); [apply keyword_shorter; cbn; lia|].
    destruct (c =? 102); [apply keyword_shorter; cbn; lia|].
    destruct (c =? 78); [apply keyword_shorter; cbn; lia|].
    destruct (c =? 73); [apply keyword_shorter; cbn; lia|].
    destruct ((c =? 45) && starts_with (py "-Infinity") (c :: s1));
      [apply keyword_shorter; cbn; lia|].
    apply scan_number_shorter.
  - intros acc s v r. cbn [parse_members].
    destruct s as [|c s1]; [discriminate|].
    destruct (c =? 34); [|discriminate].
    destruct (scanstring s1) as [[key r1]|] eqn:E1; [|discriminate].
    apply scanstring_shorter in E1.
    pose proof (skip_ws_length r1) as L1. revert L1.
    destruct (skip_ws r1) as [|c2 r2]; [discriminate|]. intros L1.
    destruct (c2 =? 58); [|discriminate].
    pose proof (skip_ws_length r2) as L2.
    destruct (scan_once n (skip_ws r2)) as [[v0 r3]|] eqn:E2; [|discriminate].
    apply IHs in E2.
    pose proof (skip_ws_length r3) as L3. revert L3.
    destruct (skip_ws r3) as [|c4 r4]; [discriminate|]. intros L3.
    destruct (c4 =? 125); [intros [= _ <-]; len|].
    destruct (c4 =? 44); [|discriminate].
    pose proof (skip_ws_length r4) as L4.
    intros E%IHm. len.
  - intros acc s v r. cbn [parse_items].
    destruct (scan_once n s) as [[v0 r1]|] eqn:E1; [|discriminate].
    apply IHs in E1.
    pose proof (skip_ws_length r1) as L1. revert L1.
    destruct (skip_ws r1) as [|c2 r2]; [discriminate|]. intros L1.
    destruct (c2 =? 93); [intros [= _ <-]; len|].
    destruct (c2 =? 44); [|discriminate].
    pose proof (skip_ws_length r2) as L2.
    intros E%IHi. len.
Qed.

Lemma scan_fuel (n : nat) :
  forall m,
    (forall s, (2 * length s < n)%nat -> (2 * length s < m)%nat ->
               scan_once n s = scan_once m s)
    /\ (forall acc s, (2 * length s + 1 < n)%nat -> (2 * length s + 1 < m)%nat ->
                      parse_members n acc s = parse_members m acc s)
    /\ (forall acc s, (2 * length s + 1 < n)%nat -> (2 * length s + 1 < m)%nat ->
                      parse_items n acc s = parse_items m acc s).
Proof.
  induction n as [|n IH]; intros m; [repeat split; intros; lia|].
  destruct m as [|m]; [repeat split; intros; lia|].
  destruct (IH m) as (IHs & IHm & IHi). clear IH.
  split; [|split].
  - intros s Hn Hm. cbn [scan_once]. destruct s as [|c s1]; [reflexivity|].
    destruct (c =? 34); [reflexivity|].
    destruct (c =? 123).
    { pose proof (skip_ws_length s1) as L. revert L.
      destruct (skip_ws s1) as [|c1 r1]; [reflexivity|]. intros L.
      destruct (c1 =? 125); [reflexivity|]. apply IHm; len. }
    destruct (c =? 91); [|reflexivity].
    pose proof (skip_ws_length s1) as L. revert L.
    destruct (skip_ws s1) as [|c1 r1]; [reflexivity|]. intros L.
    destruct (c1 =? 93); [reflexivity|]. apply IHi; len.
  - intros acc s Hn Hm. cbn [parse_members].
    destruct s as [|c s1]; [reflexivity|].
    destruct (c =? 34); [|reflexivity].
    destruct (scanstring s1) as [[key r1]|] eqn:E1; [|reflexivity].
    apply scanstring_shorter in E1.
    pose proof (skip_ws_length r1) as L1. revert L1.
    destruct (skip_ws r1) as [|c2 r2]; [reflexivity|]. intros L1.
    destruct (c2 =? 58); [|reflexivity].
    pose proof (skip_ws_length r2) as L2.
    rewrite <- (IHs (skip_ws r2)) by len.
    destruct (scan_once n (skip_ws r2)) as [[v0 r3]|] eqn:E2; [|reflexivity].
    apply (proj1 (scan_consumes n)) in E2.
    pose proof (skip_ws_length r3) as L3. revert L3.
    destruct (skip_ws r3) as [|c4 r4]; [reflexivity|]. intros L3.
    destruct (c4 =? 125); [reflexivity|].
    destruct (c4 =? 44); [|reflexivity].
    pose proof (skip_ws_length r4) as L4.
    apply IHm; len.
  - intros acc s Hn Hm. cbn [parse_items].
    rewrite <- (IHs s) by len.
    destruct (scan_once n s) as [[v0 r1]|] eqn:E1; [|reflexivity].
    apply (proj1 (scan_consumes n)) in E1.
    pose proof (skip_ws_length r1) as L1. revert L1.
    destruct (skip_ws r1) as [|c2 r2]; [reflexivity|]. intros L1.
    destruct (c2 =? 93); [reflexivity|].
    destruct (c2 =? 44); [|reflexivity].
    pose proof (skip_ws_length r2) as L2.
    apply IHi; len.
Qed.

(** More fuel than [loads] takes does not change what it returns: its
    [None] is a syntax error, not a lack of fuel. *)
Theorem loads_fuel_enough (s : pystr) (fuel : nat) :
  (2 * length s + 2 <= fuel)%nat -> loads_with fuel s = loads s.
Proof.
  intros F. unfold loads, loads_with.
  pose proof (skip_ws_length s) as L.
  rewrite (proj1 (scan_fuel fuel (2 * length s + 2)) (skip_ws s)) by lia.
  reflexivity.
Qed.

(** ** [base64]: decoding undoes encoding *)

Lemma list_ind3 {A} (P : list A -> Prop) :
  P [] -> (forall a, P [a]) -> (forall a b, P [a; b]) ->
  (forall a b c l, P l -> P (a :: b :: c :: l)) ->
  forall l, P l.
Proof.
  intros P0 P1 P2 P3.
  fix IH 1. intros [|a [|b [|c l]]];
    [exact P0 | apply P1 | apply P2 | apply P3, IH].
Qed.

Lemma byte_of_to_N (a : byte) (n : N) :
  n mod 256 = Byte.to_N a -> byte_of_N n = a.
Proof.
  intros E. unfold byte_of_N. rewrite E, Byte.of_to_N. reflexivity.
Qed.

Lemma to_N_lt (a : byte) : Byte.to_N a < 256.
Proof. pose proof (Byte.to_N_bounded a). lia. Qed.

Lemma b2a_facts (i : N) :
  i < 64 ->
  (b2a i =? pad) = false /\ a2b (b2a i) = Some i /\ printable (b2a i) = true.
Proof.
  intros Hi.
  pose proof (N_forall_below
    (fun i => negb (b2a i =? pad) && bool_decide (a2b (b2a i) = Some i)
              && printable (b2a i)) 64 eq_refl i Hi) as F.
  apply andb_true_iff in F as [F F3]. apply andb_true_iff in F as [F1 F2].
  apply negb_true_iff in F1. apply bool_decide_eq_true in F2. auto.
Qed.

Lemma byte_checked (x : N) : x < 256 -> byte_check x = true.
Proof. apply (N_forall_below byte_check 256). vm_compute. reflexivity. Qed.

Lemma pair_checked (x y : N) : x < 256 -> y < 256 -> pair_check x y = true.
Proof. apply (N_forall_below2 pair_check 256 256). vm_compute. reflexivity. Qed.

Ltac split_checks H :=
  repeat (apply andb_true_iff in H as [H ?]);
  repeat match goal with
         | E : (_ <? _) = true |- _ => apply N.ltb_lt in E
         | E : (_ =? _) = true |- _ => apply N.eqb_eq in E
         end.

Lemma a2b_loop_data (i : N) (r : pystr) (quad_pos leftchar : N) :
  i < 64 ->
  a2b_loop (b2a i :: r) quad_pos leftchar 0 false
  = if quad_pos =? 0 then a2b_loop r 1 i 0 false
    else if quad_pos =? 1 then
      emit (N.lor (N.shiftl leftchar 2) (N.shiftr i 4))
           (a2b_loop r 2 (N.land i 15) 0 false)
    else if quad_pos =? 2 then
      emit (N.lor (N.shiftl leftchar 4) (N.shiftr i 2))
           (a2b_loop r 3 (N.land i 3) 0 false)
    else emit (N.lor (N.shiftl leftchar 6) i) (a2b_loop r 0 0 0 false).
Proof.
  intros Hi. destruct (b2a_facts i Hi) as (E1 & E2 & _).
  cbn [a2b_loop]. rewrite E1, E2. reflexivity.
Qed.

Lemma emit_byte (n : N) (a : byte) (out : bytes) :
  n mod 256 = Byte.to_N a -> emit n (Some out) = Some (a :: out).
Proof. intros E. unfold emit. rewrite (byte_of_to_N a n E). reflexivity. Qed.

Lemma a2b_loop_encode (data : bytes) :
  a2b_loop (b64encode data) 0 0 0 false = Some data.
Proof.
  induction data as [|a|a b|a b c l IH] using list_ind3.
  - reflexivity.
  - pose proof (byte_checked _ (to_N_lt a)) as Ca. split_checks Ca.
    cbn [b64encode].
    rewrite !a2b_loop_data by assumption.
    change (0 =? 0) with true. change (1 =? 0) with false.
    change (1 =? 1) with true. cbv iota.
    cbn [a2b_loop]. change (pad =? pad) with true. cbv iota.
    cbn. apply emit_byte; assumption.
  - pose proof (byte_checked _ (to_N_lt a)) as Ca. split_checks Ca.
    pose proof (byte_checked _ (to_N_lt b)) as Cb. split_checks Cb.
    pose proof (pair_checked _ _ (to_N_lt a) (to_N_lt b)) as Cab. split_checks Cab.
    cbn [b64encode].
    rewrite !a2b_loop_data by assumption.
    change (0 =? 0) with true. change (1 =? 0) with false.
    change (1 =? 1) with true. change (2 =? 0) with false.
    change (2 =? 1) with false. change (2 =? 2) with true. cbv iota.
    cbn [a2b_loop]. change (pad =? pad) with true. cbv iota.
    change (4 <=? 3 + (0 + 1)) with true. change (2 <=? 3) with true.
    cbn [andb]. cbv iota.
    match goal with E : N.land (sx1 _ _) 15 = _ |- _ => rewrite E end.
    erewrite (emit_byte _ b) by eassumption.
    apply emit_byte; assumption.
  - pose proof (byte_checked _ (to_N_lt a)) as Ca. split_checks Ca.
    pose proof (byte_checked _ (to_N_lt b)) as Cb. split_checks Cb.
    pose proof (byte_checked _ (to_N_lt c)) as Cc. split_checks Cc.
    pose proof (pair_checked _ _ (to_N_lt a) (to_N_lt b)) as Cab. split_checks Cab.
    pose proof (pair_checked _ _ (to_N_lt b) (to_N_lt c)) as Cbc. split_checks Cbc.
    cbn [b64encode].
    rewrite !a2b_loop_data by assumption.
    change (0 =? 0) with true. change (1 =? 0) with false.
    change (1 =? 1) with true. change (2 =? 0) with false.
    change (2 =? 1) with false. change (2 =? 2) with true.
    change (3 =? 0) with false. change (3 =? 1) with false.
    change (3 =? 2) with false. cbv iota.
    rewrite IH.
    repeat match goal with
           | E : N.land (sx1 _ _) 15 = _ |- _ => rewrite E; clear E
           | E : N.land (sx2 _ _) 3 = _ |- _ => rewrite E; clear E
           end.
    erewrite (emit_byte _ c) by eassumption.
    erewrite (emit_byte _ b) by eassumption.
    apply emit_byte; assumption.
Qed.

Lemma b64encode_printable (data : bytes) :
  forallb printable (b64encode data) = true.
Proof.
  induction data as [|a|a b|a b c l IH] using list_ind3.
  - reflexivity.
  - pose proof (byte_checked _ (to_N_lt a)) as Ca. split_checks Ca.
    cbn [b64encode forallb].
    rewrite (proj2 (proj2 (b2a_facts (sx0 (Byte.to_N a)) ltac:(assumption)))).
    rewrite (proj2 (proj2 (b2a_facts (tl1 (Byte.to_N a)) ltac:(assumption)))).
    reflexivity.
  - pose proof (byte_checked _ (to_N_lt a)) as Ca. split_checks Ca.
    pose proof (byte_checked _ (to_N_lt b)) as Cb. split_checks Cb.
    pose proof (pair_checked _ _ (to_N_lt a) (to_N_lt b)) as Cab. split_checks Cab.
    cbn [b64encode forallb].
    rewrite (proj2 (proj2 (b2a_facts (sx0 (Byte.to_N a)) ltac:(assumption)))).
    rewrite (proj2 (proj2 (b2a_facts (sx1 (Byte.to_N a) (Byte.to_N b)) ltac:(assumption)))).
    rewrite (proj2 (proj2 (b2a_facts (tl2 (Byte.to_N b)) ltac:(assumption)))).
    reflexivity.
  - pose proof (byte_checked _ (to_N_lt a)) as Ca. split_checks Ca.
    pose proof (byte_checked _ (to_N_lt c)) as Cc. split_checks Cc.
    pose proof (pair_checked _ _ (to_N_lt a) (to_N_lt b)) as Cab. split_checks Cab.
    pose proof (pair_checked _ _ (to_N_lt b) (to_N_lt c)) as Cbc. split_checks Cbc.
    cbn [b64encode forallb].
    rewrite (proj2 (proj2 (b2a_facts (sx0 (Byte.to_N a)) ltac:(assumption)))).
    rewrite (proj2 (proj2 (b2a_facts (sx1 (Byte.to_N a) (Byte.to_N b)) ltac:(assumption)))).
    rewrite (proj2 (proj2 (b2a_facts (sx2 (Byte.to_N b) (Byte.to_N c)) ltac:(assumption)))).
    rewrite (proj2 (proj2 (b2a_facts (sx3 (Byte.to_N c)) ltac:(assumption)))).
    exact IH.
Qed.

(** A non-empty file encodes to a non-empty string that starts with a
    character of the alphabet. *)
Lemma b64encode_head (data : bytes) :
  data <> [] ->
  exists c s, b64encode data = c :: s /\ (c =? pad) = false.
Proof.
  destruct data as [|a [|b [|c l]]]; [done|..]; intros _;
    pose proof (byte_checked _ (to_N_lt a)) as Ca; split_checks Ca;
    cbn [b64encode]; eexists _, _;
    (split; [reflexivity|]);
    exact (proj1 (b2a_facts (sx0 (Byte.to_N a)) ltac:(assumption))).
Qed.

Theorem b64decode_b64encode (data : bytes) :
  b64decode (b64encode data) = Some data.
Proof.
  unfold b64decode.
  assert (A : forallb (fun c => c <? 128) (b64encode data) = true).
  { pose proof (b64encode_printable data) as P.
    rewrite forallb_forall in *. intros c Hc. specialize (P c Hc).
    unfold printable in P. apply andb_true_iff in P as [_ P].
    apply N.leb_le in P. apply N.ltb_lt. lia. }
  rewrite A. unfold a2b_base64_strict.
  destruct data as [|a l] eqn:E; [reflexivity|]. rewrite <- E.
  destruct (b64encode_head data) as (c & s & Hc & Hp); [by rewrite E|].
  rewrite Hc, Hp, <- Hc. apply a2b_loop_encode.
Qed.

(** ** The request decoder *)

Section Decoder.

Import Inference Demo.

Variable sf_read : decoder.

Ltac run_handler :=
  unfold input_fn, mbind, M_bind, try_call, lift, raise, mret, M_ret;
  change (str_eqb application_json application_json) with true;
  cbn [negb].

(** [input_fn] on a body that parses to an object: the checks in their
    order, each with its error and the calls made so far. *)
Lemma input_fn_object (body : pystr) (pairs : list (pystr * json)) :
  loads body = Some (JObj pairs) ->
  input_fn sf_read body application_json
  = match dict_get audio_b64 pairs with
    | None => ([Call_json_loads], Raise (ValueError MissingField))
    | Some (JStr ((_ :: _) as s)) =>
      match b64decode s with
      | None =>
        ([Call_json_loads; Call_b64decode], Raise (ValueError InvalidBase64))
      | Some wav_bytes =>
        match sf_read wav_bytes with
        | None =>
          ([Call_json_loads; Call_b64decode; Call_sf_read],
           Raise (ValueError UndecodableWav))
        | Some (audio, sr) =>
          ([Call_json_loads; Call_b64decode; Call_sf_read],
           if negb (sr =? SR_REQUIRED)%Z
           then Raise (ValueError (SampleRateMismatch sr))
           else if negb (channels audio =? 1)%nat
           then Raise (ValueError NotMono)
           else if (length (column0 audio) =? 0)%nat
           then Raise (ValueError EmptyAudio)
           else Ret (column0 audio))
        end
      end
    | Some _ => ([Call_json_loads], Raise (ValueError InvalidField))
    end.
Proof.
  intros L. run_handler. rewrite L. cbn [py_in py_getitem].
  destruct (dict_get audio_b64 pairs) as [v|]; [|reflexivity].
  rewrite bool_decide_true by eauto. cbn [negb].
  destruct v as [| | |[|c s]| |]; try reflexivity.
  destruct (b64decode (c :: s)) as [wav_bytes|]; [|reflexivity].
  destruct (sf_read wav_bytes) as [[audio sr]|]; [|reflexivity].
  destruct (sr =? SR_REQUIRED)%Z; [|reflexivity].
  destruct (channels audio =? 1)%nat; [|reflexivity].
  cbn [negb]. destruct (length (column0 audio) =? 0)%nat; reflexivity.
Qed.

(** On every request whose body does not parse to a JSON value other than
    an object, [input_fn] ends as the specification's decoder does. *)
Lemma input_fn_refines_decode_spec (body content_type : pystr) :
  (forall v, loads body = Some v -> exists pairs, v = JObj pairs) ->
  snd (input_fn sf_read body content_type)
  = match decode_spec sf_read body content_type with
    | Ret samples => Ret samples
    | Raise e => Raise (ValueError e)
    end.
Proof.
  intros Hobj. unfold decode_spec.
  destruct (str_eqb content_type application_json) eqn:Ect.
  - apply bool_decide_eq_true in Ect as ->. cbn [negb].
    destruct (loads body) as [v|] eqn:L.
    + destruct (Hobj v eq_refl) as [pairs ->].
      rewrite (input_fn_object body pairs L).
      destruct (dict_get audio_b64 pairs) as [[| | |[|c s]| |]|]; try reflexivity.
      destruct (b64decode (c :: s)) as [wav_bytes|]; [|reflexivity].
      destruct (sf_read wav_bytes) as [[audio sr]|]; [|reflexivity].
      cbn [snd].
      destruct (sr =? SR_REQUIRED)%Z; [|reflexivity].
      destruct (channels audio =? 1)%nat; [|reflexivity].
      cbn [negb]. destruct (column0 audio); reflexivity.
    + run_handler. rewrite L. reflexivity.
  - unfold input_fn. rewrite Ect. reflexivity.
Qed.

(** C7. A body that is JSON but not an object is not rejected by one of the
    handler's errors: on [5] the membership test raises [TypeError], and on
    [["audio_b64"]] the test passes and the subscript raises [TypeError];
    the specification's decoder rejects both as malformed payloads. *)
Theorem input_fn_type_error_on_non_object :
  input_fn sf_read body_number application_json
  = ([Call_json_loads], Raise (TypeError NotIterable))
  /\ input_fn sf_read body_array application_json
     = ([Call_json_loads], Raise (TypeError BadIndex))
  /\ decode_spec sf_read body_number application_json = Raise InvalidJSON
  /\ decode_spec sf_read body_array application_json = Raise InvalidJSON.
Proof. repeat split; reflexivity. Qed.

(** C8. A non-empty WAV file that the audio decoder reads as N frames of one
    channel at 16000 Hz, N being positive, sent as the client sends it:
    [input_fn] returns the N samples, as a one-dimensional buffer. *)
Theorem input_fn_accepts_mono_16k (wav : bytes) (audio : sf_audio) :
  wav <> [] ->
  sf_read wav = Some (audio, 16000%Z) ->
  channels audio = 1%nat ->
  Forall (fun frame => length frame = channels audio) (frames audio) ->
  (0 < length (frames audio))%nat ->
  input_fn sf_read (Client.request_body wav) application_json
  = ([Call_json_loads; Call_b64decode; Call_sf_read], Ret (column0 audio))
  /\ length (column0 audio) = length (frames audio).
Proof.
  intros Hwav Hread Hch Hshape Hpos.
  assert (Hlen : length (column0 audio) = length (frames audio)).
  { unfold column0. rewrite Hch in Hshape. clear -Hshape.
    induction Hshape as [|fr l Hfr _ IH]; [reflexivity|].
    destruct fr as [|x fr]; [discriminate|]. cbn. by rewrite IH. }
  split; [|exact Hlen].
  assert (L : loads (Client.request_body wav)
              = Some (JObj [(audio_b64, JStr (b64encode wav))])).
  { unfold Client.request_body, Client.b64_encode_file.
    rewrite dumps_singleton_printable;
      [apply loads_dumps_singleton|reflexivity|apply b64encode_printable]. }
  rewrite (input_fn_object (Client.request_body wav) _ L).
  change (dict_get audio_b64 [(audio_b64, JStr (b64encode wav))])
    with (Some (JStr (b64encode wav))).
  destruct (b64encode_head wav Hwav) as (c & s & Hc & _).
  rewrite Hc, <- Hc, b64decode_b64encode, Hread.
  change (16000 =? SR_REQUIRED)%Z with true. rewrite Hch, Hlen.
  destruct (length (frames audio)); [lia|reflexivity].
Qed.


End Decoder.

Section Encoder.

Import Inference Demo.

(** C9. [output_fn] returns a JSON object whose only field, [text], is the
    transcript as it was given, and the content type [application/json]; the
    pair does not depend on the accept type, which only decides whether the
    warning is logged. *)
Theorem output_fn_wraps_transcript (pred accept : pystr) :
  let '(log, (body, content_type)) := output_fn pred accept in
  loads body = Some (JObj [(py "text", JStr pred)])
  /\ content_type = application_json
  /\ (body, content_type) = snd (output_fn pred application_json)
  /\ log = if bool_decide (accept = application_json) then [] else [accept_warning].
Proof.
  unfold output_fn. repeat split.
  - apply loads_dumps_singleton.
  - unfold str_eqb. by case_bool_decide.
Qed.

Lemma input_fn_accepts_mono_16k_witness :
  input_fn Wav.read_pcm16 (Client.request_body wav2) application_json
  = ([Call_json_loads; Call_b64decode; Call_sf_read], Ret (column0 audio2))
  /\ length (column0 audio2) = length (frames audio2).
Proof.
  apply (input_fn_accepts_mono_16k Wav.read_pcm16 wav2 audio2).
  - discriminate.
  - vm_compute. reflexivity.
  - reflexivity.
  - repeat constructor.
  - cbn. lia.
Defined.


End Encoder.

Import Fs Gzip Tarfile PrepareNemoModel Demo.

(** ** The artifact preparer *)

Section Preparer.

Context `{Library}.

(** The journal is not a file: what is read from the machine does not depend
    on it. *)
Lemma node_at_record (e : event) (w : world) (p : pystr) :
  node_at (record e w) p = node_at w p.
Proof. reflexivity. Qed.

Lemma validator_record (e : event) (w : world) (p : pystr) :
  _tar_has_model_nemo (record e w) p = _tar_has_model_nemo w p.
Proof. reflexivity. Qed.

(** C6. When the output archive path exists, [prepare_nemo_artifact] returns
    it at once: the files are untouched, and the only event is the log line
    of the skip; no directory is made, nothing is fetched, packed or
    validated. *)
Theorem prepare_returns_existing_archive
    (local_nemo_path model_name out_tar : pystr) (w : world) :
  os_path_exists w out_tar = true ->
  prepare_nemo_artifact local_nemo_path model_name out_tar w
  = (record Log_exists w, Ret out_tar)
  /\ files (record Log_exists w) = files w
  /\ journal (record Log_exists w) = journal w ++ [Log_exists].
Proof.
  intros E. unfold prepare_nemo_artifact, mbind, St_bind, gets.
  rewrite E. repeat split.
Qed.

(** On a directory the validator does not return: [tarfile.is_tarfile] is
    called outside the [try], and opening a directory raises. *)
Lemma validator_raises_on_directory (w : world) (path : pystr) st sz :
  node_at w path = Some (Dir st sz) ->
  _tar_has_model_nemo w path = Raise (OSError EISDIR).
Proof.
  intros E. unfold _tar_has_model_nemo, os_path_exists. rewrite E.
  rewrite bool_decide_true by eauto. 
  unfold is_tarfile, open_any, read_file. rewrite E. reflexivity.
Qed.

Lemma validator_raises_on_truncated_header (w : world) (path : pystr) st :
  node_at w path = Some (File st true [x1f; x8b; x08]) ->
  _tar_has_model_nemo w path = Raise EOFError.
Proof.
  intros E. unfold _tar_has_model_nemo, os_path_exists. rewrite E.
  rewrite bool_decide_true by eauto.
  unfold is_tarfile, open_any, read_file. rewrite E. reflexivity.
Qed.

(** Opening for writing either fails and changes nothing, or leaves an
    empty regular file at the path. *)
Lemma open_wb_cases (w w1 : world) (p : pystr) r :
  open_wb w p = (w1, r) ->
  (exists e, r = Raise e /\ w1 = w)
  \/ (r = Ret () /\ now w1 = now w /\ journal w1 = journal w /\
      exists st rd, node_at w1 p = Some (File st rd [])
                    /\ files w1 = <[p := File st rd []]> (files w)).
Proof.
  unfold open_wb. destruct p as [|c p']; [intros [= <- <-]; eauto|].
  destruct (node_at w (c :: p')) as [[st rd d|st sz]|] eqn:E.
  - intros [= <- <-]. right. repeat split. exists st, rd.
    unfold node_at in *. simpl files.
    destruct (all_slashes (c :: p')); [discriminate|].
    rewrite lookup_insert_eq. eauto.
  - intros [= <- <-]. eauto.
  - destruct (parent_check w (c :: p')) as [[]|e]; intros [= <- <-]; [|eauto].
    right. repeat split. eexists _, _. 
    unfold node_at in *. simpl files.
    destruct (all_slashes (c :: p')); [discriminate|].
    rewrite lookup_insert_eq. eauto.
Qed.

Lemma content_write_data (w : world) (p : pystr) st rd old (data : bytes) :
  node_at w p = Some (File st rd old) ->
  content (write_data w p data) p = Some data.
Proof.
  unfold content, write_data, node_at. destruct p as [|c p']; [discriminate|].
  destruct (all_slashes (c :: p')); [discriminate|].
  intros ->. simpl. rewrite lookup_insert_eq. reflexivity.
Qed.

(** Once the output file is open, the attempt leaves a gzip stream there,
    whether the archive was completed or not; the stream starts with the
    header written at the time of the call. *)
Lemma write_tar_gz_leaves_file (w : world) (out src arcname : pystr) filter :
  snd (open_wb w out) = Ret () ->
  exists written,
    content (fst (write_tar_gz w out src arcname filter)) out
    = Some (gzip_file (now w) out written).
Proof.
  unfold write_tar_gz. destruct (open_wb w out) as [w1 r] eqn:E. simpl.
  intros ->. apply open_wb_cases in E as [(e & [=] & _)|(_ & _ & _ & st & rd & N & _)].
  destruct (add w1 out src arcname filter) as [written [[]|e]]; simpl;
    eexists; eapply content_write_data; eassumption.
Qed.

Ltac refute_checks :=
  split;
  [ discriminate
  | intros (? & ? & ? & ? & ? & ? & ? & ? & ? & ? & ?); simplify_eq;
    repeat match goal with
           | H1 : ?a = _, H2 : ?a = _ |- _ => rewrite H1 in H2; simplify_eq
           end;
    try done; try lia ].


(** C3. The validator does not always return: on a path that names a
    directory it raises [IsADirectoryError], and on a file cut inside the
    gzip header it raises [EOFError]; both come from [tarfile.is_tarfile],
    which is called before the [try]. *)
Theorem validator_raises (w : world) (dir file : pystr) st sz st' :
  node_at w dir = Some (Dir st sz) ->
  node_at w file = Some (File st' true cut_header) ->
  _tar_has_model_nemo w dir = Raise (OSError EISDIR)
  /\ _tar_has_model_nemo w file = Raise EOFError.
Proof.
  intros D F. split.
  - eapply validator_raises_on_directory, D.
  - eapply validator_raises_on_truncated_header, F.
Qed.


(** C1. Two runs of the packaging step on the same machine, the checkpoint
    and every other file being the same and the destination absent, one
    second apart: both succeed, and the archives differ, whatever the
    compressor.  The time of the run is in the gzip header. *)
Theorem pack_twice_differs :
  snd (pack local_nemo_path out_tar (fresh 1700000000)) = Ret ()
  /\ snd (pack local_nemo_path out_tar (fresh 1700000001)) = Ret ()
  /\ exists a1 a2,
       content (fst (pack local_nemo_path out_tar (fresh 1700000000))) out_tar
       = Some a1
       /\ content (fst (pack local_nemo_path out_tar (fresh 1700000001))) out_tar
          = Some a2
       /\ a1 <> a2.
Proof.
  split; [vm_compute; reflexivity|]. split; [vm_compute; reflexivity|].
  destruct (write_tar_gz_leaves_file
              (record (Ev_pack local_nemo_path out_tar) (fresh 1700000000))
              out_tar local_nemo_path model_nemo _deterministic_filter)
    as [p1 E1]; [vm_compute; reflexivity|].
  destruct (write_tar_gz_leaves_file
              (record (Ev_pack local_nemo_path out_tar) (fresh 1700000001))
              out_tar local_nemo_path model_nemo _deterministic_filter)
    as [p2 E2]; [vm_compute; reflexivity|].
  eexists _, _. split; [exact E1|]. split; [exact E2|].
  unfold gzip_file. simpl now.
  set (h1 := gzip_header 1700000000 out_tar).
  set (h2 := gzip_header 1700000001 out_tar).
  vm_compute in h1, h2. subst h1 h2. simpl. discriminate.
Qed.

(** A path returned by a run that found no archive at the output path is the
    output path, and the validator has accepted what is there. *)
Lemma prepare_fresh_is_validated
    (local_nemo_path model_name out_tar p : pystr) (w w' : world) :
  os_path_exists w out_tar = false ->
  prepare_nemo_artifact local_nemo_path model_name out_tar w = (w', Ret p) ->
  p = out_tar /\ _tar_has_model_nemo w' out_tar = Ret true.
Proof.
  intros E. unfold prepare_nemo_artifact, mbind, St_bind, gets, throw, mret,
    St_ret, note, validate, reraise_as, import_nemo.
  rewrite E.
  destruct (makedirs (dirname local_nemo_path) w) as [w1 [[]|e1]];
    [|discriminate].
  destruct (makedirs (dirname out_tar) w1) as [w2 [[]|e2]]; [|discriminate].
  assert (K : forall w3,
    (if missing_or_empty w3 local_nemo_path
     then fun w : world => (w, Raise MissingCheckpoint)
     else
       fun w : world =>
         let (w', o) :=
           let (w', o) :=
             pack local_nemo_path out_tar (record Log_packaging w) in
           match o with
           | Ret a => (w', Ret a)
           | Raise _ => (w', Raise (RuntimeError FailedTar))
           end in
         match o with
         | Ret _ =>
           match
             _tar_has_model_nemo (record (Ev_validate out_tar) w') out_tar
           with
           | Ret a0 =>
             (if negb a0
              then fun w0 : world => (w0, Raise (RuntimeError VerificationFailed))
              else fun w0 : world => (record Log_ready w0, Ret out_tar))
               (record (Ev_validate out_tar) w')
           | Raise e => (record (Ev_validate out_tar) w', Raise e)
           end
         | Raise e => (w', Raise e)
         end) w3 = (w', Ret p) ->
    p = out_tar /\ _tar_has_model_nemo w' out_tar = Ret true).
  { intros w3. destruct (missing_or_empty w3 _); [discriminate|].
    destruct (pack _ _ _) as [w4 [[]|e4]]; [|discriminate].
    rewrite validator_record.
    destruct (_tar_has_model_nemo w4 out_tar) as [[|]|e5] eqn:V;
      [|discriminate..].
    intros [= <- <-]. split; [reflexivity|].
    rewrite !validator_record. exact V. }
  destruct (negb (os_path_exists w2 local_nemo_path)).
  - destruct nemo_importable; [|discriminate].
    destruct (download model_name local_nemo_path _) as [w3 [[]|e3]];
      [|discriminate].
    apply K.
  - apply K.
Qed.

(** The archive of a readable checkpoint: a function of the bytes of the
    checkpoint, of the name of the output file and of the time of the call;
    the owner, the group, the permissions and the date of the checkpoint,
    and the user who runs the packaging, are not in it. *)
Lemma pack_archive_bytes (local_nemo_path out_tar : pystr) (w : world) st data :
  local_nemo_path <> out_tar ->
  node_at w local_nemo_path = Some (File st true data) ->
  snd (open_wb (record (Ev_pack local_nemo_path out_tar) w) out_tar) = Ret () ->
  let member :=
    tobuf (canonical_member (Z.of_nat (length data)))
    ++ data ++ padding (length data) BLOCKSIZE in
  snd (pack local_nemo_path out_tar w) = Ret ()
  /\ content (fst (pack local_nemo_path out_tar w)) out_tar
     = Some (gzip_file (now w) out_tar
               (member ++ end_of_archive (length member))).
Proof.
  intros Hne Hsrc Hopen member. unfold pack, write_tar_gz.
  destruct (open_wb _ out_tar) as [w1 r] eqn:E. simpl in Hopen. subst r.
  apply open_wb_cases in E
    as [(e & [=] & _)|(_ & _ & _ & st1 & rd1 & N1 & F1)].
  assert (Hsrc1 : node_at w1 local_nemo_path = Some (File st true data)).
  { revert Hsrc. unfold node_at. destruct local_nemo_path; [done|].
    destruct (all_slashes _); [done|]. rewrite F1. simpl files.
    by rewrite lookup_insert_ne. }
  unfold add. unfold str_eqb. rewrite bool_decide_false by done.
  unfold gettarinfo, read_file. rewrite Hsrc1.
  change (isreg (_deterministic_filter _)) with true. cbv iota.
  simpl snd. simpl fst. split; [reflexivity|].
  erewrite content_write_data by exact N1. reflexivity.
Qed.

(** An empty file is rejected, whatever the library makes of it: when
    [tarfile] takes it for an archive of some kind, opening it as a gzip
    stream fails inside the [try]. *)
Lemma validator_rejects_empty_file (w : world) (path : pystr) st :
  node_at w path = Some (File st true []) ->
  _tar_has_model_nemo w path = Ret false.
Proof.
  intros E. unfold _tar_has_model_nemo, os_path_exists. rewrite E.
  rewrite bool_decide_true by eauto. cbn [negb].
  assert (G : gzopen [] = Raise ReadError) by reflexivity.
  unfold is_tarfile, open_any, inspect, open_gz, read_file. rewrite E, G.
  destruct (bz2_tar [] || xz_tar []); reflexivity.
Qed.

(** C2. An empty file sits at the output path: [prepare_nemo_artifact]
    returns the path, and the validator rejects what is there. *)
Theorem prepare_returns_unvalidated_archive :
  let '(w', r) :=
    prepare_nemo_artifact local_nemo_path model_name out_tar stale in
  r = Ret out_tar /\ _tar_has_model_nemo w' out_tar = Ret false.
Proof.
  assert (E : prepare_nemo_artifact local_nemo_path model_name out_tar stale
              = (record Log_exists stale, Ret out_tar)) by reflexivity.
  rewrite E. split; [reflexivity|].
  apply (validator_rejects_empty_file _ _ dev_stat). reflexivity.
Qed.

End Preparer.

Lemma prepare_returns_existing_archive_witness :
  os_path_exists stale out_tar = true
  /\ @prepare_nemo_artifact stored_library local_nemo_path model_name out_tar
       stale
     = (record Log_exists stale, Ret out_tar).
Proof.
  assert (E : os_path_exists stale out_tar = true) by (vm_compute; reflexivity).
  split; [exact E|].
  exact (proj1 (@prepare_returns_existing_archive stored_library
                  local_nemo_path model_name out_tar stale E)).
Defined.

Lemma validator_raises_witness :
  @_tar_has_model_nemo stored_library
    (put (fresh 1700000000) out_tar cut_header) (py "artifacts")
  = Raise (OSError EISDIR)
  /\ @_tar_has_model_nemo stored_library
       (put (fresh 1700000000) out_tar cut_header) out_tar
     = Raise EOFError.
Proof.
  eapply (@validator_raises stored_library); vm_compute; reflexivity.
Defined.





(** ** The request decoder, on every request *)

Section Requests.

Import Inference Demo.

Variable sf_read : decoder.

Ltac handler_steps :=
  unfold input_fn, mbind, M_bind, try_call, lift, raise, mret, M_ret;
  change (str_eqb application_json application_json) with true;
  cbn [negb].

Lemma array_holds_key (k : pystr) (items : list json) :
  existsb (fun x => match x with JStr s => str_eqb s k | _ => false end) items
  = true
  <-> JStr k ∈ items.
Proof.
  rewrite existsb_exists. split.
  - intros (x & Hx & E). destruct x; try discriminate.
    apply bool_decide_eq_true in E as ->. by apply list_elem_of_In.
  - intros Hin. exists (JStr k). split; [by apply list_elem_of_In|].
    by apply bool_decide_eq_true.
Qed.

(** A body that parses to something else than an object: the membership
    test decides. *)
Lemma input_fn_non_object (body : pystr) (v : json) :
  loads body = Some v ->
  input_fn sf_read body application_json
  = match v with
    | JObj _ => input_fn sf_read body application_json
    | JArr items =>
      ([Call_json_loads],
       if existsb (fun x => match x with JStr s => str_eqb s audio_b64
                                    | _ => false end) items
       then Raise (TypeError BadIndex) else Raise (ValueError MissingField))
    | JStr s =>
      ([Call_json_loads],
       if str_contains audio_b64 s
       then Raise (TypeError BadIndex) else Raise (ValueError MissingField))
    | JNull | JBool _ | JNum _ =>
      ([Call_json_loads], Raise (TypeError NotIterable))
    end.
Proof.
  intros L. destruct v as [| | |s|items|pairs]; try reflexivity;
    handler_steps; rewrite L; cbn [py_in py_getitem]; try reflexivity.
  - destruct (str_contains audio_b64 s); reflexivity.
  - destruct (existsb _ items); reflexivity.
Qed.

Lemma input_fn_content_type (body content_type : pystr) :
  content_type <> application_json ->
  input_fn sf_read body content_type
  = ([], Raise (ValueError UnsupportedContentType)).
Proof.
  intros Hne. unfold input_fn, str_eqb. rewrite bool_decide_false by done.
  reflexivity.
Qed.

Lemma input_fn_unparsed (body : pystr) :
  loads body = None ->
  input_fn sf_read body application_json
  = ([Call_json_loads], Raise (ValueError InvalidJSON)).
Proof. intros L. handler_steps. rewrite L. reflexivity. Qed.



(** X3. The library is called in one order, and never further than the
    checks allow: with another content type nothing is parsed, and a request
    that is answered has gone through [json.loads], [b64decode] and
    [sf.read]. *)
Theorem input_fn_call_order (body content_type : pystr) :
  let '(calls, r) := input_fn sf_read body content_type in
  calls `prefix_of` [Call_json_loads; Call_b64decode; Call_sf_read]
  /\ (calls = [] <-> content_type <> application_json)
  /\ (forall samples, r = Ret samples ->
      calls = [Call_json_loads; Call_b64decode; Call_sf_read]).
Proof.
  destruct (decide (content_type = application_json)) as [->|Hne];
    [|rewrite input_fn_content_type by done;
      repeat split; [by eexists|done|discriminate]].
  assert (P1 : [Call_json_loads]
               `prefix_of` [Call_json_loads; Call_b64decode; Call_sf_read])
    by (by eexists [_; _]).
  assert (P2 : [Call_json_loads; Call_b64decode]
               `prefix_of` [Call_json_loads; Call_b64decode; Call_sf_read])
    by (by eexists [_]).
  assert (P3 : [Call_json_loads; Call_b64decode; Call_sf_read]
               `prefix_of` [Call_json_loads; Call_b64decode; Call_sf_read])
    by (by eexists []).
  destruct (loads body) as [v|] eqn:L;
    [|rewrite input_fn_unparsed by done;
      repeat split; [done|discriminate|done|discriminate]].
  destruct v as [| | |s|items|pairs];
    try (rewrite (input_fn_non_object body _ L);
         repeat split; [done|discriminate|done|
           try discriminate;
           match goal with |- context [if ?b then _ else _] => destruct b end;
           discriminate]).
  rewrite (input_fn_object sf_read body pairs L).
  destruct (dict_get audio_b64 pairs) as [[| | |[|c s]| |]|];
    try (repeat split; [done|discriminate|done|discriminate]).
  destruct (b64decode (c :: s)) as [wav|];
    [|repeat split; [done|discriminate|done|discriminate]].
  destruct (sf_read wav) as [[audio sr]|];
    repeat split; done || discriminate.
Qed.

(** ** Strict base64 *)

(** One character outside the alphabet, wherever it stands, makes the strict
    decoder fail. *)
Lemma a2b_loop_foreign (c : N) (s : pystr) :
  c ∈ s -> c <> pad -> a2b c = None ->
  forall quad_pos leftchar pads started,
    a2b_loop s quad_pos leftchar pads started = None.
Proof.
  intros Hin Hpad Hc. induction s as [|ch rest IH]; [by apply elem_of_nil in Hin|].
  intros quad_pos leftchar pads started. cbn [a2b_loop].
  destruct (ch =? pad) eqn:Ep.
  - apply N.eqb_eq in Ep as ->.
    apply elem_of_cons in Hin as [->|Hin]; [done|].
    destruct ((2 <=? quad_pos) && (4 <=? quad_pos + (pads + 1))).
    + destruct rest; [by apply elem_of_nil in Hin|reflexivity].
    + apply IH, Hin.
  - apply elem_of_cons in Hin as [<-|Hin]; [by rewrite Hc|].
    destruct (a2b ch) as [v|]; [|reflexivity].
    destruct started; [reflexivity|].
    destruct (quad_pos =? 0); [apply IH, Hin|].
    destruct (quad_pos =? 1); [by rewrite IH|].
    destruct (quad_pos =? 2); by rewrite IH.
Qed.

Lemma b64decode_foreign (c : N) (s : pystr) :
  c ∈ s -> c <> pad -> a2b c = None -> b64decode s = None.
Proof.
  intros Hin Hpad Hc. unfold b64decode, a2b_base64_strict.
  destruct (forallb _ s); [|reflexivity].
  destruct s as [|ch rest]; [by apply elem_of_nil in Hin|].
  destruct (ch =? pad); [reflexivity|].
  by apply (a2b_loop_foreign c).
Qed.


End Requests.

(** ** UTF-8: decoding undoes encoding *)

Lemma to_N_byte_of_N (n : N) : n < 256 -> Byte.to_N (byte_of_N n) = n.
Proof.
  intros Hn. unfold byte_of_N. rewrite N.mod_small by done.
  destruct (Byte.of_N n) as [b|] eqn:E.
  - by apply Byte.to_of_N.
  - apply Byte.of_N_None_iff in E. lia.
Qed.

Ltac decide_test :=
  match goal with
  | |- context [N.ltb ?a ?b] =>
    first [ rewrite (proj2 (N.ltb_lt a b)) by lia
          | rewrite (proj2 (N.ltb_ge a b)) by lia ]
  | |- context [N.leb ?a ?b] =>
    first [ rewrite (proj2 (N.leb_le a b)) by lia
          | rewrite (proj2 (N.leb_gt a b)) by lia ]
  | |- context [N.eqb ?a ?b] =>
    first [ rewrite (proj2 (N.eqb_eq a b)) by lia
          | rewrite (proj2 (N.eqb_neq a b)) by lia ]
  end.

Lemma decode_encode_char (c : N) (b : bytes) (rest : list N) :
  Utf8.encode_char c = Some b ->
  Utf8.decode_points (map Byte.to_N b ++ rest)
  = cons c <$> Utf8.decode_points rest.
Proof.
  unfold Utf8.encode_char.
  destruct (c <? 128) eqn:E1.
  { apply N.ltb_lt in E1. intros [= <-]. cbn [map app].
    rewrite to_N_byte_of_N by lia. cbn [Utf8.decode_points].
    by decide_test. }
  apply N.ltb_ge in E1.
  assert (D1 : c = 64 * (c / 64) + c mod 64) by (apply N.div_mod; done).
  assert (M1 : c mod 64 < 64) by (apply N.mod_lt; done).
  assert (D2 : c / 64 = 64 * (c / 64 / 64) + c / 64 mod 64)
    by (apply N.div_mod; done).
  assert (M2 : c / 64 mod 64 < 64) by (apply N.mod_lt; done).
  assert (D3 : c / 64 / 64 = 64 * (c / 64 / 64 / 64) + c / 64 / 64 mod 64)
    by (apply N.div_mod; done).
  assert (M3 : c / 64 / 64 mod 64 < 64) by (apply N.mod_lt; done).
  replace (c / 4096) with (c / 64 / 64) by (by rewrite N.Div0.div_div).
  replace (c / 262144) with (c / 64 / 64 / 64) by (by rewrite !N.Div0.div_div).
  set (q1 := c / 64) in *. set (r1 := c mod 64) in *.
  set (q2 := q1 / 64) in *. set (r2 := q1 mod 64) in *.
  set (q3 := q2 / 64) in *. set (r3 := q2 mod 64) in *.
  destruct (c <? 2048) eqn:E2.
  { apply N.ltb_lt in E2. intros [= <-]. cbn [map app].
    rewrite !to_N_byte_of_N by lia. cbn [Utf8.decode_points].
    unfold Utf8.is_cont. repeat decide_test. cbn [andb].
    do 2 f_equal. lia. }
  apply N.ltb_ge in E2.
  destruct (c <? 65536) eqn:E3.
  { apply N.ltb_lt in E3.
    destruct ((55296 <=? c) && (c <=? 57343)) eqn:Es; [discriminate|].
    intros [= <-]. cbn [map app].
    rewrite !to_N_byte_of_N by lia. cbn [Utf8.decode_points].
    unfold Utf8.is_cont.
    apply andb_false_iff in Es as [Es%N.leb_gt|Es%N.leb_gt];
      destruct (N.eq_dec q2 0); destruct (N.eq_dec q2 13);
        repeat decide_test; cbn [andb negb]; do 2 f_equal; lia. }
  apply N.ltb_ge in E3.
  destruct (c <? 1114112) eqn:E4; [|discriminate].
  apply N.ltb_lt in E4. intros [= <-]. cbn [map app].
  rewrite !to_N_byte_of_N by lia. cbn [Utf8.decode_points].
  unfold Utf8.is_cont.
  destruct (N.eq_dec q3 0); destruct (N.eq_dec q3 4);
    repeat decide_test; cbn [andb negb]; do 2 f_equal; lia.
Qed.

Lemma decode_encode (s : pystr) (b : bytes) :
  Utf8.encode s = Some b -> Utf8.decode b = Some s.
Proof.
  unfold Utf8.decode. revert b.
  induction s as [|c s IH]; intros b; cbn [Utf8.encode]; [by intros [= <-]|].
  destruct (Utf8.encode_char c) as [bc|] eqn:Ec; [|discriminate].
  destruct (Utf8.encode s) as [bs|]; [|discriminate].
  intros [= <-]. rewrite map_app, (decode_encode_char c bc _ Ec), (IH bs eq_refl).
  reflexivity.
Qed.

Lemma encode_printable (s : pystr) :
  forallb printable s = true -> Utf8.encode s = Some (map byte_of_N s).
Proof.
  induction s as [|c s IH]; [reflexivity|]. cbn [forallb map Utf8.encode].
  intros [Pc Ps]%andb_true_iff. rewrite (IH Ps).
  unfold printable in Pc. apply andb_true_iff in Pc as [_ Pc%N.leb_le].
  unfold Utf8.encode_char. by decide_test.
Qed.

(** ** What the client sends *)

Lemma hexdigit_printable (n : N) : n < 16 -> printable (hexdigit n) = true.
Proof. apply (N_forall_below (fun n => printable (hexdigit n)) 16). reflexivity. Qed.

Lemma hex4_digits_printable (n : N) : forallb printable (hex4_digits n) = true.
Proof.
  unfold hex4_digits. cbn [forallb].
  rewrite !hexdigit_printable by (apply N.mod_lt; done). reflexivity.
Qed.

Lemma escape_ascii_is_printable (c : N) : forallb printable (escape_ascii c) = true.
Proof.
  unfold escape_ascii.
  repeat match goal with
         | |- context [if ?b then _ else _] =>
           destruct b eqn:?; try reflexivity
         end;
    rewrite ?forallb_app, ?hex4_digits_printable; try reflexivity.
  cbn [forallb]. by rewrite andb_true_r.
Qed.

Lemma encode_basestring_ascii_printable (s : pystr) :
  forallb printable (encode_basestring_ascii s) = true.
Proof.
  unfold encode_basestring_ascii. rewrite !forallb_app.
  assert (E : forallb printable (concat (map escape_ascii s)) = true).
  { induction s as [|c s IH]; [reflexivity|]. cbn [map concat].
    by rewrite forallb_app, escape_ascii_is_printable, IH. }
  by rewrite E.
Qed.

Lemma dumps_singleton_ascii (k v : pystr) :
  forallb printable (dumps_singleton true k v) = true.
Proof.
  unfold dumps_singleton.
  by rewrite !forallb_app, !encode_basestring_ascii_printable.
Qed.

(** The characters of an encoding: the padding character, or one of the
    alphabet. *)
Lemma b64encode_chars (data : bytes) :
  Forall (fun c => c = pad \/ exists i, i < 64 /\ c = b2a i) (b64encode data).
Proof.
  induction data as [|a|a b|a b c l IH] using list_ind3.
  - constructor.
  - pose proof (byte_checked _ (to_N_lt a)) as Ca. split_checks Ca.
    cbn [b64encode]. repeat (constructor; [by eauto|]). constructor.
  - pose proof (byte_checked _ (to_N_lt a)) as Ca. split_checks Ca.
    pose proof (byte_checked _ (to_N_lt b)) as Cb. split_checks Cb.
    pose proof (pair_checked _ _ (to_N_lt a) (to_N_lt b)) as Cab. split_checks Cab.
    cbn [b64encode]. repeat (constructor; [by eauto|]). constructor.
  - pose proof (byte_checked _ (to_N_lt a)) as Ca. split_checks Ca.
    pose proof (byte_checked _ (to_N_lt c)) as Cc. split_checks Cc.
    pose proof (pair_checked _ _ (to_N_lt a) (to_N_lt b)) as Cab. split_checks Cab.
    pose proof (pair_checked _ _ (to_N_lt b) (to_N_lt c)) as Cbc. split_checks Cbc.
    cbn [b64encode]. repeat (constructor; [by eauto|]). exact IH.
Qed.

Lemma b64_char_plain (c : N) :
  c = pad \/ (exists i, i < 64 /\ c = b2a i) -> escape_ascii c = [c].
Proof.
  intros [->|(i & Hi & ->)]; [reflexivity|].
  pose proof (N_forall_below
    (fun i => bool_decide (escape_ascii (b2a i) = [b2a i])) 64 eq_refl i Hi) as F.
  by apply bool_decide_eq_true in F.
Qed.

Lemma b64encode_plain (data : bytes) :
  concat (map escape_ascii (b64encode data)) = b64encode data.
Proof.
  pose proof (b64encode_chars data) as F.
  induction F as [|c l Hc _ IH]; [reflexivity|].
  cbn [map concat]. by rewrite (b64_char_plain c Hc), IH.
Qed.

Lemma b64encode_length (data : bytes) :
  length (b64encode data) = (4 * ((length data + 2) / 3))%nat.
Proof.
  induction data as [|a|a b|a b c l IH] using list_ind3; try reflexivity.
  cbn [b64encode length]. rewrite IH.
  replace (S (S (S (length l))) + 2)%nat with (length l + 2 + 1 * 3)%nat by lia.
  rewrite Nat.div_add by done. lia.
Qed.

Lemma request_body_text (wav : bytes) :
  Client.request_body wav
  = py "{" ++ dquote ++ Inference.audio_b64 ++ dquote ++ py ": "
    ++ dquote ++ b64encode wav ++ dquote ++ py "}".
Proof.
  unfold Client.request_body, Client.b64_encode_file, dumps_singleton,
    encode_basestring_ascii.
  rewrite b64encode_plain.
  change (concat (map escape_ascii (py "audio_b64"))) with Inference.audio_b64.
  by rewrite <- !app_assoc.
Qed.

Lemma request_body_encodes (wav : bytes) :
  Utf8.encode (Client.request_body wav)
  = Some (map byte_of_N (Client.request_body wav)).
Proof. apply encode_printable, dumps_singleton_ascii. Qed.

(** X5. Whatever the file holds, the body the client sends is printable
    ASCII, so that its UTF-8 encoding never fails and has one byte for each
    character; its length is 17 characters more than the base64 text, four
    characters for every three bytes of the file or part of them. *)
Theorem request_body_is_ascii (wav : bytes) :
  forallb printable (Client.request_body wav) = true
  /\ Utf8.encode (Client.request_body wav)
     = Some (map byte_of_N (Client.request_body wav))
  /\ length (Client.request_body wav) = (17 + 4 * ((length wav + 2) / 3))%nat.
Proof.
  split; [apply dumps_singleton_ascii|]. split; [apply request_body_encodes|].
  rewrite request_body_text, !length_app, b64encode_length. cbn. lia.
Qed.

Lemma loads_request_body (wav : bytes) :
  loads (Client.request_body wav)
  = Some (JObj [(Inference.audio_b64, JStr (b64encode wav))]).
Proof.
  unfold Client.request_body, Client.b64_encode_file.
  rewrite dumps_singleton_printable;
    [apply loads_dumps_singleton|reflexivity|apply b64encode_printable].
Qed.

Section Transport.

Import Inference.

Variable sf_read : decoder.

(** X6. The bytes of the client's file reach the audio decoder as they are:
    on the body the client builds, [input_fn] passes the JSON, field and
    base64 checks, and its result is decided by what [sf.read] makes of the
    file.  An empty file is the exception: its base64 text is empty, and the
    request is rejected for the field. *)
Theorem client_request_reaches_decoder (wav : bytes) :
  input_fn sf_read (Client.request_body wav) application_json
  = match wav with
    | [] => ([Call_json_loads], Raise (ValueError InvalidField))
    | _ :: _ =>
      ([Call_json_loads; Call_b64decode; Call_sf_read],
       match sf_read wav with
       | None => Raise (ValueError UndecodableWav)
       | Some (audio, sr) =>
         if negb (sr =? SR_REQUIRED)%Z
         then Raise (ValueError (SampleRateMismatch sr))
         else if negb (channels audio =? 1)%nat
         then Raise (ValueError NotMono)
         else if (length (column0 audio) =? 0)%nat
         then Raise (ValueError EmptyAudio)
         else Ret (column0 audio)
       end)
    end.
Proof.
  rewrite (input_fn_object sf_read _ _ (loads_request_body wav)).
  change (dict_get audio_b64 [(audio_b64, JStr (b64encode wav))])
    with (Some (JStr (b64encode wav))).
  destruct wav as [|a l] eqn:E; [reflexivity|]. rewrite <- E.
  destruct (b64encode_head wav) as (c & s & Hc & _); [by rewrite E|].
  rewrite Hc, <- Hc, b64decode_b64encode.
  destruct (sf_read wav) as [[audio sr]|]; reflexivity.
Qed.

End Transport.

(** ** The response *)

Lemma escape_plain (c : N) : 32 <= c -> c <> 34 -> c <> 92 -> escape c = [c].
Proof. intros H1 H2 H3. unfold escape. by repeat decide_test. Qed.

(** X7. A transcript without a quote, a backslash or a control character is
    in the body as it is, between the quotes: characters outside ASCII are
    not escaped. *)
Theorem output_fn_body_verbatim (pred accept : pystr) :
  Forall (fun c => 32 <= c /\ c <> 34 /\ c <> 92) pred ->
  fst (snd (Inference.output_fn pred accept))
  = py "{" ++ dquote ++ py "text" ++ dquote ++ py ": "
    ++ dquote ++ pred ++ dquote ++ py "}".
Proof.
  intros F. unfold Inference.output_fn, dumps_singleton, encode_basestring.
  cbn [fst snd].
  assert (E : concat (map escape pred) = pred).
  { induction F as [|c l (H1 & H2 & H3) _ IH]; [reflexivity|].
    cbn [map concat]. by rewrite escape_plain, IH. }
  rewrite E. change (concat (map escape (py "text"))) with (py "text").
  by rewrite <- !app_assoc.
Qed.

Section Response.

Import Invoke.

Variable B : Type.

(** X8. What [invoke_parakeet] returns is a JSON object with a [text] key,
    the value under it being the last thing logged; any other response ends
    in an exception. *)
Theorem invoke_parakeet_returns_text
    (boto3_client : outcome B (request -> outcome B bytes))
    (w : world) (endpoint_name wav_path : pystr)
    (log : list log_record) (output : json) :
  invoke_parakeet B boto3_client w endpoint_name wav_path = (log, Ret output) ->
  exists pairs transcript,
    output = JObj pairs
    /\ dict_get (py "text") pairs = Some transcript
    /\ last log = Some (Info_received transcript).
Proof.
  unfold invoke_parakeet.
  destruct boto3_client as [invoke_endpoint|e]; [|discriminate].
  destruct (read_file w wav_path) as [content|e]; [|discriminate].
  destruct (Utf8.encode _) as [body|]; [|discriminate].
  destruct (invoke_endpoint _) as [raw|e]; [|discriminate].
  destruct (Utf8.decode raw) as [text|]; [|discriminate].
  destruct (loads text) as [v|]; [|discriminate].
  destruct (Inference.py_in (py "text") v) as [[|]|e] eqn:Hin; [|discriminate..].
  destruct (Inference.py_getitem v (py "text")) as [transcript|e] eqn:Hget;
    [|discriminate].
  intros [= <- <-].
  destruct v as [| | |s|items|pairs]; try discriminate.
  exists pairs, transcript. split; [reflexivity|]. split; [|reflexivity].
  cbn [Inference.py_getitem] in Hget.
  destruct (dict_get (py "text") pairs); [by injection Hget as ->|discriminate].
Qed.

(** X9. When the endpoint answers the client's request with the body
    [output_fn] made for a transcript, in UTF-8, [invoke_parakeet] returns
    the object whose [text] is that transcript. *)
Theorem invoke_parakeet_reads_output_fn
    (invoke_endpoint : request -> outcome B bytes)
    (w : world) (endpoint_name wav_path : pystr)
    (content raw : bytes) (pred accept : pystr) :
  read_file w wav_path = Ret content ->
  Utf8.encode (fst (snd (Inference.output_fn pred accept))) = Some raw ->
  invoke_endpoint
    {| EndpointName := endpoint_name;
       ContentType := Inference.application_json;
       Accept := Inference.application_json;
       Body := map byte_of_N (Client.request_body content) |} = Ret raw ->
  invoke_parakeet B (Ret invoke_endpoint) w endpoint_name wav_path
  = ([Info_encoding wav_path; Info_invoking endpoint_name;
      Info_received (JStr pred)],
     Ret (JObj [(py "text", JStr pred)])).
Proof.
  intros R E A. unfold invoke_parakeet. rewrite R.
  rewrite request_body_encodes, A.
  rewrite (decode_encode _ _ E).
  unfold Inference.output_fn. cbn [fst snd].
  rewrite loads_dumps_singleton. reflexivity.
Qed.

End Response.

(** ** [create_sagemaker_role] *)

Section Roles.

Import CreateRole.

Variable S : Type.
Variable boto3_client : outcome iam_error (iam_client S).

(** X10. When [create_sagemaker_role] returns, the value is the
    [["Role"]["Arn"]] of a response of the service: of [create_role], the
    policy having been attached after it, or of [get_role], the service
    having answered that the role exists.  In the second case no policy has
    been attached by this call. *)
Theorem role_arn_comes_from_the_service
    (role_name : pystr) (s s' : S) (t : list call) (arn : json) :
  create_sagemaker_role S boto3_client role_name s = (s', (t, Ret arn)) ->
  exists iam response,
    boto3_client = Ret iam
    /\ role_arn response = Ret arn
    /\ ((exists s1,
           create_role iam role_name (JsonEncoder.dumps trust_policy)
             description s = (s1, Ret response)
           /\ attach_role_policy iam role_name policy_arn s1 = (s', Ret ())
           /\ t = [Call_create_role role_name (JsonEncoder.dumps trust_policy)
                     description;
                   Call_attach_role_policy role_name policy_arn])
        \/ (exists s1,
              get_role iam role_name s1 = (s', Ret response)
              /\ ((create_role iam role_name (JsonEncoder.dumps trust_policy)
                     description s
                   = (s1, Raise EntityAlreadyExistsException)
                   /\ t = [Call_create_role role_name
                             (JsonEncoder.dumps trust_policy) description;
                           Call_get_role role_name])
                  \/ (exists s0 created,
                        create_role iam role_name
                          (JsonEncoder.dumps trust_policy) description s
                        = (s0, Ret created)
                        /\ attach_role_policy iam role_name policy_arn s0
                           = (s1, Raise EntityAlreadyExistsException)
                        /\ t = [Call_create_role role_name
                                  (JsonEncoder.dumps trust_policy) description;
                                Call_attach_role_policy role_name policy_arn;
                                Call_get_role role_name])))).
Proof.
  unfold create_sagemaker_role, create_and_attach.
  destruct boto3_client as [iam|e]; [|discriminate].
  destruct (create_role iam _ _ _ s) as [s0 [created|e]] eqn:C.
  - destruct (attach_role_policy iam _ _ s0) as [s1 [[]|e]] eqn:A.
    + destruct (role_arn created) as [a|e] eqn:R; [|discriminate].
      intros [= <- <- <-]. exists iam, created.
      split; [done|]. split; [done|]. left. by exists s0.
    + destruct e as [|code]; [|discriminate].
      destruct (get_role iam role_name s1) as [s2 [response|e]] eqn:G;
        [|discriminate].
      destruct (role_arn response) as [a|e] eqn:R; [|discriminate].
      intros [= <- <- <-]. exists iam, response.
      split; [done|]. split; [done|]. right. exists s1.
      split; [done|]. right. by exists s0, created.
  - destruct e as [|code]; [|discriminate].
    destruct (get_role iam role_name s0) as [s2 [response|e]] eqn:G;
      [|discriminate].
    destruct (role_arn response) as [a|e] eqn:R; [|discriminate].
    intros [= <- <- <-]. exists iam, response.
    split; [done|]. split; [done|]. right. exists s0.
    split; [done|]. by left.
Qed.

(** X11. [RuntimeError] is raised exactly when the creation fails with
    something else than [EntityAlreadyExistsException]: [create_role] or
    [attach_role_policy] raises, or the response of [create_role] has no
    [["Role"]["Arn"]].  A failure of the retrieval, and one of the making of
    the client, are not wrapped. *)
Theorem runtime_error_iff_creation_fails (role_name name : pystr) (s : S) :
  snd (snd (create_sagemaker_role S boto3_client role_name s))
  = Raise (RuntimeError name)
  <-> name = role_name
      /\ exists iam,
           boto3_client = Ret iam
           /\ match create_role iam role_name (JsonEncoder.dumps trust_policy)
                      description s with
              | (_, Raise e) => e <> EntityAlreadyExistsException
              | (s1, Ret response) =>
                match attach_role_policy iam role_name policy_arn s1 with
                | (_, Raise e) => e <> EntityAlreadyExistsException
                | (_, Ret _) => exists e, role_arn response = Raise e
                end
              end.
Proof.
  unfold create_sagemaker_role, create_and_attach.
  destruct boto3_client as [iam|e];
    [|split; [discriminate|intros (_ & iam & [=] & _)]].
  assert (K : forall P : iam_client S -> Prop,
            (exists iam', Ret (E := iam_error) iam = Ret iam' /\ P iam')
            <-> P iam).
  { intros P. split; [intros (? & [= <-] & ?); done|eauto]. }
  rewrite K. clear K.
  destruct (create_role iam _ _ _ s) as [s0 [created|e]].
  - destruct (attach_role_policy iam _ _ s0) as [s1 [[]|e]].
    + destruct (role_arn created) as [a|e].
      * cbn [snd]. split; [discriminate|intros (_ & e & [=])].
      * cbn [snd]. split; [intros [= <-]; eauto|by intros [-> _]].
    + destruct e as [|code].
      * destruct (get_role iam role_name s1) as [s2 [response|e]];
          [destruct (role_arn response)|]; cbn [snd];
          (split; [discriminate|by intros [_ ?]]).
      * cbn [snd]. split; [by intros [= <-]|by intros [-> _]].
  - destruct e as [|code].
    + destruct (get_role iam role_name s0) as [s2 [response|e]];
        [destruct (role_arn response)|]; cbn [snd];
        (split; [discriminate|by intros [_ ?]]).
    + cbn [snd]. split; [by intros [= <-]|by intros [-> _]].
Qed.

End Roles.

(** ** [gzip]: what is written is read back *)

Lemma to_N_byte_of_N_mod (n : N) : Byte.to_N (byte_of_N n) = n mod 256.
Proof.
  unfold byte_of_N.
  destruct (Byte.of_N (n mod 256)) as [b|] eqn:E.
  - by apply Byte.to_of_N.
  - apply Byte.of_N_None_iff in E.
    pose proof (N.mod_lt n 256 ltac:(done)). lia.
Qed.

Lemma of_le_le32 (n : N) : of_le (le32 n) = n mod 4294967296.
Proof.
  unfold of_le, le32. cbn [foldr]. rewrite !to_N_byte_of_N_mod.
  rewrite !N.shiftr_div_pow2.
  change (2 ^ 8) with 256. change (2 ^ 16) with (256 * 256).
  change (2 ^ 24) with (256 * 256 * 256).
  rewrite <- !N.Div0.div_div.
  pose proof (N.div_mod n 256 ltac:(done)).
  pose proof (N.mod_lt n 256 ltac:(done)).
  pose proof (N.div_mod (n / 256) 256 ltac:(done)).
  pose proof (N.mod_lt (n / 256) 256 ltac:(done)).
  pose proof (N.div_mod (n / 256 / 256) 256 ltac:(done)).
  pose proof (N.mod_lt (n / 256 / 256) 256 ltac:(done)).
  pose proof (N.div_mod (n / 256 / 256 / 256) 256 ltac:(done)).
  pose proof (N.mod_lt (n / 256 / 256 / 256) 256 ltac:(done)).
  apply (N.mod_unique _ _ (n / 256 / 256 / 256 / 256)); lia.
Qed.

Lemma lxor_below (a b n : N) : a < 2 ^ n -> b < 2 ^ n -> N.lxor a b < 2 ^ n.
Proof.
  intros Ha Hb.
  destruct (N.eq_dec (N.lxor a b) 0) as [->|Hx]; [lia|].
  destruct (N.eq_dec a 0) as [->|Ha0]; [by rewrite N.lxor_0_l|].
  destruct (N.eq_dec b 0) as [->|Hb0]; [by rewrite N.lxor_0_r|].
  apply N.log2_lt_pow2; [lia|].
  pose proof (N.log2_lxor a b).
  apply N.log2_lt_pow2 in Ha; [|lia]. apply N.log2_lt_pow2 in Hb; [|lia].
  lia.
Qed.

Lemma crc_bits_below (n : nat) (c : N) :
  c < 2 ^ 32 -> crc_bits n c < 2 ^ 32.
Proof.
  revert c. induction n as [|n IH]; intros c Hc; [exact Hc|].
  cbn [crc_bits]. apply IH.
  assert (S : N.shiftr c 1 < 2 ^ 32).
  { rewrite N.shiftr_div_pow2. change (2 ^ 1) with 2.
    apply N.Div0.div_lt_upper_bound. lia. }
  destruct (N.odd c); [|exact S].
  apply lxor_below; [exact S|reflexivity].
Qed.

Lemma crc32_below (data : bytes) : crc32 data < 2 ^ 32.
Proof.
  unfold crc32. apply lxor_below; [|reflexivity].
  assert (G : forall c, c < 2 ^ 32 -> fold_left crc_update data c < 2 ^ 32).
  { induction data as [|b l IH]; intros c Hc; [exact Hc|].
    cbn [fold_left]. apply IH. unfold crc_update. apply crc_bits_below.
    apply lxor_below; [exact Hc|].
    pose proof (to_N_lt b). change (2 ^ 32) with 4294967296. lia. }
  apply G. reflexivity.
Qed.

Lemma skip_cstring_app (f rest : bytes) :
  x00 ∉ f -> skip_cstring (f ++ x00 :: rest) = rest.
Proof.
  induction f as [|c f IH]; intros Hn; [reflexivity|].
  cbn [app skip_cstring].
  destruct (Byte.eqb c x00) eqn:E.
  - apply Byte.byte_dec_bl in E. subst c. exfalso. apply Hn. by left.
  - apply IH. intros Hin. apply Hn. by right.
Qed.

(** The characters of the base name are characters of the path. *)
Lemma split_rev_tail (r : pystr) (c : N) :
  c ∈ snd (split_rev r) -> c ∈ r.
Proof.
  induction r as [|x r IH]; [done|]. cbn [split_rev].
  destruct (x =? slash); [by intros ?%elem_of_nil|].
  destruct (split_rev r) as [h t]. cbn [snd] in *.
  intros [->|Hin]%elem_of_cons; [by left|]. right. by apply IH.
Qed.

Lemma elem_of_rev {A} (x : A) (l : list A) : x ∈ rev l <-> x ∈ l.
Proof. by rewrite !list_elem_of_In, <- in_rev. Qed.

Lemma basename_chars (p : pystr) (c : N) : c ∈ basename p -> c ∈ p.
Proof.
  unfold basename, path_split.
  pose proof (split_rev_tail (rev p) c) as T.
  destruct (split_rev (rev p)) as [h t]. cbn [snd] in *.
  rewrite elem_of_rev. intros Hin. apply T in Hin.
  by rewrite elem_of_rev in Hin.
Qed.

Lemma gzip_fname_no_nul (filename : pystr) :
  0 ∉ filename -> x00 ∉ gzip_fname filename.
Proof.
  intros Hn. unfold gzip_fname, latin1_encode.
  destruct (forallb _ (basename filename)) eqn:F; [|by intros ?%elem_of_nil].
  assert (G : x00 ∉ map byte_of_N (basename filename)).
  { intros (c & Hc & Hin)%list_elem_of_In%in_map_iff.
    rewrite forallb_forall in F.
    assert (L : c < 256) by (by apply N.ltb_lt, F).
    assert (E : Byte.to_N (byte_of_N c) = c) by (by apply to_N_byte_of_N).
    rewrite Hc in E. cbn in E. subst c.
    by apply Hn, basename_chars, list_elem_of_In. }
  unfold strip_gz. destruct (bytes_eqb _ _); [|exact G].
  intros Hin. apply G. by eapply subseteq_take.
Qed.

Section Gunzip.

Context `{Library}.

Lemma read_gzip_header_written (time : Z) (filename : pystr) (rest : bytes) :
  0 ∉ filename ->
  read_gzip_header (gzip_header time filename ++ rest) = Header rest.
Proof.
  intros Hn%gzip_fname_no_nul. unfold gzip_header.
  destruct (gzip_fname filename) as [|f0 f] eqn:F.
  - reflexivity.
  - cbn [app le32]. cbn [read_gzip_header].
    change (bytes_eqb [x1f; x8b] [x1f; x8b]) with true.
    change (Byte.eqb x08 x08) with true. cbn [negb].
    change (N.testbit (Byte.to_N x08) 2) with false.
    change (N.testbit (Byte.to_N x08) 3) with true.
    change (N.testbit (Byte.to_N x08) 4) with false.
    change (N.testbit (Byte.to_N x08) 1) with false.
    cbv iota.
    rewrite <- app_assoc.
    change (f0 :: f ++ [x00] ++ rest) with ((f0 :: f) ++ x00 :: rest).
    by rewrite skip_cstring_app.
Qed.

Lemma gunzip_members_nil (fuel : nat) :
  gunzip_members fuel [] = {| s_data := []; s_end := CleanEOF |}.
Proof. by destruct fuel. Qed.

(** A file written through [GzipFile] reads back as what was written, and
    the reading ends cleanly. *)
Lemma gunzip_gzip_file (time : Z) (filename : pystr) (payload : bytes) :
  0 ∉ filename ->
  Packed.inflates payload ->
  gunzip (gzip_file time filename payload)
  = {| s_data := payload; s_end := CleanEOF |}.
Proof.
  intros Hn Hi. unfold gunzip, gzip_file. cbn [gunzip_members].
  rewrite read_gzip_header_written by done.
  rewrite Hi. unfold le32 at 1 2. cbn [app].
  change [byte_of_N (crc32 payload); byte_of_N (N.shiftr (crc32 payload) 8);
          byte_of_N (N.shiftr (crc32 payload) 16);
          byte_of_N (N.shiftr (crc32 payload) 24)]
    with (le32 (crc32 payload)).
  change [byte_of_N (N.of_nat (length payload));
          byte_of_N (N.shiftr (N.of_nat (length payload)) 8);
          byte_of_N (N.shiftr (N.of_nat (length payload)) 16);
          byte_of_N (N.shiftr (N.of_nat (length payload)) 24)]
    with (le32 (N.of_nat (length payload))).
  rewrite !of_le_le32.
  rewrite (N.mod_small (crc32 payload)) by apply crc32_below.
  rewrite !N.eqb_refl. cbn [negb skip_zeros].
  rewrite gunzip_members_nil. cbn [s_data s_end].
  by rewrite app_nil_r.
Qed.

End Gunzip.

(** ** [tarfile]: a header is read back *)

Import Packed.

Lemma octal_length (w : nat) (n : N) : length (octal w n) = w.
Proof.
  revert n. induction w as [|w IH]; intros n; [reflexivity|].
  cbn [octal]. rewrite length_app, IH. cbn [length]. lia.
Qed.

Lemma itn_length (n : Z) (digits : nat) :
  (0 < digits)%nat -> length (itn n digits) = digits.
Proof.
  intros Hd. unfold itn. rewrite length_app, octal_length. cbn [length]. lia.
Qed.

Lemma octal_digits (w : nat) (n : N) : Forall is_octal_digit (octal w n).
Proof.
  revert n. induction w as [|w IH]; intros n; [constructor|].
  cbn [octal]. apply Forall_app. split; [apply IH|].
  constructor; [|constructor]. unfold is_octal_digit.
  pose proof (N.mod_lt n 8 ltac:(done)).
  set (r := n mod 8) in *. clearbody r.
  rewrite to_N_byte_of_N by lia. lia.
Qed.

Lemma int8_digits_value (s : pystr) (acc : N) (after_digit : bool) :
  Forall (fun c => 48 <= c <= 55) s ->
  s <> [] \/ after_digit = true ->
  int8_digits s acc after_digit = Some (fold_left octal_step s acc).
Proof.
  revert acc after_digit.
  induction s as [|c s IH]; intros acc after_digit F Hne.
  - destruct Hne as [Hne| ->]; [done|reflexivity].
  - apply Forall_cons in F as [Hc F]. cbn [int8_digits fold_left].
    rewrite (proj2 (N.eqb_neq c 95)) by lia.
    rewrite (proj2 (N.leb_le 48 c)), (proj2 (N.leb_le c 55)) by lia.
    cbn [andb]. apply IH; [exact F|by right].
Qed.

Lemma octal_value (w : nat) (n acc : N) :
  fold_left octal_step (map Byte.to_N (octal w n)) acc
  = acc * 8 ^ N.of_nat w + n mod 8 ^ N.of_nat w.
Proof.
  revert n acc. induction w as [|w IH]; intros n acc.
  - cbn [octal map fold_left]. change (8 ^ N.of_nat 0) with 1.
    rewrite N.mod_1_r. lia.
  - cbn [octal]. rewrite map_app, fold_left_app, IH. cbn [map fold_left].
    unfold octal_step.
    pose proof (N.mod_lt n 8 ltac:(done)).
    rewrite to_N_byte_of_N by (set (r := n mod 8) in *; clearbody r; lia).
    replace (N.of_nat (S w)) with (1 + N.of_nat w) by lia.
    rewrite N.pow_add_r. change (8 ^ 1) with 8.
    rewrite (N.Div0.mod_mul_r n 8 (8 ^ N.of_nat w)).
    generalize (n mod 8) ((n / 8) mod 8 ^ N.of_nat w) (8 ^ N.of_nat w).
    intros r x p. lia.
Qed.

Lemma nts_bytes_app (l rest : bytes) :
  Forall is_octal_digit l -> nts_bytes (l ++ NUL :: rest) = l.
Proof.
  induction 1 as [|c l Hc _ IH]; [reflexivity|].
  cbn [app nts_bytes].
  destruct (Byte.eqb c NUL) eqn:E; [|by rewrite IH].
  apply Byte.byte_dec_bl in E. subst c. unfold is_octal_digit in Hc.
  cbn in Hc. lia.
Qed.

Lemma lstrip_digits (s : pystr) :
  Forall (fun c => 48 <= c <= 55) s -> lstrip s = s.
Proof.
  destruct 1 as [|c s Hc _]; [reflexivity|]. cbn [lstrip].
  unfold is_space.
  rewrite (proj2 (N.leb_gt c 13)), (proj2 (N.leb_gt c 32)) by lia.
  by rewrite !andb_false_r.
Qed.

Lemma strip_digits (s : pystr) :
  Forall (fun c => 48 <= c <= 55) s -> strip s = s.
Proof.
  intros F. unfold strip. rewrite (lstrip_digits s F).
  rewrite lstrip_digits; [apply rev_involutive|].
  apply Forall_forall. intros c Hc. rewrite elem_of_rev in Hc.
  rewrite Forall_forall in F. by apply F.
Qed.

(** A field written by [itn] is read back by [nti]. *)
Lemma nti_octal (w : nat) (n : N) (rest : bytes) :
  (0 < w)%nat ->
  nti (octal w n ++ NUL :: rest) = Some (Z.of_N (n mod 8 ^ N.of_nat w)).
Proof.
  intros Hw.
  pose proof (octal_digits w n) as D. pose proof (octal_length w n) as L.
  assert (D' : Forall (fun c => 48 <= c <= 55) (map Byte.to_N (octal w n))).
  { apply Forall_forall. intros c (b & <- & Hb)%list_elem_of_In%in_map_iff.
    rewrite Forall_forall in D. by apply D, list_elem_of_In. }
  unfold nti.
  destruct (octal w n) as [|b0 r] eqn:E; [cbn in L; lia|].
  cbn [app].
  assert (Dr : Forall (fun c => 48 <= c <= 55) (map Byte.to_N r)).
  { change (map Byte.to_N (b0 :: r))
      with (Byte.to_N b0 :: map Byte.to_N r) in D'.
    by apply Forall_cons in D' as [_ ?]. }
  assert (H0 : is_octal_digit b0) by (by apply Forall_cons in D as [? _]).
  unfold is_octal_digit in H0.
  destruct (Byte.eqb b0 x80) eqn:E80.
  { apply Byte.byte_dec_bl in E80. subst b0. cbn in H0. lia. }
  destruct (Byte.eqb b0 xff) eqn:Eff.
  { apply Byte.byte_dec_bl in Eff. subst b0. cbn in H0. lia. }
  change (b0 :: r ++ NUL :: rest) with ((b0 :: r) ++ NUL :: rest).
  rewrite (nts_bytes_app _ _ D).
  assert (A : forallb (fun x => Byte.to_N x <? 128) (b0 :: r) = true).
  { apply forallb_forall. intros x Hx%list_elem_of_In.
    rewrite Forall_forall in D. apply D in Hx.
    unfold is_octal_digit in Hx. apply N.ltb_lt. lia. }
  rewrite A. unfold latin1_decode. rewrite (strip_digits _ D').
  cbn [map]. unfold int8.
  rewrite (proj2 (N.eqb_neq (Byte.to_N b0) 45)) by lia.
  rewrite (proj2 (N.eqb_neq (Byte.to_N b0) 43)) by lia.
  assert (V : int8_unsigned (Byte.to_N b0 :: map Byte.to_N r)
              = Some (n mod 8 ^ N.of_nat w)).
  { assert (G : int8_digits (Byte.to_N b0 :: map Byte.to_N r) 0 false
                = Some (n mod 8 ^ N.of_nat w)).
    { rewrite int8_digits_value; [|exact D'|by left].
      change (Byte.to_N b0 :: map Byte.to_N r) with (map Byte.to_N (b0 :: r)).
      by rewrite <- E, octal_value. }
    unfold int8_unsigned. destruct (map Byte.to_N r) as [|o r'] eqn:Er; [exact G|].
    assert (Ho : 48 <= o <= 55) by (by apply Forall_cons in Dr as [? _]).
    rewrite (proj2 (N.eqb_neq o 111)), (proj2 (N.eqb_neq o 79)) by lia.
    rewrite andb_false_r. exact G. }
  rewrite V. reflexivity.
Qed.

Lemma nti_itn (n : Z) (digits : nat) (rest : bytes) :
  (1 < digits)%nat ->
  (0 <= n < 8 ^ Z.of_nat (digits - 1))%Z ->
  nti (itn n digits ++ rest) = Some n.
Proof.
  intros Hd Hn. unfold itn. rewrite <- app_assoc. cbn [app].
  rewrite nti_octal by lia. f_equal.
  rewrite N.mod_small; [lia|].
  assert (E : Z.of_N (8 ^ N.of_nat (digits - 1)) = (8 ^ Z.of_nat (digits - 1))%Z).
  { rewrite N2Z.inj_pow. f_equal. lia. }
  lia.
Qed.

Lemma sum_bytes_app (a b : bytes) : sum_bytes (a ++ b) = sum_bytes a + sum_bytes b.
Proof.
  unfold sum_bytes. rewrite fold_left_app.
  generalize (fold_left (fun acc x => acc + Byte.to_N x) a 0). intros n.
  assert (G : forall m, fold_left (fun acc x => acc + Byte.to_N x) b m
                        = m + fold_left (fun acc x => acc + Byte.to_N x) b 0).
  { induction b as [|x b IH]; intros m; cbn [fold_left]; [lia|].
    rewrite IH, (IH (0 + Byte.to_N x)). lia. }
  apply G.
Qed.

Lemma sum_bytes_bound (a : bytes) : sum_bytes a <= 255 * N.of_nat (length a).
Proof.
  induction a as [|x a IH]; [done|].
  change (x :: a) with ([x] ++ a). rewrite sum_bytes_app.
  pose proof (to_N_lt x). unfold sum_bytes at 1. cbn [fold_left length app].
  lia.
Qed.

Lemma field_in_left (off len : nat) (a b : bytes) :
  (off + len <= length a)%nat -> field off len (a ++ b) = field off len a.
Proof.
  intros L. unfold field. rewrite drop_app_le by lia.
  rewrite take_app_le; [reflexivity|]. rewrite length_drop. lia.
Qed.

Lemma field_past (off len : nat) (a b : bytes) :
  (length a <= off)%nat -> field off len (a ++ b) = field (off - length a) len b.
Proof. intros L. unfold field. by rewrite drop_app_ge. Qed.

Lemma field_head (len : nat) (a b : bytes) :
  length a = len -> field 0 len (a ++ b) = a.
Proof. intros <-. unfold field. cbn [drop]. apply take_app_length. Qed.

(** The layout of the header of the member. *)
Lemma header_fields_canonical (n : Z) (chksum : bytes) :
  header_fields (canonical_member n) chksum
  = header_left ++ itn n 12 ++ header_mtime ++ chksum
    ++ header_right.
Proof. reflexivity. Qed.

(** A block whose fields hold the attributes of a regular file, and whose
    checksum is right, is read as that file. *)
Lemma frombuf_regular (buf : bytes) (t : TarInfo) :
  length buf = BLOCKSIZE ->
  forallb (Byte.eqb NUL) buf = false ->
  nti (field 148 8 buf) = Some (fst (calc_chksums buf)) ->
  nti (field 100 8 buf) = Some (mode t) ->
  nti (field 108 8 buf) = Some (uid t) ->
  nti (field 116 8 buf) = Some (gid t) ->
  nti (field 124 12 buf) = Some (size t) ->
  nti (field 136 12 buf) = Some (mtime t) ->
  is_Some (nti (field 329 8 buf)) ->
  is_Some (nti (field 337 8 buf)) ->
  nts (field 0 100 buf) = name t ->
  field 156 1 buf = [REGTYPE] ->
  type t = REGTYPE ->
  nts (field 345 155 buf) = [] ->
  nts (field 157 100 buf) = linkname t ->
  nts (field 265 32 buf) = uname t ->
  nts (field 297 32 buf) = gname t ->
  frombuf buf = inr t.
Proof.
  intros Hlen Hnul Hchk Hmode Huid Hgid Hsize Hmtime [dmaj Hmaj] [dmin Hmin]
    Hname Hty Htype Hprefix Hlink Huname Hgname.
  unfold frombuf. destruct buf as [|b bs]; [discriminate Hlen|].
  rewrite Hlen, Hnul, Hchk, Hmode, Huid, Hgid, Hsize, Hmtime, Hmaj, Hmin,
    Hname, Hty, Hprefix, Hlink, Huname, Hgname.
  change (BLOCKSIZE =? BLOCKSIZE)%nat with true. cbn [negb].
  destruct (calc_chksums (b :: bs)) as [u sg]. cbn [fst].
  rewrite Z.eqb_refl. cbn [orb negb].
  change (Byte.eqb REGTYPE AREGTYPE) with false.
  change (Byte.eqb REGTYPE DIRTYPE) with false. cbn [andb].
  destruct t. cbn in *. by subst.
Qed.

Lemma field_layout (L S M C R : bytes) :
  field (length L) (length S) (L ++ S ++ M ++ C ++ R) = S
  /\ field (length L + length S) (length M) (L ++ S ++ M ++ C ++ R) = M
  /\ field (length L + length S + length M) (length C) (L ++ S ++ M ++ C ++ R)
     = C
  /\ (forall off len,
        field (length L + length S + length M + length C + off) len
          (L ++ S ++ M ++ C ++ R)
        = field off len R)
  /\ (forall off len, (off + len <= length L)%nat ->
        field off len (L ++ S ++ M ++ C ++ R) = field off len L)
  /\ field 0 (length L + length S + length M) (L ++ S ++ M ++ C ++ R)
     = L ++ S ++ M.
Proof.
  unfold field. repeat split.
  - by rewrite drop_app_length, take_app_length.
  - by rewrite drop_app_add, drop_app_length, take_app_length.
  - by rewrite <- Nat.add_assoc, drop_app_add, drop_app_add, drop_app_length,
      take_app_length.
  - intros off len.
    by rewrite <- !Nat.add_assoc, !drop_app_add.
  - intros off len Hle. rewrite drop_app_le by lia.
    rewrite take_app_le; [done|]. rewrite length_drop. lia.
  - cbn [drop].
    replace (L ++ S ++ M ++ C ++ R) with ((L ++ S ++ M) ++ C ++ R)
      by (by rewrite <- !app_assoc).
    rewrite <- Nat.add_assoc, <- !length_app. apply take_app_length.
Qed.

Lemma tobuf_canonical (n : Z) :
  tobuf (canonical_member n)
  = header_left ++ itn n 12 ++ header_mtime
    ++ (octal 6 (sum_bytes (header_left ++ itn n 12 ++ header_mtime
                            ++ replicate 8 x20 ++ header_right))
        ++ [NUL; x20])
    ++ header_right.
Proof. unfold tobuf. by rewrite !header_fields_canonical. Qed.

Lemma tobuf_canonical_length (n : Z) :
  length (tobuf (canonical_member n)) = BLOCKSIZE.
Proof.
  rewrite tobuf_canonical, !length_app, itn_length, octal_length by lia.
  reflexivity.
Qed.

Lemma frombuf_tobuf (n : Z) :
  (0 <= n < 8 ^ 11)%Z ->
  frombuf (tobuf (canonical_member n)) = inr (canonical_member n).
Proof.
  intros Hn.
  pose proof (tobuf_canonical_length n) as Hlen. revert Hlen.
  rewrite tobuf_canonical.
  set (S := itn n 12).
  set (blank := header_left ++ S ++ header_mtime ++ replicate 8 x20 ++ header_right).
  set (C := octal 6 (sum_bytes blank) ++ [NUL; x20]).
  intros Hlen.
  assert (LS : length S = 12%nat) by (apply itn_length; lia).
  assert (LC : length C = 8%nat).
  { unfold C. by rewrite length_app, octal_length. }
  destruct (field_layout header_left S header_mtime C header_right)
    as (FS & FM & FC & FR & FL & F0).
  rewrite LS in FS, FM, FC, FR, F0. rewrite LC in FC, FR.
  change (length header_left) with 124%nat in FS, FM, FC, FR, FL, F0.
  change (length header_mtime) with 12%nat in FM, FC, FR, F0.
  cbn [Nat.add] in FS, FM, FC, FR, F0.
  assert (FR' : forall off len, (156 <= off)%nat ->
    field off len (header_left ++ S ++ header_mtime ++ C ++ header_right)
    = field (off - 156) len header_right).
  { intros off len Hoff. rewrite <- FR. f_equal. lia. }
  apply frombuf_regular.
  - exact Hlen.
  - reflexivity.
  - (* the checksum *)
    rewrite FC. unfold calc_chksums. cbn [fst].
    rewrite F0, (FR' 156%nat) by lia.
    change (field (156 - 156) 356 header_right) with header_right.
    unfold C.
    change (octal 6 (sum_bytes blank) ++ [NUL; x20])
      with (octal 6 (sum_bytes blank) ++ NUL :: [x20]).
    rewrite nti_octal by lia. f_equal.
    assert (B : sum_bytes blank
                = 256 + sum_bytes ((header_left ++ S ++ header_mtime)
                                   ++ header_right)).
    { unfold blank. rewrite !sum_bytes_app.
      change (sum_bytes (replicate 8 x20)) with 256. lia. }
    pose proof (sum_bytes_bound blank) as Bd.
    assert (Lb : length blank = 512%nat).
    { unfold blank. rewrite !length_app, LS. reflexivity. }
    rewrite Lb in Bd.
    rewrite N.mod_small by (change (8 ^ N.of_nat 6) with 262144; lia).
    rewrite B. lia.
  - rewrite FL by lia. reflexivity.
  - rewrite FL by lia. reflexivity.
  - rewrite FL by lia. reflexivity.
  - rewrite FS. unfold S.
    rewrite <- (app_nil_r (itn n 12)). apply nti_itn; [lia|].
    cbn [canonical_member size]. change (Z.of_nat (12 - 1)) with 11%Z. lia.
  - rewrite FM. reflexivity.
  - rewrite FR' by lia. by eexists.
  - rewrite FR' by lia. by eexists.
  - rewrite FL by lia. reflexivity.
  - rewrite FR' by lia. reflexivity.
  - reflexivity.
  - rewrite FR' by lia. reflexivity.
  - rewrite FR' by lia. reflexivity.
  - rewrite FR' by lia. reflexivity.
  - rewrite FR' by lia. reflexivity.
Qed.

(** ** The archive that is written is the archive that is accepted *)

Lemma block_padding (len : nat) :
  Z.to_nat (block (Z.of_nat len)) = (len + length (padding len BLOCKSIZE))%nat.
Proof.
  unfold block, padding, BLOCKSIZE. rewrite length_replicate.
  pose proof (Nat.div_mod_eq len 512) as D.
  pose proof (Nat.mod_upper_bound len 512 ltac:(lia)) as M.
  set (q := (len / 512)%nat) in *. set (r := (len mod 512)%nat) in *.
  clearbody q r.
  destruct (Nat.eq_dec r 0%nat) as [->|Hr].
  - change ((512 - 0) mod 512)%nat with 0%nat.
    rewrite <- (Z.div_unique (Z.of_nat len + 511) 512 (Z.of_nat q) 511) by lia.
    lia.
  - rewrite (Nat.mod_small (512 - r) 512) by lia.
    rewrite <- (Z.div_unique (Z.of_nat len + 511) 512 (Z.of_nat q + 1)
                  (Z.of_nat r - 1)) by lia.
    lia.
Qed.

Lemma member_length (data : bytes) :
  length (member data)
  = (BLOCKSIZE + Z.to_nat (block (Z.of_nat (length data))))%nat.
Proof.
  unfold member. rewrite length_app, tobuf_canonical_length, length_app.
  by rewrite block_padding.
Qed.

Section Reading.

Context `{Library}.

Variable data : bytes.

Hypothesis data_fits : (Z.of_nat (length data) <= MAX_USTAR_SIZE)%Z.

Lemma next_member :
  next (tar_stream data) 0 0
  = Ret (Some (member_info data, after_member data, BLOCKSIZE)).
Proof.
  unfold next, advance, read_block, member_info, after_member.
  cbn [Nat.eqb s_data tar_stream].
  change (drop 0 (packed_tar data)) with (packed_tar data).
  assert (L : (BLOCKSIZE <=? length (packed_tar data))%nat = true).
  { apply Nat.leb_le. unfold packed_tar.
    rewrite length_app, member_length. lia. }
  rewrite L.
  assert (T : take BLOCKSIZE (packed_tar data)
              = tobuf (canonical_member (Z.of_nat (length data)))).
  { unfold packed_tar, member. rewrite <- !app_assoc.
    apply take_app_length'. by rewrite tobuf_canonical_length. }
  rewrite T, frombuf_tobuf by (unfold MAX_USTAR_SIZE in *; lia).
  change (type_in (type (canonical_member (Z.of_nat (length data))))
            EXTENSION_TYPES) with false.
  change (isreg (canonical_member (Z.of_nat (length data)))) with true.
  cbn [orb size canonical_member].
  assert (B : (0 <= block (Z.of_nat (length data)))%Z).
  { unfold block. apply Z.mul_nonneg_nonneg; [|lia].
    apply Z.div_pos; lia. }
  rewrite (proj2 (Z.ltb_ge (block (Z.of_nat (length data))) 0)) by exact B.
  reflexivity.
Qed.

Lemma next_end_of_archive :
  next (tar_stream data) (after_member data) BLOCKSIZE = Ret None.
Proof.
  unfold next.
  assert (A : advance (tar_stream data) (after_member data) BLOCKSIZE
              = Ret true).
  { unfold advance. destruct (after_member data =? BLOCKSIZE)%nat; [reflexivity|].
    change (after_member data =? 0)%nat with false.
    assert (L : (after_member data - 1 <? length (s_data (tar_stream data)))%nat
                = true).
    { apply Nat.ltb_lt. cbn [s_data tar_stream]. unfold packed_tar, after_member.
      rewrite length_app, member_length. unfold end_of_archive.
      rewrite length_app, length_replicate. unfold BLOCKSIZE. lia. }
    by rewrite L. }
  rewrite A. unfold read_block. cbn [s_data tar_stream].
  assert (D : drop (after_member data) (packed_tar data)
              = end_of_archive (length (member data))).
  { unfold packed_tar. apply drop_app_length'. by rewrite member_length. }
  rewrite D.
  assert (L : (BLOCKSIZE <=? length (end_of_archive (length (member data))))%nat
              = true).
  { apply Nat.leb_le. unfold end_of_archive.
    rewrite length_app, length_replicate. unfold BLOCKSIZE. lia. }
  rewrite L. unfold end_of_archive.
  rewrite take_app_le by (rewrite length_replicate; unfold BLOCKSIZE; lia).
  rewrite take_replicate.
  change (BLOCKSIZE `min` (2 * BLOCKSIZE))%nat with BLOCKSIZE.
  reflexivity.
Qed.

Lemma taropen_packed :
  taropen (tar_stream data)
  = Ret {| fileobj := tar_stream data;
           firstmember := Some (member_info data, after_member data, BLOCKSIZE) |}.
Proof. unfold taropen. by rewrite next_member. Qed.

Lemma getmembers_packed :
  getmembers {| fileobj := tar_stream data;
                firstmember :=
                  Some (member_info data, after_member data, BLOCKSIZE) |}
  = Ret [member_info data].
Proof.
  unfold getmembers. cbn [firstmember fileobj load].
  by rewrite next_end_of_archive.
Qed.

End Reading.

Section Accepting.

Context `{Library}.

(** The archive of a checkpoint, at any path: the validator accepts it. *)
Lemma validator_accepts_archive
    (w : world) (path out : pystr) (time : Z) (st : stat) (data : bytes) :
  node_at w path
  = Some (File st true (gzip_file time out (packed_tar data))) ->
  0 ∉ out ->
  inflates (packed_tar data) ->
  data <> [] ->
  (Z.of_nat (length data) <= MAX_USTAR_SIZE)%Z ->
  _tar_has_model_nemo w path = Ret true.
Proof.
  intros Hnode Hnul Hinf Hne Hfit.
  assert (G : gzopen (gzip_file time out (packed_tar data))
              = Ret {| fileobj := tar_stream data;
                       firstmember :=
                         Some (member_info data, after_member data, BLOCKSIZE) |}).
  { unfold gzopen. rewrite gunzip_gzip_file by done.
    fold (tar_stream data). by rewrite taropen_packed. }
  unfold _tar_has_model_nemo, os_path_exists. rewrite Hnode.
  rewrite bool_decide_true by eauto. cbn [negb].
  unfold is_tarfile, open_any, inspect, open_gz, read_file.
  rewrite Hnode, G. cbn [mbind outcome_bind negb].
  unfold getnames, getmember.
  rewrite (getmembers_packed data).
  unfold member_info, mbind, outcome_bind. cbn [map name canonical_member].
  rewrite bool_decide_true by (by left). cbn [negb rev app find].
  change (rstrip_slash model_nemo) with model_nemo.
  unfold str_eqb at 1. rewrite bool_decide_true by reflexivity.
  change (isreg (canonical_member (Z.of_nat (length data)))) with true.
  cbn [negb orb size canonical_member].
  rewrite (proj2 (Z.leb_gt (Z.of_nat (length data)) 0)); [reflexivity|].
  destruct data; [done|cbn [length]; lia].
Qed.

End Accepting.

(** ** [prepare_nemo_artifact] on a machine that is ready *)

Lemma node_present (w : world) (p : pystr) (n : node) :
  node_at w p = Some n -> os_path_exists w p = true.
Proof. intros E. unfold os_path_exists. rewrite E. by apply bool_decide_true. Qed.

Lemma node_absent (w : world) (p : pystr) :
  os_path_exists w p = false -> node_at w p = None.
Proof.
  unfold os_path_exists. intros E%bool_decide_eq_false.
  destruct (node_at w p); [|done]. exfalso. eauto.
Qed.

(** A path that names a file of the machine is a key of its map. *)
Lemma node_at_file (w : world) (p : pystr) st rd data :
  node_at w p = Some (File st rd data) ->
  p <> [] /\ all_slashes p = false /\ files w !! p = Some (File st rd data).
Proof.
  unfold node_at. destruct p as [|c p']; [done|].
  destruct (all_slashes (c :: p')); [done|]. done.
Qed.

Lemma node_at_key (w : world) (p : pystr) :
  p <> [] -> all_slashes p = false -> node_at w p = files w !! p.
Proof.
  unfold node_at. destruct p as [|c p']; [done|]. by intros _ ->.
Qed.

Lemma mkdir_exist_ok_in_place (w : world) (d : pystr) :
  os_path_isdir w d = true -> mkdir_exist_ok w d = (w, Ret ()).
Proof.
  intros Hd. unfold mkdir_exist_ok, os_mkdir.
  assert (E : exists st sz, node_at w d = Some (Dir st sz)).
  { unfold os_path_isdir in Hd.
    destruct (node_at w d) as [[| st sz]|]; try discriminate. eauto. }
  destruct E as (st & sz & E).
  destruct d as [|c d']; [discriminate E|]. rewrite E. by rewrite Hd.
Qed.

Lemma os_makedirs_in_place (fuel : nat) (w : world) (d : pystr) :
  directory_in_place w d -> os_makedirs fuel w d = (w, Ret ()).
Proof.
  intros [Hd Hp]. pose proof (mkdir_exist_ok_in_place w d Hd) as M.
  unfold dirname in Hp.
  destruct fuel as [|fuel]; cbn [os_makedirs];
    destruct (path_split d) as [head tail]; cbn [fst] in Hp;
    destruct head as [|h head']; destruct tail as [|t tail']; try exact M.
  destruct Hp as [|Hp]; [done|]. by rewrite Hp.
Qed.

Section Ready.

Context `{Library}.

Lemma makedirs_in_place (w : world) (d : pystr) :
  directory_in_place w d ->
  makedirs d w = (record (Ev_makedirs d) w, Ret ()).
Proof.
  intros Hd. unfold makedirs.
  by rewrite (os_makedirs_in_place _ (record (Ev_makedirs d) w) d Hd).
Qed.

(** Packing a readable checkpoint into a file that is not there yet, in a
    directory that is: the machine afterwards. *)
Lemma pack_fresh (local_nemo_path out_tar : pystr) (w : world) st data :
  os_path_exists w out_tar = false ->
  directory_in_place w (dirname out_tar) ->
  node_at w local_nemo_path = Some (File st true data) ->
  pack local_nemo_path out_tar w
  = ({| files :=
          <[out_tar := File (new_stat w 438) true
                         (gzip_file (now w) out_tar (packed_tar data))]>
            (files w);
        now := now w;
        who := who w;
        journal := journal w ++ [Ev_pack local_nemo_path out_tar] |},
     Ret ()).
Proof.
  intros Habs%node_absent [Hdir _] Hsrc.
  destruct (node_at_file _ _ _ _ _ Hsrc) as (Hl & Hls & Hlk).
  assert (Hne : local_nemo_path <> out_tar) by (intros ->; congruence).
  assert (Ho : out_tar <> []).
  { intros ->. unfold os_path_isdir in Hdir. discriminate Hdir. }
  assert (Hos : all_slashes out_tar = false).
  { destruct (all_slashes out_tar) eqn:E; [|done].
    unfold node_at in Habs. destruct out_tar; [done|]. by rewrite E in Habs. }
  assert (Hok : files w !! out_tar = None) by (by rewrite <- node_at_key).
  assert (Hpar : parent_check w out_tar = Ret ()).
  { unfold parent_check. unfold os_path_isdir in Hdir.
    destruct (dirname out_tar) as [|c d']; [done|].
    by destruct (node_at w (c :: d')) as [[| ? ?]|]. }
  unfold pack, write_tar_gz, open_wb.
  destruct out_tar as [|c o'] eqn:Eo; [done|]. rewrite <- Eo in *.
  change (node_at (record (Ev_pack local_nemo_path out_tar) w) out_tar)
    with (node_at w out_tar).
  change (parent_check (record (Ev_pack local_nemo_path out_tar) w) out_tar)
    with (parent_check w out_tar).
  rewrite Habs, Hpar.
  set (w1 := with_files _ _).
  assert (Hsrc1 : node_at w1 local_nemo_path = Some (File st true data)).
  { rewrite node_at_key by done. unfold w1. cbn [files with_files record].
    by rewrite lookup_insert_ne. }
  unfold add, str_eqb. rewrite bool_decide_false by done.
  unfold gettarinfo, read_file. rewrite Hsrc1.
  change (isreg (_deterministic_filter _)) with true. cbv iota.
  unfold write_data, w1. cbn [files with_files record].
  rewrite lookup_insert_eq. unfold with_files. cbn [files now who journal].
  rewrite insert_insert_eq. reflexivity.
Qed.


End Ready.

(** ** [prepare_nemo_artifact]: what a run leaves behind *)

Lemma dirname_bare (p : pystr) : slash ∉ p -> dirname p = [].
Proof.
  intros Hn. unfold dirname, path_split.
  assert (E : split_rev (rev p) = ([], rev p)).
  { assert (G : forall r, slash ∉ r -> split_rev r = ([], r)).
    { induction r as [|c r IH]; intros Hr; [reflexivity|]. cbn [split_rev].
      destruct (c =? slash) eqn:Ec.
      - apply N.eqb_eq in Ec as ->. exfalso. apply Hr. by left.
      - rewrite IH; [reflexivity|]. intros Hin. apply Hr. by right. }
    apply G. by rewrite elem_of_rev. }
  rewrite E. reflexivity.
Qed.

Lemma os_mkdir_keeps (w : world) (p q : pystr) (n : node) :
  files w !! q = Some n -> files (fst (os_mkdir w p)) !! q = Some n.
Proof.
  intros Hq. unfold os_mkdir. destruct p as [|c p'] eqn:Ep; [exact Hq|].
  rewrite <- Ep.
  destruct (node_at w p) as [x|] eqn:En; [exact Hq|].
  destruct (parent_check w p) as [[]|e]; [|exact Hq].
  cbn [fst files with_files]. rewrite lookup_insert_ne; [exact Hq|].
  intros <-. unfold node_at in En. rewrite Ep in En.
  destruct (all_slashes (c :: p')); [discriminate|]. rewrite <- Ep in *.
  congruence.
Qed.

Lemma mkdir_exist_ok_keeps (w : world) (p q : pystr) (n : node) :
  files w !! q = Some n -> files (fst (mkdir_exist_ok w p)) !! q = Some n.
Proof.
  intros Hq. unfold mkdir_exist_ok.
  pose proof (os_mkdir_keeps w p q n Hq) as K.
  destruct (os_mkdir w p) as [w' [[]|e]]; cbn [fst] in *; [exact K|].
  by destruct (os_path_isdir w' p).
Qed.

Lemma os_makedirs_keeps (fuel : nat) (w : world) (p q : pystr) (n : node) :
  files w !! q = Some n -> files (fst (os_makedirs fuel w p)) !! q = Some n.
Proof.
  revert w p. induction fuel as [|fuel IH]; intros w p Hq; cbn [os_makedirs];
    destruct (path_split p) as [head tail].
  - by apply mkdir_exist_ok_keeps.
  - destruct head as [|h head']; [by apply mkdir_exist_ok_keeps|].
    destruct tail as [|t tail']; [by apply mkdir_exist_ok_keeps|].
    destruct (negb (os_path_exists w (h :: head')));
      [|by apply mkdir_exist_ok_keeps].
    pose proof (IH w (h :: head') Hq) as K.
    destruct (os_makedirs fuel w (h :: head')) as [w1 [[]|e]]; cbn [fst] in K.
    + destruct (str_eqb (t :: tail') (py ".")); [exact K|].
      by apply mkdir_exist_ok_keeps.
    + destruct e; try exact K.
      destruct (str_eqb (t :: tail') (py ".")); [exact K|].
      by apply mkdir_exist_ok_keeps.
Qed.

(** A node that is there stays there when its map entry stays. *)
Lemma node_at_kept (w w' : world) (p : pystr) :
  (forall q n, files w !! q = Some n -> files w' !! q = Some n) ->
  os_path_exists w p = true -> os_path_exists w' p = true.
Proof.
  intros K. unfold os_path_exists, node_at.
  destruct p as [|c p']; [done|].
  destruct (all_slashes (c :: p')); [done|].
  intros [n Hn]%bool_decide_eq_true. apply bool_decide_eq_true.
  exists n. by apply K.
Qed.

Lemma validator_true_exists `{Library} (w : world) (p : pystr) :
  _tar_has_model_nemo w p = Ret true -> os_path_exists w p = true.
Proof.
  unfold _tar_has_model_nemo. by destruct (os_path_exists w p).
Qed.

Section Runs.

Context `{Library}.

Lemma makedirs_keeps (d : pystr) (w : world) (q : pystr) (n : node) :
  files w !! q = Some n -> files (fst (makedirs d w)) !! q = Some n.
Proof.
  intros Hq. unfold makedirs.
  pose proof (os_makedirs_keeps (length d) (record (Ev_makedirs d) w) d q n Hq)
    as K.
  by destruct (os_makedirs _ _ d) as [w' [[]|e]].
Qed.

(** Packing writes at the output path, and nowhere else. *)
Lemma pack_keeps (local_nemo_path out_tar : pystr) (w : world)
    (q : pystr) (n : node) :
  q <> out_tar ->
  files w !! q = Some n ->
  files (fst (pack local_nemo_path out_tar w)) !! q = Some n.
Proof.
  intros Hne Hq. unfold pack, write_tar_gz.
  destruct (open_wb _ out_tar) as [w1 r] eqn:E.
  apply open_wb_cases in E
    as [(e & -> & ->)|(-> & _ & _ & st & rd & N1 & F1)]; [exact Hq|].
  assert (K1 : files w1 !! q = Some n).
  { rewrite F1. cbn [files record]. by rewrite lookup_insert_ne. }
  assert (K2 : forall d, files (write_data w1 out_tar d) !! q = Some n).
  { intros d. unfold write_data.
    destruct (files w1 !! out_tar) as [[st' rd' old|]|]; try exact K1.
    cbn [files with_files]. by rewrite lookup_insert_ne. }
  destruct (add w1 out_tar local_nemo_path model_nemo _deterministic_filter)
    as [written [[]|e]]; apply K2.
Qed.

Lemma pack_creates (local_nemo_path out_tar : pystr) (w w' : world) :
  pack local_nemo_path out_tar w = (w', Ret ()) ->
  os_path_exists w' out_tar = true.
Proof.
  unfold pack, write_tar_gz.
  destruct (open_wb _ out_tar) as [w1 r] eqn:E.
  apply open_wb_cases in E
    as [(e & -> & ->)|(-> & _ & _ & st & rd & N1 & F1)]; [discriminate|].
  destruct (add w1 out_tar local_nemo_path model_nemo _deterministic_filter)
    as [written [[]|e]]; [|discriminate].
  intros [= <-].
  pose proof (content_write_data w1 out_tar st rd []
                (gzip_file
                   (now (record (Ev_pack local_nemo_path out_tar) w)) out_tar
                   (written ++ end_of_archive (length written))) N1) as C.
  unfold content in C.
  destruct (node_at (write_data _ _ _) out_tar) as [x|] eqn:En; [|discriminate].
  by eapply node_present.
Qed.

(** A run that finds no archive: the directories, the checkpoint, the
    packaging. *)
Lemma prepare_split
    (local_nemo_path model_name out_tar : pystr) (w : world) :
  os_path_exists w out_tar = false ->
  prepare_nemo_artifact local_nemo_path model_name out_tar w
  = (makedirs (dirname local_nemo_path);;
     makedirs (dirname out_tar);;
     obtain model_name local_nemo_path;;
     package local_nemo_path out_tar) w.
Proof.
  intros Habs.
  unfold prepare_nemo_artifact, obtain, package, mbind, St_bind, gets.
  rewrite Habs. reflexivity.
Qed.

Lemma makedirs_raises (d : pystr) (w w1 : world) (e : exn) :
  makedirs d w = (w1, Raise e) -> exists oe, e = OSError oe.
Proof.
  unfold makedirs. destruct (os_makedirs _ _ d) as [w' [[]|oe]];
    [discriminate|]. intros [= _ <-]. eauto.
Qed.

Lemma obtain_raises (model_name local_nemo_path : pystr) (w w1 : world) (e : exn) :
  obtain model_name local_nemo_path w = (w1, Raise e) ->
  e = ImportError \/ e = RuntimeError FailedDownload.
Proof.
  unfold obtain, mbind, St_bind, gets, note, import_nemo, reraise_as, mret, St_ret.
  destruct (negb (os_path_exists w local_nemo_path)); [|discriminate].
  destruct nemo_importable; [|intros [= _ <-]; by left].
  destruct (download model_name local_nemo_path _) as [w' [[]|e']];
    [discriminate|]. intros [= _ <-]. by right.
Qed.

Lemma obtain_present (model_name local_nemo_path : pystr) (w : world) :
  os_path_exists w local_nemo_path = true ->
  obtain model_name local_nemo_path w = (w, Ret ()).
Proof.
  intros E. unfold obtain, mbind, St_bind, gets. by rewrite E.
Qed.

Lemma package_cases (local_nemo_path out_tar : pystr) (w : world) :
  package local_nemo_path out_tar w
  = if missing_or_empty w local_nemo_path
    then (w, Raise MissingCheckpoint)
    else
      match pack local_nemo_path out_tar (record Log_packaging w) with
      | (w3, Raise _) => (w3, Raise (RuntimeError FailedTar))
      | (w3, Ret _) =>
        match _tar_has_model_nemo w3 out_tar with
        | Raise e => (record (Ev_validate out_tar) w3, Raise e)
        | Ret false =>
          (record (Ev_validate out_tar) w3,
           Raise (RuntimeError VerificationFailed))
        | Ret true =>
          (record Log_ready (record (Ev_validate out_tar) w3), Ret out_tar)
        end
      end.
Proof.
  unfold package, mbind, St_bind, gets, throw, mret, St_ret, note, validate,
    reraise_as.
  destruct (missing_or_empty w local_nemo_path); [reflexivity|].
  destruct (pack local_nemo_path out_tar (record Log_packaging w))
    as [w3 [[]|e3]]; [|reflexivity].
  rewrite validator_record.
  by destruct (_tar_has_model_nemo w3 out_tar) as [[|]|e4].
Qed.

(** X13. A path that [prepare_nemo_artifact] returns is the output path,
    and a file or a directory is there; when the run found nothing there, the
    validator has accepted what it wrote.  A second call on the machine the
    first one left returns the same path and does nothing else. *)
Theorem prepare_result_is_stable
    (local_nemo_path model_name out_tar p : pystr) (w w' : world) :
  prepare_nemo_artifact local_nemo_path model_name out_tar w = (w', Ret p) ->
  p = out_tar
  /\ os_path_exists w' out_tar = true
  /\ (os_path_exists w out_tar = false ->
      _tar_has_model_nemo w' out_tar = Ret true)
  /\ prepare_nemo_artifact local_nemo_path model_name out_tar w'
     = (record Log_exists w', Ret out_tar).
Proof.
  intros R.
  assert (Again : forall v, os_path_exists v out_tar = true ->
            prepare_nemo_artifact local_nemo_path model_name out_tar v
            = (record Log_exists v, Ret out_tar)).
  { intros v E. unfold prepare_nemo_artifact, mbind, St_bind, gets.
    by rewrite E. }
  destruct (os_path_exists w out_tar) eqn:E.
  - rewrite (Again w E) in R. injection R as <- <-.
    repeat split; [exact E|discriminate|by apply Again].
  - destruct (prepare_fresh_is_validated _ _ _ _ _ _ E R) as [-> V].
    pose proof (validator_true_exists _ _ V) as E'.
    repeat split; [exact E'|done|by apply Again].
Qed.

(** X14. A run that ends with the verification error has written the
    archive all the same: the output path exists afterwards, the validator
    does not accept what is there, and the next call returns the path. *)
Theorem failed_verification_leaves_archive
    (local_nemo_path model_name out_tar : pystr) (w w' : world) :
  prepare_nemo_artifact local_nemo_path model_name out_tar w
  = (w', Raise (RuntimeError VerificationFailed)) ->
  os_path_exists w' out_tar = true
  /\ _tar_has_model_nemo w' out_tar <> Ret true
  /\ prepare_nemo_artifact local_nemo_path model_name out_tar w'
     = (record Log_exists w', Ret out_tar).
Proof.
  intros R.
  assert (Done : os_path_exists w' out_tar = true
                 /\ _tar_has_model_nemo w' out_tar <> Ret true).
  { revert R. destruct (os_path_exists w out_tar) eqn:E.
    { unfold prepare_nemo_artifact, mbind, St_bind, gets. by rewrite E. }
    rewrite prepare_split by done. unfold mbind, St_bind.
    destruct (makedirs (dirname local_nemo_path) w) as [w1 [[]|e1]] eqn:M1;
      [|by intros [= <- ->]; apply makedirs_raises in M1 as [? [=]]].
    destruct (makedirs (dirname out_tar) w1) as [w2 [[]|e2]] eqn:M2;
      [|by intros [= <- ->]; apply makedirs_raises in M2 as [? [=]]].
    destruct (obtain model_name local_nemo_path w2) as [w3 [[]|e3]] eqn:O;
      [|by intros [= <- ->]; apply obtain_raises in O as [[=]|[=]]].
    rewrite package_cases.
    destruct (missing_or_empty w3 local_nemo_path); [discriminate|].
    destruct (pack local_nemo_path out_tar (record Log_packaging w3))
      as [w4 [[]|e4]] eqn:P; [|discriminate].
    apply pack_creates in P.
    destruct (_tar_has_model_nemo w4 out_tar) as [[|]|e5] eqn:V;
      [discriminate|intros [= <-]|intros [= <- _]];
      (split; [exact P|]); rewrite validator_record, V; discriminate. }
  destruct Done as [E V]. repeat split; [exact E|exact V|].
  unfold prepare_nemo_artifact, mbind, St_bind, gets. by rewrite E.
Qed.

(** X15. The import of NeMo stands outside the [try]: when the checkpoint
    is missing and NeMo cannot be imported, the [ImportError] leaves
    [prepare_nemo_artifact] as it is, not as the [RuntimeError] of a failed
    download; nothing has been fetched or written. *)
Theorem import_error_is_not_wrapped
    (local_nemo_path model_name out_tar : pystr) (w : world) :
  nemo_importable = false ->
  os_path_exists w out_tar = false ->
  directory_in_place w (dirname local_nemo_path) ->
  directory_in_place w (dirname out_tar) ->
  os_path_exists w local_nemo_path = false ->
  prepare_nemo_artifact local_nemo_path model_name out_tar w
  = (record Log_downloading
       (record (Ev_makedirs (dirname out_tar))
          (record (Ev_makedirs (dirname local_nemo_path)) w)),
     Raise ImportError).
Proof.
  intros Himp Habs Hd1 Hd2 Hsrc.
  rewrite prepare_split by done. unfold mbind, St_bind.
  rewrite (makedirs_in_place w _ Hd1).
  rewrite (makedirs_in_place (record _ w) (dirname out_tar) Hd2).
  unfold obtain, mbind, St_bind, gets, note, import_nemo.
  change (os_path_exists (record _ (record _ w)) local_nemo_path)
    with (os_path_exists w local_nemo_path).
  by rewrite Hsrc, Himp.
Qed.

(** X16. A path without a directory part makes the run fail before
    anything is fetched or packed: [os.path.dirname] gives the empty string,
    and [os.makedirs] raises [FileNotFoundError] on it. *)
Theorem bare_file_name_fails
    (local_nemo_path model_name out_tar : pystr) (w : world) :
  os_path_exists w out_tar = false ->
  (slash ∉ local_nemo_path ->
   prepare_nemo_artifact local_nemo_path model_name out_tar w
   = (record (Ev_makedirs []) w, Raise (OSError ENOENT)))
  /\ (directory_in_place w (dirname local_nemo_path) ->
      slash ∉ out_tar ->
      prepare_nemo_artifact local_nemo_path model_name out_tar w
      = (record (Ev_makedirs [])
           (record (Ev_makedirs (dirname local_nemo_path)) w),
         Raise (OSError ENOENT))).
Proof.
  intros Habs. split.
  - intros Hb%dirname_bare. rewrite prepare_split by done.
    unfold mbind, St_bind. by rewrite Hb.
  - intros Hd1 Hb%dirname_bare. rewrite prepare_split by done.
    unfold mbind, St_bind. rewrite (makedirs_in_place w _ Hd1).
    by rewrite Hb.
Qed.

(** X17. A checkpoint that is there but empty is not fetched again: the
    run ends with the error of a missing checkpoint, and has fetched and
    written nothing. *)
Theorem empty_checkpoint_is_not_fetched
    (local_nemo_path model_name out_tar : pystr) (w : world) st rd :
  os_path_exists w out_tar = false ->
  directory_in_place w (dirname local_nemo_path) ->
  directory_in_place w (dirname out_tar) ->
  node_at w local_nemo_path = Some (File st rd []) ->
  prepare_nemo_artifact local_nemo_path model_name out_tar w
  = (record (Ev_makedirs (dirname out_tar))
       (record (Ev_makedirs (dirname local_nemo_path)) w),
     Raise MissingCheckpoint).
Proof.
  intros Habs Hd1 Hd2 Hsrc.
  rewrite prepare_split by done. unfold mbind, St_bind.
  rewrite (makedirs_in_place w _ Hd1).
  rewrite (makedirs_in_place (record _ w) (dirname out_tar) Hd2).
  rewrite obtain_present by (by eapply (node_present w)).
  rewrite package_cases.
  unfold missing_or_empty, os_path_getsize.
  change (node_at (record _ (record _ w)) local_nemo_path)
    with (node_at w local_nemo_path).
  rewrite Hsrc. by rewrite orb_true_r.
Qed.


End Runs.

(** ** The validator and files that are not gzip streams *)

Lemma bytes_eqb_magic (m1 m2 : byte) :
  bytes_eqb [m1; m2] [x1f; x8b] = true -> m1 = x1f /\ m2 = x8b.
Proof.
  unfold bytes_eqb. intros E%bool_decide_eq_true. cbn [map] in E.
  injection E as E1 E2.
  apply (f_equal Byte.of_N) in E1, E2. rewrite !Byte.of_to_N in E1, E2.
  by injection E1 as ->; injection E2 as ->.
Qed.

Section NotGzip.

Context `{Library}.

Lemma gzopen_not_gzip (data : bytes) :
  (forall rest, data <> x1f :: x8b :: rest) -> gzopen data = Raise ReadError.
Proof.
  intros Hm. unfold gzopen, gunzip. cbn [gunzip_members].
  destruct data as [|m1 [|m2 r]]; [reflexivity..|].
  cbn [read_gzip_header].
  destruct (bytes_eqb [m1; m2] [x1f; x8b]) eqn:E; [|reflexivity].
  apply bytes_eqb_magic in E as [-> ->]. by destruct (Hm r).
Qed.

(** X19. A file that does not start with the two bytes of the gzip magic
    number is never accepted, whatever it holds: a tar archive that is not
    compressed, with [model.nemo] in it, is recognised by [is_tarfile] and
    then fails to open as a gzip stream. *)
Theorem validator_rejects_non_gzip
    (w : world) (path : pystr) st rd (data : bytes) :
  node_at w path = Some (File st rd data) ->
  (forall rest, data <> x1f :: x8b :: rest) ->
  _tar_has_model_nemo w path = Ret false
  \/ exists e, _tar_has_model_nemo w path = Raise e.
Proof.
  intros Hnode Hm. pose proof (gzopen_not_gzip data Hm) as G.
  unfold _tar_has_model_nemo, os_path_exists. rewrite Hnode.
  rewrite bool_decide_true by eauto. cbn [negb].
  unfold is_tarfile, open_any, inspect, open_gz, read_file. rewrite Hnode.
  destruct rd; [|right; by eexists].
  rewrite G. cbn [mbind outcome_bind].
  destruct (bz2_tar data || xz_tar data); [by left|].
  destruct (taropen {| s_data := data; s_end := CleanEOF |}) as [t|e];
    [by left|].
  destruct e; (by left) || (right; by eexists).
Qed.

End NotGzip.

(** ** The archive and the machine it is made on *)

Lemma open_wb_record (e : event) (w : world) (p : pystr) :
  snd (open_wb (record e w) p) = snd (open_wb w p).
Proof.
  unfold open_wb. destruct p as [|c p']; [reflexivity|].
  change (node_at (record e w) (c :: p')) with (node_at w (c :: p')).
  change (parent_check (record e w) (c :: p')) with (parent_check w (c :: p')).
  destruct (node_at w (c :: p')) as [[| ]|]; try reflexivity.
  by destruct (parent_check w (c :: p')) as [[]|].
Qed.

Section Clock.

Context `{Library}.


End Clock.

(** ** The stored coder *)

Lemma of_le_le16 (n : N) : of_le (le16 n) = n mod 65536.
Proof.
  unfold of_le, le16. cbn [foldr]. rewrite !to_N_byte_of_N_mod.
  rewrite N.shiftr_div_pow2. change (2 ^ 8) with 256.
  pose proof (N.div_mod n 256 ltac:(done)).
  pose proof (N.mod_lt n 256 ltac:(done)).
  pose proof (N.div_mod (n / 256) 256 ltac:(done)).
  pose proof (N.mod_lt (n / 256) 256 ltac:(done)).
  apply (N.mod_unique _ _ (n / 256 / 256)); [lia|].
  set (r := n mod 256) in *. set (r1 := (n / 256) mod 256) in *.
  set (q2 := n / 256 / 256) in *. set (q1 := n / 256) in *.
  clearbody r r1 q2 q1. lia.
Qed.

Lemma inflate_stored_final_block (fuel : nat) (len : N) (r : bytes) :
  len <= 65535 -> len <= N.of_nat (length r) ->
  inflate_stored_blocks (S fuel) (x01 :: le16 len ++ le16 (65535 - len) ++ r)
  = (take (N.to_nat len) r, Finished (drop (N.to_nat len) r)).
Proof.
  intros Hlen Hr. pose proof (of_le_le16 len) as L1.
  pose proof (of_le_le16 (65535 - len)) as L2.
  rewrite N.mod_small in L1, L2 by lia.
  unfold le16 in *. cbn [app inflate_stored_blocks].
  change (N.land (N.shiftr (Byte.to_N x01) 1) 3 =? 0) with true.
  change (N.odd (Byte.to_N x01)) with true. cbn [negb].
  rewrite L1, L2.
  rewrite (proj2 (N.eqb_eq _ 65535)) by lia. cbn [negb].
  by rewrite (proj2 (N.ltb_ge _ _)) by lia.
Qed.

(** A payload that fits one stored block is decoded as it was coded. *)
Lemma stored_library_inflates (payload : bytes) :
  N.of_nat (length payload) <= 65535 -> @inflates stored_library payload.
Proof.
  intros Hlen rest. cbn [inflate deflate stored_library].
  unfold deflate_stored, inflate_stored. cbn [deflate_stored_blocks].
  rewrite (proj2 (N.leb_le (N.of_nat (length payload)) 65535)) by lia.
  cbn [app]. rewrite <- !app_assoc.
  rewrite inflate_stored_final_block
    by (try rewrite length_app; lia).
  by rewrite Nat2N.id, take_app_length, drop_app_length.
Qed.

(** ** The theorems with a precondition, each on an input that meets it *)

Import Cases.


Lemma output_fn_body_verbatim_witness :
  fst (snd (Inference.output_fn transcript Inference.application_json))
  = py "{" ++ dquote ++ py "text" ++ dquote ++ py ": "
    ++ dquote ++ transcript ++ dquote ++ py "}".
Proof.
  apply (output_fn_body_verbatim transcript Inference.application_json).
  unfold transcript.
  repeat (constructor; [repeat split; vm_compute; discriminate|]).
  constructor.
Defined.

Lemma invoke_parakeet_returns_text_witness :
  exists pairs answer,
    JObj [(py "text", JStr transcript)] = JObj pairs
    /\ dict_get (py "text") pairs = Some answer
    /\ last [Invoke.Info_encoding wav_path; Invoke.Info_invoking (py "parakeet");
             Invoke.Info_received (JStr transcript)]
       = Some (Invoke.Info_received answer).
Proof.
  apply (invoke_parakeet_returns_text unit (Ret endpoint) studio
           (py "parakeet") wav_path).
  vm_compute. reflexivity.
Defined.

Lemma invoke_parakeet_reads_output_fn_witness :
  Invoke.invoke_parakeet unit (Ret endpoint) studio (py "parakeet") wav_path
  = ([Invoke.Info_encoding wav_path; Invoke.Info_invoking (py "parakeet");
      Invoke.Info_received (JStr transcript)],
     Ret (JObj [(py "text", JStr transcript)])).
Proof.
  eapply (invoke_parakeet_reads_output_fn unit endpoint studio (py "parakeet")
            wav_path wav2 _ transcript Inference.application_json).
  - vm_compute. reflexivity.
  - vm_compute. reflexivity.
  - vm_compute. reflexivity.
Defined.

Lemma role_arn_comes_from_the_service_witness :
  exists response,
    CreateRole.get_role iam role_name [role_name] = ([role_name], Ret response)
    /\ CreateRole.role_arn response
       = Ret (JStr (py "arn:aws:iam::123456789012:role/" ++ role_name)).
Proof.
  assert (E : CreateRole.create_sagemaker_role (list pystr) (Ret iam) role_name
                [role_name]
              = ([role_name],
                 ([CreateRole.Call_create_role role_name
                     (JsonEncoder.dumps CreateRole.trust_policy)
                     CreateRole.description;
                   CreateRole.Call_get_role role_name],
                  Ret (JStr (py "arn:aws:iam::123456789012:role/"
                             ++ role_name)))))
    by (vm_compute; reflexivity).
  destruct (role_arn_comes_from_the_service _ _ _ _ _ _ _ E)
    as (iam' & response & [= <-] & R & [(s1 & _ & _ & [=])|(s1 & G & H)]).
  exists response. split; [|exact R].
  destruct H as [[C _]|(s0 & created & C & _)];
    vm_compute in C; injection C as <-; exact G || discriminate.
Defined.


Lemma prepare_result_is_stable_witness :
  out_tar = out_tar
  /\ os_path_exists built out_tar = true
  /\ (os_path_exists (fresh 1700000000) out_tar = false ->
      @_tar_has_model_nemo stored_library built out_tar = Ret true)
  /\ @prepare_nemo_artifact stored_library local_nemo_path model_name out_tar
       built
     = (record Log_exists built, Ret out_tar).
Proof.
  apply (@prepare_result_is_stable stored_library local_nemo_path model_name
           out_tar out_tar (fresh 1700000000) built).
  vm_compute. reflexivity.
Defined.

Lemma failed_verification_leaves_archive_witness :
  os_path_exists rejected out_tar = true
  /\ @_tar_has_model_nemo stored_library rejected out_tar <> Ret true
  /\ @prepare_nemo_artifact stored_library local_nemo_path model_name out_tar
       rejected
     = (record Log_exists rejected, Ret out_tar).
Proof.
  apply (@failed_verification_leaves_archive stored_library local_nemo_path
           model_name out_tar folder rejected).
  vm_compute. reflexivity.
Defined.

Lemma import_error_is_not_wrapped_witness :
  @prepare_nemo_artifact stored_library local_nemo_path model_name out_tar bare
  = (record Log_downloading
       (record (Ev_makedirs (dirname out_tar))
          (record (Ev_makedirs (dirname local_nemo_path)) bare)),
     Raise ImportError).
Proof.
  apply (@import_error_is_not_wrapped stored_library local_nemo_path model_name
           out_tar bare).
  - reflexivity.
  - vm_compute. reflexivity.
  - split; [vm_compute; reflexivity|left; vm_compute; reflexivity].
  - split; [vm_compute; reflexivity|left; vm_compute; reflexivity].
  - vm_compute. reflexivity.
Defined.

Lemma bare_file_name_fails_witness :
  @prepare_nemo_artifact stored_library (py "model.nemo") model_name
    (py "model.tar.gz") (fresh 1700000000)
  = (record (Ev_makedirs []) (fresh 1700000000), Raise (OSError ENOENT))
  /\ @prepare_nemo_artifact stored_library local_nemo_path model_name
       (py "model.tar.gz") (fresh 1700000000)
     = (record (Ev_makedirs [])
          (record (Ev_makedirs (dirname local_nemo_path)) (fresh 1700000000)),
        Raise (OSError ENOENT)).
Proof.
  assert (E : os_path_exists (fresh 1700000000) (py "model.tar.gz") = false)
    by (vm_compute; reflexivity).
  split.
  - apply (proj1 (@bare_file_name_fails stored_library (py "model.nemo")
                    model_name (py "model.tar.gz") (fresh 1700000000) E)).
    apply (bool_decide_unpack _). vm_compute. exact I.
  - apply (proj2 (@bare_file_name_fails stored_library local_nemo_path
                    model_name (py "model.tar.gz") (fresh 1700000000) E)).
    + split; [vm_compute; reflexivity|left; vm_compute; reflexivity].
    + apply (bool_decide_unpack _). vm_compute. exact I.
Defined.

Lemma empty_checkpoint_is_not_fetched_witness :
  @prepare_nemo_artifact stored_library local_nemo_path model_name out_tar
    hollow
  = (record (Ev_makedirs (dirname out_tar))
       (record (Ev_makedirs (dirname local_nemo_path)) hollow),
     Raise MissingCheckpoint).
Proof.
  apply (@empty_checkpoint_is_not_fetched stored_library local_nemo_path
           model_name out_tar hollow dev_stat true).
  - vm_compute. reflexivity.
  - split; [vm_compute; reflexivity|left; vm_compute; reflexivity].
  - split; [vm_compute; reflexivity|left; vm_compute; reflexivity].
  - vm_compute. reflexivity.
Defined.


Lemma validator_rejects_non_gzip_witness :
  @_tar_has_model_nemo stored_library
    (put (fresh 1700000000) out_tar plain_tar) out_tar = Ret false
  \/ exists e,
       @_tar_has_model_nemo stored_library
         (put (fresh 1700000000) out_tar plain_tar) out_tar = Raise e.
Proof.
  apply (@validator_rejects_non_gzip stored_library
           (put (fresh 1700000000) out_tar plain_tar) out_tar dev_stat true
           plain_tar).
  - vm_compute. reflexivity.
  - intros rest E. unfold plain_tar in E. discriminate E.
Defined.

